(** * bab-proxy-vercel: a shallow embedding of the proxy's core in Rocq

    The development follows the layout of the repository:

    - [Js]        the JavaScript string primitives the sources call
                  ([startsWith], [includes], [toLowerCase], [trim], [split] ...);
    - [Re]        the regular-expression literals of the sources, as data, with a
                  matcher by derivatives and its correctness proof;
    - lib/auth.ts, lib/ssrf.ts, lib/config.ts, lib/sanitize.ts, lib/cors.ts,
      api/discover.ts, api/health.ts, api/fetch.ts, api/parse.ts
                  each in a part of its own, definitions first, theorems last.

    JavaScript strings are modelled as Rocq [string]s: sequences of code units
    below 256, with the case mapping and the white space of that range. *)

From Stdlib Require Import String Ascii List Bool Arith ZArith NArith Lia QArith.
Import ListNotations.

Close Scope Q_scope.
Open Scope list_scope.
Open Scope string_scope.

(* ====================================================================== *)
(** * JavaScript string primitives *)
(* ====================================================================== *)

Module Js.

(** [s.charCodeAt(i)] for an index inside the string. *)
Definition code (c : ascii) : N := N_of_ascii c.

Definition chr (n : nat) : ascii := ascii_of_nat n.

Definition between (lo hi : N) (c : ascii) : bool :=
  (N.leb lo (code c) && N.leb (code c) hi)%bool.

Definition is_digit (c : ascii) : bool := between 48 57 c.
Definition is_upper (c : ascii) : bool := between 65 90 c.
Definition is_lower (c : ascii) : bool := between 97 122 c.
Definition is_alpha (c : ascii) : bool := (is_upper c || is_lower c)%bool.

(** White space of [String.prototype.trim] and of the class [\s] among the
    code units below 256: TAB, LF, VT, FF, CR, SPACE and NO-BREAK SPACE. *)
Definition is_space (c : ascii) : bool :=
  (between 9 13 c || N.eqb (code c) 32 || N.eqb (code c) 160)%bool.

(** Line terminators, the characters [.] does not match. *)
Definition is_line_terminator (c : ascii) : bool :=
  (N.eqb (code c) 10 || N.eqb (code c) 13)%bool.

(** The capital letters of Latin-1 beyond ASCII: U+00C0 to U+00DE but the
    multiplication sign. *)
Definition is_upper_latin1 (c : ascii) : bool :=
  (between 192 222 c && negb (N.eqb (code c) 215))%bool.

Definition lower_char (c : ascii) : ascii :=
  if (is_upper c || is_upper_latin1 c)%bool then ascii_of_N (code c + 32) else c.

Fixpoint toLowerCase (s : string) : string :=
  match s with
  | EmptyString => EmptyString
  | String c r => String (lower_char c) (toLowerCase r)
  end.

Definition startsWith (s p : string) : bool := String.prefix p s.

Fixpoint rev_acc (s acc : string) : string :=
  match s with
  | EmptyString => acc
  | String c r => rev_acc r (String c acc)
  end.

Definition rev (s : string) : string := rev_acc s EmptyString.

Definition endsWith (s p : string) : bool := String.prefix (rev p) (rev s).

(** [s.includes(p)]: [p] occurs somewhere in [s]. *)
Fixpoint includes (s p : string) : bool :=
  (String.prefix p s ||
   match s with
   | EmptyString => false
   | String _ r => includes r p
   end)%bool.

Fixpoint trimStart (s : string) : string :=
  match s with
  | String c r => if is_space c then trimStart r else s
  | EmptyString => EmptyString
  end.

Definition trimEnd (s : string) : string := rev (trimStart (rev s)).

Definition trim (s : string) : string := trimEnd (trimStart s).

(** [s.split(sep)] for a one-character separator. *)
Fixpoint split_char_aux (sep : ascii) (s cur : string) : list string :=
  match s with
  | EmptyString => [rev cur]
  | String c r =>
      if Ascii.eqb c sep then rev cur :: split_char_aux sep r EmptyString
      else split_char_aux sep r (String c cur)
  end.

Definition split_char (sep : ascii) (s : string) : list string :=
  split_char_aux sep s EmptyString.

(** [s.split(/\s+/)]: the separators are the maximal runs of white space. *)
Fixpoint split_ws_aux (s cur : string) (in_sep : bool) : list string :=
  match s with
  | EmptyString => [rev cur]
  | String c r =>
      if is_space c then
        if in_sep then split_ws_aux r cur true
        else rev cur :: split_ws_aux r EmptyString true
      else split_ws_aux r (String c cur) false
  end.

Definition split_ws (s : string) : list string := split_ws_aux s EmptyString false.

(** [parts.join(sep)]. *)
Definition join (sep : string) (parts : list string) : string :=
  String.concat sep parts.

(** JavaScript truthiness of a string: the empty string is falsy. *)
Definition truthy (s : string) : bool :=
  match s with EmptyString => false | _ => true end.

(** [a || b] on strings. *)
Definition or_else (a b : string) : string := if truthy a then a else b.

(** [a || b] where [a] may be [undefined]. *)
Definition opt_or (a : option string) (b : string) : string :=
  match a with
  | Some s => or_else s b
  | None => b
  end.

(** A possibly-missing string used as a condition. *)
Definition opt_truthy (a : option string) : bool :=
  match a with Some s => truthy s | None => false end.

Fixpoint repeat_char (c : ascii) (n : nat) : string :=
  match n with
  | O => EmptyString
  | S k => String c (repeat_char c k)
  end.

End Js.

(* ====================================================================== *)
(** * Regular expressions *)
(* ====================================================================== *)

(** The regular-expression literals of the sources are kept as data.  A literal
    is written as its body, a [regex], together with the operation that carries
    its anchors: [/^r$/] is [test_whole r], [/^r/] is [test_prefix r], [/r$/] is
    [test_suffix r] and [/r/] is [test_search r]. *)

Module Re.

(** Character classes. *)
Inductive cset : Type :=
| CAny                       (* every code unit *)
| CDot                       (* .   : every code unit but a line terminator *)
| CChar (c : ascii)          (* a literal character *)
| CRange (lo hi : ascii)     (* a-z *)
| CDigit                     (* \d *)
| CSpace                     (* \s *)
| CUnion (a b : cset)        (* [ab] *)
| CNot (a : cset).           (* [^a] *)

Fixpoint cmem (cs : cset) (c : ascii) : bool :=
  match cs with
  | CAny => true
  | CDot => negb (Js.is_line_terminator c)
  | CChar d => Ascii.eqb c d
  | CRange lo hi => Js.between (Js.code lo) (Js.code hi) c
  | CDigit => Js.is_digit c
  | CSpace => Js.is_space c
  | CUnion a b => (cmem a c || cmem b c)%bool
  | CNot a => negb (cmem a c)
  end.

Inductive regex : Type :=
| Void                       (* matches nothing *)
| Eps                        (* matches the empty string *)
| Sym (cs : cset)
| Seq (a b : regex)
| Alt (a b : regex)
| Star (a : regex).

(** Derived forms. *)
Definition Top : regex := Star (Sym CAny).
Definition Chr (c : ascii) : regex := Sym (CChar c).
Definition Plus (a : regex) : regex := Seq a (Star a).
Definition Opt (a : regex) : regex := Alt a Eps.

Fixpoint Lit (s : string) : regex :=
  match s with
  | EmptyString => Eps
  | String c r => Seq (Chr c) (Lit r)
  end.

(** [a{n}] *)
Fixpoint Times (n : nat) (a : regex) : regex :=
  match n with
  | O => Eps
  | S k => Seq a (Times k a)
  end.

(** [a{0,n}] *)
Fixpoint Upto (n : nat) (a : regex) : regex :=
  match n with
  | O => Eps
  | S k => Opt (Seq a (Upto k a))
  end.

(** [a{n,m}] for [n <= m] *)
Definition Between (n m : nat) (a : regex) : regex :=
  Seq (Times n a) (Upto (m - n) a).

Fixpoint nullable (r : regex) : bool :=
  match r with
  | Void => false
  | Eps => true
  | Sym _ => false
  | Seq a b => (nullable a && nullable b)%bool
  | Alt a b => (nullable a || nullable b)%bool
  | Star _ => true
  end.

(** Constructors that absorb [Void] and [Eps], so that derivatives stay small. *)
Definition mkSeq (a b : regex) : regex :=
  match a, b with
  | Void, _ => Void
  | _, Void => Void
  | Eps, _ => b
  | _, _ => Seq a b
  end.

Definition mkAlt (a b : regex) : regex :=
  match a, b with
  | Void, _ => b
  | _, Void => a
  | _, _ => Alt a b
  end.

(** The derivative of [r] by the character [c]. *)
Fixpoint deriv (c : ascii) (r : regex) : regex :=
  match r with
  | Void => Void
  | Eps => Void
  | Sym cs => if cmem cs c then Eps else Void
  | Seq a b =>
      mkAlt (mkSeq (deriv c a) b) (if nullable a then deriv c b else Void)
  | Alt a b => mkAlt (deriv c a) (deriv c b)
  | Star a => mkSeq (deriv c a) (Star a)
  end.

Fixpoint derivs (s : string) (r : regex) : regex :=
  match s with
  | EmptyString => r
  | String c rest => derivs rest (deriv c r)
  end.

(** [r] matches the whole of [s]. *)
Definition matches (r : regex) (s : string) : bool := nullable (derivs s r).

Definition test_whole (r : regex) (s : string) : bool := matches r s.
Definition test_prefix (r : regex) (s : string) : bool := matches (Seq r Top) s.
Definition test_suffix (r : regex) (s : string) : bool := matches (Seq Top r) s.
Definition test_search (r : regex) (s : string) : bool :=
  matches (Seq Top (Seq r Top)) s.

(** Group 1 of [/^(.*?)r$/]: the lazy group takes the shortest run of [.]
    characters after which [r] matches the rest of the string. *)
Fixpoint capture_lazy (r : regex) (s acc : string) : option string :=
  if matches r s then Some (Js.rev acc)
  else
    match s with
    | EmptyString => None
    | String c rest =>
        if cmem CDot c then capture_lazy r rest (String c acc) else None
    end.

Definition match_lazy_prefix (r : regex) (s : string) : option string :=
  capture_lazy r s EmptyString.

(** Regular expressions that accept every string, and that accept none,
    recognised by their shape. *)
Fixpoint always (r : regex) : bool :=
  match r with
  | Star (Sym CAny) => true
  | Alt a b => (always a || always b)%bool
  | _ => false
  end.

Fixpoint never (r : regex) : bool :=
  match r with
  | Void => true
  | Seq a b => (never a || never b)%bool
  | Alt a b => (never a && never b)%bool
  | _ => false
  end.

(** The language of a regular expression. *)
Inductive lang : regex -> string -> Prop :=
| L_Eps : lang Eps ""
| L_Sym cs c : cmem cs c = true -> lang (Sym cs) (String c "")
| L_Seq a b s t : lang a s -> lang b t -> lang (Seq a b) (s ++ t)
| L_AltL a b s : lang a s -> lang (Alt a b) s
| L_AltR a b s : lang b s -> lang (Alt a b) s
| L_Star0 a : lang (Star a) ""
| L_StarS a s t : lang a s -> lang (Star a) t -> lang (Star a) (s ++ t).

End Re.

(* ====================================================================== *)
(** * Values shared by the handlers *)
(* ====================================================================== *)

(** What a [throw] carries: an [Error] object with its [name] and [message],
    or some other value. *)
Inductive Thrown : Type :=
| ErrorObject (name message : string)
| NonError.

(** The result of running code that may throw. *)
Inductive Completion (A : Type) : Type :=
| Normal (a : A)
| Throw (e : Thrown).

Arguments Normal {A} a.
Arguments Throw {A} e.

Definition TypeError (msg : string) : Thrown := ErrorObject "TypeError" msg.

(** JSON values, as [JSON.parse] and the platform's body parser produce them. *)
#[warnings="-register-all"]
Inductive JsValue : Type :=
| JUndefined
| JNull
| JBool (b : bool)
| JNumber (z : Z)
| JString (s : string)
| JArray (items : list JsValue)
| JObject (fields : list (string * JsValue)).

(** A header of an incoming request: [string | string[] | undefined]. *)
Inductive HeaderValue : Type :=
| HString (s : string)
| HArray (l : list string).

(** [req.body]: the platform hands over either the raw text or a value it has
    parsed already. *)
Record VercelRequest : Type := {
  req_method : string;
  req_headers : list (string * HeaderValue);
  req_body : JsValue
}.

Fixpoint assoc {A : Type} (k : string) (l : list (string * A)) : option A :=
  match l with
  | [] => None
  | (k', v) :: r => if String.eqb k k' then Some v else assoc k r
  end.

(** Process configuration read from the environment at start-up. *)
Record Config : Type := {
  API_KEY : option string;          (* process.env.BAB_API_KEY *)
  MAX_HTML_SIZE_MB : N              (* parseInt(process.env.MAX_HTML_SIZE_MB || '5', 10) *)
}.

(** The rest of the environment read at start-up. *)
Record Environment : Type := {
  ALLOWED_ORIGINS_env : option string;   (* process.env.ALLOWED_ORIGINS *)
  MAX_RESPONSE_SIZE_MB : N               (* parseInt(process.env.MAX_RESPONSE_SIZE_MB || '10', 10) *)
}.

(* ====================================================================== *)
(** * The platform's URL class *)
(* ====================================================================== *)

(** The fields of a [URL] object the sources read. *)
Record URL : Type := {
  href : string;
  protocol : string;
  hostname : string;
  pathname : string;
  origin : string
}.

(** [new URL(input)] and [new URL(input, base)]; [None] when the constructor
    throws.  The sources are embedded over any implementation of it. *)
Class UrlApi : Type := {
  URL_new : string -> option string -> option URL
}.

(** A model of the WHATWG URL parser that Node implements, used to run the
    sources on concrete inputs.  It covers ASCII inputs whose scheme is http,
    https, ftp, ws or wss (with an authority made of a host and an optional
    port), relative references against such a base, and URLs with an opaque
    path ([javascript:], [data:], [mailto:] ...).  Outside this fragment
    (credentials, percent-encoded hosts, IPv4 inside IPv6, [file:], non-special
    schemes followed by a slash, non-ASCII input) the model answers [None]. *)
Module Whatwg.

Import Js.

Fixpoint span (p : ascii -> bool) (s : string) : string * string :=
  match s with
  | String c r =>
      if p c then let (a, b) := span p r in (String c a, b) else (EmptyString, s)
  | EmptyString => (EmptyString, EmptyString)
  end.

Fixpoint filter (p : ascii -> bool) (s : string) : string :=
  match s with
  | String c r => if p c then String c (filter p r) else filter p r
  | EmptyString => EmptyString
  end.

Fixpoint forall_chars (p : ascii -> bool) (s : string) : bool :=
  match s with
  | String c r => (p c && forall_chars p r)%bool
  | EmptyString => true
  end.

Definition one_of (set : string) (c : ascii) : bool :=
  negb (forall_chars (fun d => negb (Ascii.eqb c d)) set).

Definition dquote : ascii := ascii_of_nat 34.

Definition is_c0_or_space (c : ascii) : bool := N.leb (code c) 32.
Definition is_tab_or_newline (c : ascii) : bool :=
  (N.eqb (code c) 9 || N.eqb (code c) 10 || N.eqb (code c) 13)%bool.
Definition is_ascii (c : ascii) : bool := N.ltb (code c) 128.

(** Leading and trailing C0 controls and spaces are stripped, then every tab
    and newline is removed. *)
Definition preprocess (s : string) : string :=
  let s1 := snd (span is_c0_or_space s) in
  let s2 := rev (snd (span is_c0_or_space (rev s1))) in
  filter (fun c => negb (is_tab_or_newline c)) s2.

Definition is_scheme_char (c : ascii) : bool :=
  (is_alpha c || is_digit c || one_of "+-." c)%bool.

Definition split_scheme (s : string) : option (string * string) :=
  match s with
  | String c _ =>
      if is_alpha c then
        match span is_scheme_char s with
        | (sch, String ":" rest) => Some (toLowerCase sch, rest)
        | _ => None
        end
      else None
  | EmptyString => None
  end.

Definition default_port (scheme : string) : option N :=
  if String.eqb scheme "http" then Some 80%N
  else if String.eqb scheme "https" then Some 443%N
  else if String.eqb scheme "ftp" then Some 21%N
  else if String.eqb scheme "ws" then Some 80%N
  else if String.eqb scheme "wss" then Some 443%N
  else None.

Definition is_special (scheme : string) : bool :=
  match default_port scheme with Some _ => true | None => false end.

(** Numbers *)

Definition digit_value (c : ascii) : option N :=
  if is_digit c then Some (code c - 48)%N
  else if between 97 102 c then Some (code c - 87)%N
  else if between 65 70 c then Some (code c - 55)%N
  else None.

Fixpoint parse_radix (radix : N) (s : string) (acc : N) : option N :=
  match s with
  | EmptyString => Some acc
  | String c r =>
      match digit_value c with
      | Some d => if N.ltb d radix then parse_radix radix r (acc * radix + d)%N else None
      | None => None
      end
  end.

Definition digit_char (d : N) : ascii :=
  if N.ltb d 10 then ascii_of_N (48 + d) else ascii_of_N (87 + d).

Fixpoint render_radix (fuel : nat) (radix n : N) (acc : string) : string :=
  match fuel with
  | O => acc
  | S k =>
      let acc' := String (digit_char (N.modulo n radix)) acc in
      if N.ltb n radix then acc' else render_radix k radix (N.div n radix) acc'
  end.

Definition decimal (n : N) : string := render_radix 20 10 n EmptyString.
Definition hexadecimal (n : N) : string := render_radix 20 16 n EmptyString.

(** The IPv4 number parser: [0x] introduces a hexadecimal part, a leading [0]
    an octal one. *)
Definition parse_ipv4_number (s : string) : option N :=
  match s with
  | EmptyString => None
  | String "0" (String x r) =>
      if (Ascii.eqb x "x" || Ascii.eqb x "X")%bool then parse_radix 16 r 0
      else parse_radix 8 (String x r) 0
  | _ => parse_radix 10 s 0
  end.

Fixpoint all_some {A : Type} (l : list (option A)) : option (list A) :=
  match l with
  | [] => Some []
  | Some a :: r => option_map (cons a) (all_some r)
  | None :: _ => None
  end.

Definition drop_last_empty (l : list string) : list string :=
  match List.rev l with
  | EmptyString :: (_ :: _) as r => List.rev r
  | _ => l
  end.

Fixpoint ipv4_value (nums : list N) (slots : nat) : option N :=
  match nums, slots with
  | [], _ => None
  | [n], S k => if N.ltb n (256 ^ N.of_nat (S k)) then Some n else None
  | n :: r, S k =>
      if N.ltb n 256 then
        option_map (fun v => (n * 256 ^ N.of_nat k + v)%N) (ipv4_value r k)
      else None
  | _, O => None
  end.

Definition serialize_ipv4 (v : N) : string :=
  decimal (N.div v 16777216) ++ "." ++ decimal (N.modulo (N.div v 65536) 256) ++ "."
  ++ decimal (N.modulo (N.div v 256) 256) ++ "." ++ decimal (N.modulo v 256).

Definition parse_ipv4 (host : string) : option string :=
  let parts := drop_last_empty (split_char "." host) in
  if Nat.ltb 4 (List.length parts) then None
  else
    match all_some (List.map parse_ipv4_number parts) with
    | Some nums => option_map serialize_ipv4 (ipv4_value nums 4)
    | None => None
    end.

(** The last label of the host is a number: the host is then an IPv4 address
    or a failure. *)
Definition ends_in_number (host : string) : bool :=
  match List.rev (drop_last_empty (split_char "." host)) with
  | last :: _ =>
      (negb (String.eqb last "") && forall_chars is_digit last
       || match last with
          | String "0" (String x r) =>
              (Ascii.eqb x "x" || Ascii.eqb x "X") && forall_chars
                (fun c => match digit_value c with Some _ => true | None => false end) r
          | _ => false
          end)%bool
  | [] => false
  end.

(** IPv6: eight 16-bit pieces, with at most one [::]. *)
Definition parse_piece (s : string) : option N :=
  match s with
  | EmptyString => None
  | _ => if Nat.leb (String.length s) 4 then parse_radix 16 s 0 else None
  end.

Definition parse_pieces (s : string) : option (list N) :=
  match s with
  | EmptyString => Some []
  | _ => all_some (List.map parse_piece (split_char ":" s))
  end.

(** Splits at the first [::]. *)
Fixpoint split_compress (s acc : string) : string * option string :=
  match s with
  | String ":" (String ":" r) => (rev acc, Some r)
  | String c r => split_compress r (String c acc)
  | EmptyString => (rev acc, None)
  end.

Definition parse_ipv6 (s : string) : option (list N) :=
  match split_compress s EmptyString with
  | (l, None) =>
      match parse_pieces l with
      | Some ps => if Nat.eqb (List.length ps) 8 then Some ps else None
      | None => None
      end
  | (l, Some r) =>
      match parse_pieces l, parse_pieces r with
      | Some pl, Some pr =>
          let n := List.length pl + List.length pr in
          if Nat.leb n 7 then Some (pl ++ List.repeat 0%N (8 - n) ++ pr)%list
          else None
      | _, _ => None
      end
  end.

(** Length of the run of zero pieces at the head of the list. *)
Fixpoint zero_run (l : list N) : nat :=
  match l with
  | 0%N :: r => S (zero_run r)
  | _ => O
  end.

(** Position and length of the first longest run of at least two zeros. *)
Fixpoint longest_run (l : list N) (pos : nat) (best : option (nat * nat))
  : option (nat * nat) :=
  match l with
  | [] => best
  | _ :: r =>
      let n := zero_run l in
      let best' :=
        if Nat.ltb 1 n then
          match best with
          | Some (_, m) => if Nat.ltb m n then Some (pos, n) else best
          | None => Some (pos, n)
          end
        else best in
      longest_run r (S pos) best'
  end.

Definition serialize_ipv6 (ps : list N) : string :=
  let hex l := String.concat ":" (List.map hexadecimal l) in
  match longest_run ps 0 None with
  | Some (pos, n) =>
      hex (List.firstn pos ps) ++ "::" ++ hex (List.skipn (pos + n) ps)
  | None => hex ps
  end.

Definition forbidden_domain_char (c : ascii) : bool :=
  (is_c0_or_space c || one_of (String dquote "#/:<>?@[\]^|%") c
   || N.eqb (code c) 127)%bool.

(** The host parser for the special schemes. *)
Definition parse_host (input : string) : option string :=
  match input with
  | EmptyString => None
  | String "[" r =>
      match rev r with
      | String "]" inner =>
          option_map (fun ps => "[" ++ serialize_ipv6 ps ++ "]") (parse_ipv6 (rev inner))
      | _ => None
      end
  | _ =>
      let domain := toLowerCase input in
      if negb (forall_chars is_ascii domain) then None
      else if negb (forall_chars (fun c => negb (forbidden_domain_char c)) domain) then None
      else if ends_in_number domain then parse_ipv4 domain
      else Some domain
  end.

(** Percent-encoding *)

Definition hex_upper (d : N) : ascii :=
  if N.ltb d 10 then ascii_of_N (48 + d) else ascii_of_N (55 + d).

Fixpoint percent_encode (set : ascii -> bool) (s : string) : string :=
  match s with
  | EmptyString => EmptyString
  | String c r =>
      if set c then
        String "%" (String (hex_upper (N.div (code c) 16))
                      (String (hex_upper (N.modulo (code c) 16)) (percent_encode set r)))
      else String c (percent_encode set r)
  end.

Definition c0_control_set (c : ascii) : bool :=
  (N.ltb (code c) 32 || N.ltb 126 (code c))%bool.
Definition fragment_set (c : ascii) : bool :=
  (c0_control_set c || one_of (String dquote " <>`") c)%bool.
Definition query_set (c : ascii) : bool :=
  (c0_control_set c || one_of (String dquote " #<>") c)%bool.
Definition special_query_set (c : ascii) : bool :=
  (query_set c || Ascii.eqb c "'")%bool.
Definition path_set (c : ascii) : bool :=
  (query_set c || one_of "?^`{}" c)%bool.

(** The parsed record of the standard. *)
Record record : Type := {
  r_scheme : string;
  r_host : option string;
  r_port : option N;
  r_path : list string;             (* the segments of a hierarchical path *)
  r_opaque : option string;         (* or an opaque path *)
  r_query : option string;
  r_fragment : option string
}.

(** Cuts at the first character in [set]; the separator is dropped. *)
Definition cut (set : string) (s : string) : string * option string :=
  match span (fun c => negb (one_of set c)) s with
  | (a, String _ b) => (a, Some b)
  | (a, EmptyString) => (a, None)
  end.

Definition is_single_dot (seg : string) : bool :=
  let l := toLowerCase seg in (String.eqb l "." || String.eqb l "%2e")%bool.

Definition is_double_dot (seg : string) : bool :=
  let l := toLowerCase seg in
  (String.eqb l ".." || String.eqb l ".%2e" || String.eqb l "%2e." ||
   String.eqb l "%2e%2e")%bool.

Definition shorten (path : list string) : list string := List.removelast path.

(** The path state, segment by segment; the separators are [/] and [\]. *)
Fixpoint path_segments (segs : list string) (path : list string) : list string :=
  match segs with
  | [] => path
  | seg :: rest =>
      let last := match rest with [] => true | _ => false end in
      let path' :=
        if is_double_dot seg then
          (if last then shorten path ++ [EmptyString] else shorten path)%list
        else if is_single_dot seg then
          (if last then path ++ [EmptyString] else path)%list
        else (path ++ [percent_encode path_set seg])%list in
      path_segments rest path'
  end.

Fixpoint split_slashes (s cur : string) : list string :=
  match s with
  | EmptyString => [rev cur]
  | String c r =>
      if one_of "/\" c then rev cur :: split_slashes r EmptyString
      else split_slashes r (String c cur)
  end.

Definition parse_path (input : string) (start : list string) : list string :=
  path_segments (split_slashes input EmptyString) start.

(** Path, query and fragment of a special URL, from the path onwards. *)
Definition parse_tail (scheme : string) (host : option string) (port : option N)
    (start : list string) (input : string) : record :=
  let (before_fragment, fragment) := cut "#" input in
  let (path, query) := cut "?" before_fragment in
  {| r_scheme := scheme; r_host := host; r_port := port;
     r_path := parse_path path start; r_opaque := None;
     r_query := option_map (percent_encode special_query_set) query;
     r_fragment := option_map (percent_encode fragment_set) fragment |}.

Definition parse_port (scheme : string) (s : string) : option (option N) :=
  match s with
  | EmptyString => Some None
  | _ =>
      if forall_chars is_digit s then
        match parse_radix 10 s 0 with
        | Some n =>
            if N.ltb 65535 n then None
            else if match default_port scheme with
                    | Some d => N.eqb d n
                    | None => false
                    end then Some None
            else Some (Some n)
        | None => None
        end
      else None
  end.

(** Host and port of an authority without credentials. *)
Definition split_host_port (auth : string) : string * option string :=
  match auth with
  | String "[" _ =>
      match span (fun c => negb (Ascii.eqb c "]")) auth with
      | (h, String "]" EmptyString) => (h ++ "]", None)
      | (h, String "]" (String ":" p)) => (h ++ "]", Some p)
      | _ => (auth, Some "x")
      end
  | _ => cut ":" auth
  end.

Definition drop_leading_slash (s : string) : string :=
  match s with
  | String c r => if one_of "/\" c then r else s
  | EmptyString => s
  end.

(** The authority state and what follows it. *)
Definition parse_authority (scheme : string) (input : string) : option record :=
  let (auth, rest) := span (fun c => negb (one_of "/\?#" c)) input in
  if one_of auth "@" then None
  else
    let (h, p) := split_host_port auth in
    match parse_host h, parse_port scheme (match p with Some x => x | None => "" end) with
    | Some host, Some port =>
        Some (parse_tail scheme (Some host) port [] (drop_leading_slash rest))
    | _, _ => None
    end.

Definition parse_opaque (scheme : string) (input : string) : record :=
  let (before_fragment, fragment) := cut "#" input in
  let (path, query) := cut "?" before_fragment in
  {| r_scheme := scheme; r_host := None; r_port := None; r_path := [];
     r_opaque := Some (percent_encode c0_control_set path);
     r_query := option_map (percent_encode query_set) query;
     r_fragment := option_map (percent_encode fragment_set) fragment |}.

(** The relative state, against a base with a special scheme. *)
Definition parse_relative (base : record) (input : string) : option record :=
  match input with
  | EmptyString =>
      Some {| r_scheme := r_scheme base; r_host := r_host base; r_port := r_port base;
              r_path := r_path base; r_opaque := None; r_query := r_query base;
              r_fragment := None |}
  | String c r =>
      if one_of "/\" c then
        match r with
        | String d r' =>
            if one_of "/\" d then
              parse_authority (r_scheme base) (snd (span (one_of "/\") r'))
            else Some (parse_tail (r_scheme base) (r_host base) (r_port base) [] r)
        | EmptyString =>
            Some (parse_tail (r_scheme base) (r_host base) (r_port base) [] r)
        end
      else if Ascii.eqb c "?" then
        let (query, fragment) := cut "#" r in
        Some {| r_scheme := r_scheme base; r_host := r_host base; r_port := r_port base;
                r_path := r_path base; r_opaque := None;
                r_query := Some (percent_encode special_query_set query);
                r_fragment := option_map (percent_encode fragment_set) fragment |}
      else if Ascii.eqb c "#" then
        Some {| r_scheme := r_scheme base; r_host := r_host base; r_port := r_port base;
                r_path := r_path base; r_opaque := None; r_query := r_query base;
                r_fragment := Some (percent_encode fragment_set r) |}
      else
        Some (parse_tail (r_scheme base) (r_host base) (r_port base)
                (shorten (r_path base)) input)
  end.

Definition parse (input : string) (base : option record) : option record :=
  let s := preprocess input in
  if negb (forall_chars is_ascii s) then None
  else
    match split_scheme s with
    | Some (scheme, rest) =>
        if is_special scheme then
          match base with
          | Some b =>
              if (String.eqb (r_scheme b) scheme && negb (String.prefix "//" rest)
                  && negb (String.prefix "\\" rest)
                  && negb (String.prefix "/\" rest)
                  && negb (String.prefix "\/" rest))%bool
              then
                match r_opaque b with
                | Some _ => None
                | None => parse_relative b rest
                end
              else parse_authority scheme (snd (span (one_of "/\") rest))
          | None => parse_authority scheme (snd (span (one_of "/\") rest))
          end
        else if String.eqb scheme "file" then None
        else
          match rest with
          | String "/" _ => None
          | _ => Some (parse_opaque scheme rest)
          end
    | None =>
        match base with
        | Some b =>
            match r_opaque b with
            | Some _ => None
            | None => parse_relative b s
            end
        | None => None
        end
    end.

Definition serialize_host_port (r : record) : string :=
  match r_host r with
  | Some h =>
      h ++ match r_port r with
           | Some p => ":" ++ decimal p
           | None => ""
           end
  | None => ""
  end.

Definition serialize_path (r : record) : string :=
  match r_opaque r with
  | Some p => p
  | None => String.concat "" (List.map (fun seg => "/" ++ seg) (r_path r))
  end.

Definition to_URL (r : record) : URL :=
  let authority :=
    match r_host r with
    | Some _ => "//" ++ serialize_host_port r
    | None => ""
    end in
  {| href := r_scheme r ++ ":" ++ authority ++ serialize_path r
             ++ match r_query r with Some q => "?" ++ q | None => "" end
             ++ match r_fragment r with Some f => "#" ++ f | None => "" end;
     protocol := r_scheme r ++ ":";
     hostname := match r_host r with Some h => h | None => "" end;
     pathname := serialize_path r;
     origin := if is_special (r_scheme r)
               then r_scheme r ++ "://" ++ serialize_host_port r
               else "null" |}.

Definition new_URL (input : string) (base : option string) : option URL :=
  match base with
  | None => option_map to_URL (parse input None)
  | Some b =>
      match parse b None with
      | Some rb => option_map to_URL (parse input (Some rb))
      | None => None
      end
  end.

End Whatwg.

#[export] Instance whatwg : UrlApi := {| URL_new := Whatwg.new_URL |}.

(* ====================================================================== *)
(** * lib/auth.ts *)
(* ====================================================================== *)

Module Auth.

(** [s.charCodeAt(i)]; [None] is [NaN], the answer outside the string. *)
Definition charCodeAt (s : string) (i : nat) : option N :=
  option_map Js.code (String.get i s).

(** The bitwise operators read [NaN] as 0. *)
Definition toInt (x : option N) : N :=
  match x with Some n => n | None => 0%N end.

(** [x || 0] on a number: [NaN] and 0 both give 0. *)
Definition or_zero (x : option N) : option N :=
  match x with Some n => Some n | None => Some 0%N end.

(** [i % n]; [NaN] when [n] is 0, and [charCodeAt(NaN)] reads index 0. *)
Definition index_mod (i n : nat) : nat :=
  match n with O => O | _ => Nat.modulo i n end.

(** [for (let i = 0; i < n; i++) result |= f(i)], from [result]. *)
Fixpoint or_loop (f : nat -> N) (i n : nat) (result : N) : N :=
  match n with
  | O => result
  | S k => or_loop f (S i) k (N.lor result (f i))
  end.

Definition constantTimeCompare (a b : string) : bool :=
  if negb (Nat.eqb (String.length a) (String.length b)) then
    let result :=
      or_loop (fun i => N.lxor (toInt (charCodeAt a i))
                          (toInt (or_zero (charCodeAt b (index_mod i (String.length b))))))
              0 (String.length a) 0%N in
    let _ := result in false
  else
    let result :=
      or_loop (fun i => N.lxor (toInt (charCodeAt a i)) (toInt (charCodeAt b i)))
              0 (String.length a) 0%N in
    N.eqb result 0.

Record AuthResult : Type := {
  authenticated : bool;
  error : option string
}.

(** [!providedKey]: a missing header and the empty string are falsy, an array
    never is. *)
Definition header_falsy (h : option HeaderValue) : bool :=
  match h with
  | None => true
  | Some (HString s) => negb (Js.truthy s)
  | Some (HArray _) => false
  end.

Definition validateAuth (cfg : Config) (req : VercelRequest) : Completion AuthResult :=
  if negb (Js.opt_truthy (API_KEY cfg)) then
    Normal {| authenticated := true; error := None |}
  else
    let secret := match API_KEY cfg with Some k => k | None => "" end in
    let providedKey := assoc "x-api-key" (req_headers req) in
    if header_falsy providedKey then
      Normal {| authenticated := false; error := Some "Invalid or missing API key" |}
    else
      (* Array.isArray(providedKey) ? providedKey[0] : providedKey *)
      let keyString :=
        match providedKey with
        | Some (HString s) => Some s
        | Some (HArray l) => List.hd_error l
        | None => None
        end in
      match keyString with
      | None => Throw (TypeError "Cannot read properties of undefined (reading 'length')")
      | Some k =>
          if negb (constantTimeCompare k secret) then
            Normal {| authenticated := false; error := Some "Invalid or missing API key" |}
          else Normal {| authenticated := true; error := None |}
      end.


Definition accepted (r : Completion AuthResult) : bool :=
  match r with
  | Normal a => authenticated a
  | Throw _ => false
  end.

End Auth.

(* ====================================================================== *)
(** * lib/config.ts *)
(* ====================================================================== *)

Module ErrorCodes.
Definition INVALID_URL : string := "INVALID_URL".
Definition BLOCKED_URL : string := "BLOCKED_URL".
Definition FETCH_FAILED : string := "FETCH_FAILED".
Definition TIMEOUT : string := "TIMEOUT".
Definition CONTENT_TOO_LARGE : string := "CONTENT_TOO_LARGE".
Definition PARSE_FAILED : string := "PARSE_FAILED".
Definition UNSUPPORTED : string := "UNSUPPORTED".
Definition DISCOVERY_FAILED : string := "DISCOVERY_FAILED".
End ErrorCodes.

(** Size limit in bytes. *)
Definition MAX_HTML_SIZE (cfg : Config) : N := (MAX_HTML_SIZE_MB cfg * 1024 * 1024)%N.

Definition VERSION : string := "2.0.0".
Definition PROVIDER : string := "vercel-serverless".

(** Common feed paths to probe when no feeds are found in the HTML. *)
Definition COMMON_FEED_PATHS : list string := [
  "/feed";
  "/rss";
  "/atom.xml";
  "/feed.xml";
  "/rss.xml";
  "/index.xml";
  "/feeds/posts/default";
  "/blog/feed";
  "/feed/rss";
  "/feed/atom"
].

(* ====================================================================== *)
(** * lib/ssrf.ts *)
(* ====================================================================== *)

Module Ssrf.

Import Re.

Definition digit : regex := Sym CDigit.
Definition dot : regex := Chr ".".

(** Private IPv4 ranges; every pattern is anchored at the start, [/^.../]. *)
Definition PRIVATE_IPV4_RANGES : list regex := [
  Lit "10.";                                            (* /^10\./ *)
  Seq (Lit "172.")                                      (* /^172\.(1[6-9]|2[0-9]|3[0-1])\./ *)
      (Seq (Alt (Seq (Chr "1") (Sym (CRange "6" "9")))
                (Alt (Seq (Chr "2") (Sym (CRange "0" "9")))
                     (Seq (Chr "3") (Sym (CRange "0" "1")))))
           dot);
  Lit "192.168.";                                       (* /^192\.168\./ *)
  Lit "127.";                                           (* /^127\./ *)
  Lit "169.254.";                                       (* /^169\.254\./ *)
  Lit "0."                                              (* /^0\./ *)
].

Definition BLOCKED_HOSTNAMES : list string := [
  "localhost";
  "metadata.google.internal";
  "169.254.169.254";
  "metadata.azure.com";
  "[::1]"
].

(** A literal under the [i] flag: each letter in either case. *)
Definition upper_char (c : ascii) : ascii :=
  if Js.is_lower c then ascii_of_N (Js.code c - 32) else c.

Fixpoint LitI (s : string) : regex :=
  match s with
  | EmptyString => Eps
  | String c r =>
      Seq (Sym (CUnion (CChar (Js.lower_char c)) (CChar (upper_char c)))) (LitI r)
  end.

(** Blocked hostname patterns; every pattern is anchored at the end, [/...$/i]. *)
Definition BLOCKED_HOSTNAME_PATTERNS : list regex := [
  LitI ".local";
  LitI ".internal";
  LitI ".localhost"
].

Record UrlError : Type := {
  code : string;
  message : string
}.

Record UrlValidationResult : Type := {
  valid : bool;
  error : option UrlError;
  url : option URL
}.

Definition isPrivateIPv4 (ip : string) : bool :=
  existsb (fun pattern => test_prefix pattern ip) PRIVATE_IPV4_RANGES.

Definition isPrivateIPv6 (ip : string) : bool :=
  let normalized := Js.toLowerCase ip in
  if (String.eqb normalized "::1" || String.eqb normalized "[::1]")%bool then true
  else if (Js.startsWith normalized "fc" || Js.startsWith normalized "fd")%bool then true
  else if Js.startsWith normalized "fe80" then true
  else false.

Definition isBlockedHostname (hostname : string) : bool :=
  let lower := Js.toLowerCase hostname in
  if existsb (String.eqb lower) BLOCKED_HOSTNAMES then true
  else if existsb (fun pattern => test_suffix pattern lower) BLOCKED_HOSTNAME_PATTERNS
  then true
  else false.

Definition looksLikeIP (hostname : string) : bool :=
  (* /^\d{1,3}\.\d{1,3}\.\d{1,3}\.\d{1,3}$/ *)
  if test_whole
       (Seq (Between 1 3 digit) (Seq dot (Seq (Between 1 3 digit) (Seq dot
         (Seq (Between 1 3 digit) (Seq dot (Between 1 3 digit)))))))
       hostname
  then true
  else if (Js.includes hostname ":" || Js.startsWith hostname "[")%bool then true
  else false.

(** [hostname.replace(/^\[|\]$/g, '')]: an opening bracket at the start and a
    closing bracket at the end are removed. *)
Definition removeBrackets (hostname : string) : string :=
  let s := match hostname with
           | String "[" r => r
           | _ => hostname
           end in
  match Js.rev s with
  | String "]" r => Js.rev r
  | _ => s
  end.

Definition invalid (c m : string) : UrlValidationResult :=
  {| valid := false; error := Some {| code := c; message := m |}; url := None |}.

Definition validateUrl `{UrlApi} (urlString : string) : UrlValidationResult :=
  match URL_new urlString None with
  | None => invalid ErrorCodes.INVALID_URL "URL is malformed"
  | Some u =>
      if (negb (String.eqb (protocol u) "http:") &&
          negb (String.eqb (protocol u) "https:"))%bool
      then invalid ErrorCodes.INVALID_URL "URL must use HTTP or HTTPS protocol"
      else
        let hostname := Js.toLowerCase (hostname u) in
        if isBlockedHostname hostname
        then invalid ErrorCodes.BLOCKED_URL "URL points to a blocked host"
        else
          let ok := {| valid := true; error := None; url := Some u |} in
          if looksLikeIP hostname then
            let cleanIP := removeBrackets hostname in
            if isPrivateIPv4 cleanIP
            then invalid ErrorCodes.BLOCKED_URL "URL points to a private IP address"
            else if isPrivateIPv6 cleanIP
            then invalid ErrorCodes.BLOCKED_URL "URL points to a private IPv6 address"
            else ok
          else ok
  end.

(** The error code of a validation result. *)
Definition error_code (r : UrlValidationResult) : option string :=
  option_map code (error r).

(** The dotted-decimal text of an IPv4 address, as [url.hostname] holds it. *)
Definition dotted (a b c d : N) : string :=
  Whatwg.decimal a ++ "." ++ Whatwg.decimal b ++ "." ++
  Whatwg.decimal c ++ "." ++ Whatwg.decimal d.

(** The ranges the spec names, on the four octets. *)
Definition in_private_ranges (a b : N) : bool :=
  (N.eqb a 10                                       (* 10.0.0.0/8 *)
   || (N.eqb a 172 && N.leb 16 b && N.leb b 31)     (* 172.16.0.0/12 *)
   || (N.eqb a 192 && N.eqb b 168)                  (* 192.168.0.0/16 *)
   || N.eqb a 127                                   (* 127.0.0.0/8 *)
   || (N.eqb a 169 && N.eqb b 254)                  (* 169.254.0.0/16 *)
   || N.eqb a 0)%bool.                              (* 0.0.0.0/8 *)

Definition is_http (u : URL) : bool :=
  (String.eqb (protocol u) "http:" || String.eqb (protocol u) "https:")%bool.

(** The text of an IPv6 address, as [url.hostname] holds it: the eight pieces in
    the compressed form of the URL standard, between brackets. *)
Definition bracketed (pieces : list N) : string :=
  "[" ++ Whatwg.serialize_ipv6 pieces ++ "]".

Definition is_loopback6 (pieces : list N) : bool :=
  match pieces with
  | [0; 0; 0; 0; 0; 0; 0; 1]%N => true
  | _ => false
  end.

(** fc00::/7: the first seven bits are 1111110. *)
Definition in_unique_local (pieces : list N) : bool :=
  match pieces with
  | p :: _ => N.eqb (N.shiftr p 9) 126
  | [] => false
  end.

(** fe80::/10: the first ten bits are 1111111010. *)
Definition in_link_local (pieces : list N) : bool :=
  match pieces with
  | p :: _ => N.eqb (N.shiftr p 6) 1018
  | [] => false
  end.

(** fe80::/16, the part of the link-local range whose text starts with fe80. *)
Definition starts_fe80 (pieces : list N) : bool :=
  match pieces with
  | p :: _ => N.eqb p 65152
  | [] => false
  end.

Definition well_formed6 (pieces : list N) : bool :=
  (Nat.eqb (List.length pieces) 8 && forallb (fun p => N.ltb p 65536) pieces)%bool.

End Ssrf.

(** Auxiliary definitions for the proofs about IPv4 literals. *)

Module SsrfAux.

Import Re Ssrf.

(** The 256 values of an octet, for proofs by enumeration. *)
Definition octets : list N := List.map N.of_nat (List.seq 0 256).

Definition head (s : string) : option ascii :=
  match s with
  | String c _ => Some c
  | EmptyString => None
  end.

Definition head_is (p : ascii -> bool) (s : string) : bool :=
  match head s with Some c => p c | None => false end.

Definition ip_char (c : ascii) : bool := (Js.is_digit c || Ascii.eqb c ".")%bool.

(** What a pattern anchored at the start answers once the beginning [p] of the
    string is known, when [p] is enough to tell. *)
Definition decide_prefix (r : regex) (p : string) : option bool :=
  let r' := derivs p (Seq r Top) in
  if always r' then Some true else if never r' then Some false else None.

Definition two_octets (x y : N) : string :=
  Whatwg.decimal x ++ "." ++ Whatwg.decimal y ++ ".".

(** What the whole list of ranges answers once the beginning [p] of the
    address is known, when [p] is enough to tell for every pattern. *)
Definition decide_ranges (p : string) : option bool :=
  if forallb (fun r => match decide_prefix r p with
                       | Some _ => true
                       | None => false
                       end) PRIVATE_IPV4_RANGES
  then Some (existsb (fun r => match decide_prefix r p with
                               | Some v => v
                               | None => false
                               end) PRIVATE_IPV4_RANGES)
  else None.

(** For the first octet [x]: either it decides the patterns alone, or every
    second octet does; and the answer is the one of the ranges. *)
Definition ranges_decided (x : N) : bool :=
  match decide_ranges (Whatwg.decimal x ++ ".") with
  | Some v => forallb (fun y => Bool.eqb v (in_private_ranges x y)) octets
  | None =>
      forallb (fun y => match decide_ranges (two_octets x y) with
                        | Some v => Bool.eqb v (in_private_ranges x y)
                        | None => false
                        end) octets
  end.

(** The first pieces of the addresses whose text starts with fc, fd or fe80:
    fc00 to fdff, and fe80. *)
Definition blockedFirstPieces : list N :=
  (List.map (fun n => N.of_nat n + 64512)%N (List.seq 0 512) ++ [65152%N])%list.

(** What [isPrivateIPv6] tests, on a beginning of the lower-cased text. *)
Definition startsPrivate6 (s : string) : bool :=
  (String.prefix "fc" s || String.prefix "fd" s || String.prefix "fe80" s)%bool.

End SsrfAux.

(* ====================================================================== *)
(** * lib/sanitize.ts: resolveUrl *)
(* ====================================================================== *)

(** Resolves a URL against a base; the original comes back when it is empty,
    absolute already, a data URI, or when resolution fails. *)
Definition resolveUrl `{UrlApi} (url baseUrl : string) : string :=
  if negb (Js.truthy url) then url
  else if (Js.startsWith url "http://" || Js.startsWith url "https://")%bool then url
  else if Js.startsWith url "data:" then url
  else
    match URL_new url (Some baseUrl) with
    | Some u => href u
    | None => url
    end.

(* ====================================================================== *)
(** * lib/sanitize.ts *)
(* ====================================================================== *)

Module Sanitize.

(** The nodes of a parsed document.  An element has its tag name, its
    attributes in order (each name once) and its children. *)
#[warnings="-register-all"]
Inductive Node : Type :=
| TextNode (data : string)
| CommentNode (data : string)
| ElementNode (tagName : string) (attributes : list (string * string))
              (childNodes : list Node).

(** The DOM library: [parseHTML(text)] followed by [document.body], as the
    children of the body, and [innerHTML], the serialisation of a list of
    nodes.  The sanitizer is embedded over any implementation of them. *)
Class DomApi : Type := {
  parseHTML_body : string -> list Node;
  innerHTML : list Node -> string
}.

(** Allowed tags for sanitization. *)
Definition ALLOWED_TAGS : list string := [
  "h1"; "h2"; "h3"; "h4"; "h5"; "h6";
  "p"; "br"; "ul"; "ol"; "li"; "blockquote"; "pre"; "code";
  "em"; "strong"; "b"; "i"; "u"; "s"; "mark";
  "a"; "img"; "figure"; "figcaption";
  "table"; "thead"; "tbody"; "tr"; "th"; "td";
  "hr"; "sup"; "sub"; "details"; "summary";
  "div"; "span"; "article"; "section"; "aside"; "header"; "footer"; "main";
  "time"; "abbr"; "cite"; "dfn"; "kbd"; "samp"; "var"; "small";
  "dl"; "dt"; "dd"; "caption"; "col"; "colgroup";
  "picture"; "source"; "video"; "audio"
].

(** Dangerous tags that are removed completely, content and all. *)
Definition DANGEROUS_TAGS : list string := [
  "script"; "style"; "link"; "meta"; "iframe"; "embed"; "object"; "form";
  "input"; "button"; "select"; "textarea"; "noscript"; "template"; "svg"
].

(** Attributes allowed per tag. *)
Definition ALLOWED_ATTRS : list (string * list string) := [
  ("a", ["href"]);
  ("img", ["src"; "alt"; "title"]);
  ("source", ["src"; "srcset"; "type"; "media"]);
  ("video", ["src"; "poster"; "width"; "height"]);
  ("audio", ["src"]);
  ("time", ["datetime"]);
  ("abbr", ["title"]);
  ("dfn", ["title"]);
  ("td", ["colspan"; "rowspan"]);
  ("th", ["colspan"; "rowspan"; "scope"]);
  ("col", ["span"]);
  ("colgroup", ["span"])
].

(** [set.has(x)] and [list.includes(x)] *)
Definition has (set : list string) (x : string) : bool :=
  existsb (String.eqb x) set.

(** [ALLOWED_ATTRS[tagName] || []] *)
Definition allowedAttrsOf (tagName : string) : list string :=
  match assoc tagName ALLOWED_ATTRS with
  | Some l => l
  | None => []
  end.

Definition getAttribute (attrs : list (string * string)) (name : string)
  : option string :=
  assoc name attrs.

Definition removeAttribute (attrs : list (string * string)) (name : string)
  : list (string * string) :=
  List.filter (fun a => negb (String.eqb (fst a) name)) attrs.

Fixpoint setAttribute (attrs : list (string * string)) (name value : string)
  : list (string * string) :=
  match attrs with
  | [] => [(name, value)]
  | (n, v) :: r =>
      if String.eqb n name then (n, value) :: r
      else (n, v) :: setAttribute r name value
  end.

(** The loop that removes all non-allowed attributes: it runs over a copy of
    the attribute list and removes by name. *)
Definition stripAttributes (allowedAttrs : list string) (attrs : list (string * string))
  : list (string * string) :=
  List.fold_left
    (fun el attr => if negb (has allowedAttrs (fst attr))
                    then removeAttribute el (fst attr)
                    else el)
    attrs attrs.

(** [try { el.setAttribute(name, new URL(value, baseUrl).href) } catch {}] *)
Definition resolveInto `{UrlApi} (attrs : list (string * string))
    (name value baseUrl : string) : list (string * string) :=
  match URL_new value (Some baseUrl) with
  | Some u => setAttribute attrs name (href u)
  | None => attrs
  end.

(** The three schemes an anchor must not keep. *)
Definition isScriptScheme (hrefLower : string) : bool :=
  (Js.startsWith hrefLower "javascript:" ||
   Js.startsWith hrefLower "data:" ||
   Js.startsWith hrefLower "vbscript:")%bool.

(** Validates the href of an anchor. *)
Definition sanitizeAnchor `{UrlApi} (baseUrl : string) (attrs : list (string * string))
  : list (string * string) :=
  match getAttribute attrs "href" with
  | Some href =>
      if Js.truthy href then
        let hrefLower := Js.trim (Js.toLowerCase href) in
        if isScriptScheme hrefLower then removeAttribute attrs "href"
        else if (negb (Js.startsWith href "http://") &&
                 negb (Js.startsWith href "https://") &&
                 negb (Js.startsWith href "mailto:") &&
                 negb (Js.startsWith href "#"))%bool
        then resolveInto attrs "href" href baseUrl
        else attrs
      else attrs
  | None => attrs
  end.

(** Resolves a relative image URL; data URIs are skipped. *)
Definition sanitizeImg `{UrlApi} (baseUrl : string) (attrs : list (string * string))
  : list (string * string) :=
  match getAttribute attrs "src" with
  | Some src =>
      if Js.truthy src then
        let srcLower := Js.trim (Js.toLowerCase src) in
        if negb (Js.startsWith srcLower "data:") then
          if (negb (Js.startsWith src "http://") &&
              negb (Js.startsWith src "https://"))%bool
          then resolveInto attrs "src" src baseUrl
          else attrs
        else attrs
      else attrs
  | None => attrs
  end.

(** [value && !http && !https && !data] then resolve, as for [src] on a source
    element and [poster] on a video. *)
Definition resolveAttribute `{UrlApi} (baseUrl name : string)
    (attrs : list (string * string)) : list (string * string) :=
  match getAttribute attrs name with
  | Some value =>
      if (Js.truthy value &&
          negb (Js.startsWith value "http://") &&
          negb (Js.startsWith value "https://") &&
          negb (Js.startsWith value "data:"))%bool
      then resolveInto attrs name value baseUrl
      else attrs
  | None => attrs
  end.

(** One entry of a srcset: its first token is resolved. *)
Definition resolveEntry `{UrlApi} (baseUrl entry : string) : string :=
  let parts := Js.split_ws (Js.trim entry) in
  let parts' :=
    match parts with
    | url :: rest =>
        if (Js.truthy url &&
            negb (Js.startsWith url "http://") &&
            negb (Js.startsWith url "https://") &&
            negb (Js.startsWith url "data:"))%bool
        then
          match URL_new url (Some baseUrl) with
          | Some u => href u :: rest
          | None => parts
          end
        else parts
    | [] => parts
    end in
  Js.join " " parts'.

(** Resolves the relative URLs of a srcset attribute. *)
Definition resolveSrcset `{UrlApi} (srcset baseUrl : string) : string :=
  Js.join ", " (List.map (resolveEntry baseUrl) (Js.split_char "," srcset)).

Definition sanitizeSource `{UrlApi} (baseUrl : string) (attrs : list (string * string))
  : list (string * string) :=
  let attrs1 := resolveAttribute baseUrl "src" attrs in
  match getAttribute attrs1 "srcset" with
  | Some srcset =>
      if Js.truthy srcset
      then setAttribute attrs1 "srcset" (resolveSrcset srcset baseUrl)
      else attrs1
  | None => attrs1
  end.

(** What the loop does to the attributes of an element with an allowed tag. *)
Definition sanitizeAttributes `{UrlApi} (baseUrl tagName : string)
    (attrs : list (string * string)) : list (string * string) :=
  let attrs0 := stripAttributes (allowedAttrsOf tagName) attrs in
  let attrs1 := if String.eqb tagName "a" then sanitizeAnchor baseUrl attrs0 else attrs0 in
  let attrs2 := if String.eqb tagName "img" then sanitizeImg baseUrl attrs1 else attrs1 in
  let attrs3 := if String.eqb tagName "source" then sanitizeSource baseUrl attrs2 else attrs2 in
  if String.eqb tagName "video" then resolveAttribute baseUrl "poster" attrs3 else attrs3.

(** html, head and body are part of the document structure and are skipped. *)
Definition isStructure (tagName : string) : bool :=
  (String.eqb tagName "html" || String.eqb tagName "head" ||
   String.eqb tagName "body")%bool.

(** The two passes over the document, on one node: what takes its place.  An
    element with a dangerous tag goes away with its content; the others are
    visited in document order, each once, children after their parent: an
    element of the document structure is left alone, an element with an
    unknown tag is replaced by its children, an element with an allowed tag
    keeps its allowed attributes. *)
Fixpoint sanitizeNode `{UrlApi} (baseUrl : string) (node : Node) : list Node :=
  match node with
  | TextNode _ => [node]
  | CommentNode _ => [node]
  | ElementNode tag attrs children =>
      let tagName := Js.toLowerCase tag in
      if has DANGEROUS_TAGS tagName then []
      else
        let children' := List.flat_map (sanitizeNode baseUrl) children in
        if isStructure tagName then [ElementNode tag attrs children']
        else if negb (has ALLOWED_TAGS tagName) then children'
        else [ElementNode tag (sanitizeAttributes baseUrl tagName attrs) children']
  end.

Definition sanitizeNodes `{UrlApi} (baseUrl : string) (nodes : list Node) : list Node :=
  List.flat_map (sanitizeNode baseUrl) nodes.

(** The tree [sanitizeHtml] serialises. *)
Definition sanitizeTree `{UrlApi} `{DomApi} (html baseUrl : string) : list Node :=
  sanitizeNodes baseUrl
    (parseHTML_body ("<!DOCTYPE html><html><body>" ++ html ++ "</body></html>")).


(** Sanitizes HTML from Readability output. *)
Definition sanitizeHtml `{UrlApi} `{DomApi} (html baseUrl : string) : string :=
  innerHTML (sanitizeTree html baseUrl).

(** The elements of a forest, in document order: each with its tag name and
    its attributes. *)
Fixpoint elementsOf (node : Node) : list (string * list (string * string)) :=
  match node with
  | TextNode _ => []
  | CommentNode _ => []
  | ElementNode tag attrs children =>
      (tag, attrs) :: List.flat_map elementsOf children
  end.

Definition elements (nodes : list Node) : list (string * list (string * string)) :=
  List.flat_map elementsOf nodes.

(** The schemes an anchor of the output must not have. *)
Definition FORBIDDEN_SCHEMES : list string := ["javascript:"; "data:"; "vbscript:"].

(** The text of an href starts with one of them, once lower-cased and without
    the white space around it. *)
Definition hasForbiddenScheme (href : string) : bool :=
  existsb (fun scheme => String.prefix scheme (Js.trim (Js.toLowerCase href)))
          FORBIDDEN_SCHEMES.


(** The document text [sanitizeHtml] hands to the parser. *)
Definition wrap (html : string) : string :=
  "<!DOCTYPE html><html><body>" ++ html ++ "</body></html>".


(** Where an element of the output comes from: it is an element of the
    document structure, left as it was, or an element with an allowed tag
    whose attributes went through [sanitizeAttributes]. *)
Definition comesFrom `{UrlApi} (baseUrl : string) (source : list (string * list (string * string)))
    (tag : string) (attrs' : list (string * string)) : Prop :=
  has DANGEROUS_TAGS (Js.toLowerCase tag) = false /\
  ((isStructure (Js.toLowerCase tag) = true /\ In (tag, attrs') source) \/
   (isStructure (Js.toLowerCase tag) = false /\
    has ALLOWED_TAGS (Js.toLowerCase tag) = true /\
    exists attrs, In (tag, attrs) source /\
                  attrs' = sanitizeAttributes baseUrl (Js.toLowerCase tag) attrs)).
End Sanitize.

(** A model of the DOM library on simple markup, used to run the sanitizer
    on concrete fragments: tags with quoted or bare attribute values, text,
    comments, the entities of the five special characters, void elements.  An
    end tag closes the open element of its name; one that matches no open
    element is dropped. *)
Module Html.

Import Js Sanitize.

Inductive Token : Type :=
| TStart (name : string) (attrs : list (string * string)) (selfClosing : bool)
| TEnd (name : string)
| TText (data : string)
| TComment (data : string).

Definition q : string := String Whatwg.dquote "".

(** Entities: [&amp;], [&lt;], [&gt;], [&quot;] and [&#39;]; [skip] counts the
    characters of an entity still to pass over. *)
Fixpoint decodeFrom (skip : nat) (s : string) : string :=
  match s with
  | EmptyString => EmptyString
  | String c r =>
      match skip with
      | S k => decodeFrom k r
      | O =>
          if String.prefix "&amp;" s then String "&" (decodeFrom 4 r)
          else if String.prefix "&lt;" s then String "<" (decodeFrom 3 r)
          else if String.prefix "&gt;" s then String ">" (decodeFrom 3 r)
          else if String.prefix "&quot;" s then String Whatwg.dquote (decodeFrom 5 r)
          else if String.prefix "&#39;" s then String "'" (decodeFrom 4 r)
          else String c (decodeFrom 0 r)
      end
  end.

Definition decode (s : string) : string := decodeFrom 0 s.

Fixpoint escape (quotes : bool) (s : string) : string :=
  match s with
  | EmptyString => EmptyString
  | String c r =>
      (if Ascii.eqb c "&" then "&amp;"
       else if (negb quotes && Ascii.eqb c "<")%bool then "&lt;"
       else if (negb quotes && Ascii.eqb c ">")%bool then "&gt;"
       else if (quotes && Ascii.eqb c Whatwg.dquote)%bool then "&quot;"
       else String c "") ++ escape quotes r
  end.

Definition tail (s : string) : string :=
  match s with
  | String _ r => r
  | EmptyString => EmptyString
  end.

(** Cuts at the first occurrence of [stop]; what follows it is the rest. *)
Fixpoint until (stop s acc : string) : string * string :=
  if String.prefix stop s then (rev acc, substring (String.length stop) (String.length s) s)
  else
    match s with
    | String c r => until stop r (String c acc)
    | EmptyString => (rev acc, EmptyString)
    end.

(** White space of HTML: TAB, LF, FF, CR and SPACE. *)
Definition isHtmlSpace (c : ascii) : bool :=
  (N.eqb (code c) 9 || N.eqb (code c) 10 || N.eqb (code c) 12 ||
   N.eqb (code c) 13 || N.eqb (code c) 32)%bool.

Definition skipSpaces (s : string) : string := snd (Whatwg.span isHtmlSpace s).

Definition isNameChar (c : ascii) : bool :=
  negb (isHtmlSpace c || Whatwg.one_of "=>/" c)%bool.

(** The attributes of a start tag, up to its closing [>]. *)
Fixpoint attributesFrom (fuel : nat) (s : string)
  : list (string * string) * bool * string :=
  match fuel with
  | O => ([], false, EmptyString)
  | S fuel' =>
      match skipSpaces s with
      | EmptyString => ([], false, EmptyString)
      | String ">" r => ([], false, r)
      | String "/" r =>
          match skipSpaces r with
          | String ">" r' => ([], true, r')
          | other => attributesFrom fuel' other
          end
      | s1 =>
          let (name, r1) := Whatwg.span isNameChar s1 in
          let '(value, rest) :=
            match skipSpaces r1 with
            | String "=" r3 =>
                match skipSpaces r3 with
                | String "'" r5 => until "'" r5 EmptyString
                | String c r5 =>
                    if Ascii.eqb c Whatwg.dquote then until q r5 EmptyString
                    else Whatwg.span (fun x => negb (isHtmlSpace x || Ascii.eqb x ">")%bool)
                           (String c r5)
                | EmptyString => (EmptyString, EmptyString)
                end
            | r2 => (EmptyString, r2)
            end in
          match name with
          | EmptyString => ([], false, tail rest)
          | _ =>
              let '(attrs, selfClosing, rest') := attributesFrom fuel' rest in
              ((toLowerCase name, decode value) :: attrs, selfClosing, rest')
          end
      end
  end.

Fixpoint tokenize (fuel : nat) (s : string) : list Token :=
  match fuel with
  | O => []
  | S fuel' =>
      match s with
      | EmptyString => []
      | String "<" r =>
          if String.prefix "!--" r then
            let (data, rest) := until "-->" (substring 3 (String.length r) r) EmptyString in
            TComment data :: tokenize fuel' rest
          else if String.prefix "!" r then
            tokenize fuel' (snd (until ">" r EmptyString))
          else if String.prefix "/" r then
            let (name, rest) := until ">" (tail r) EmptyString in
            TEnd (toLowerCase (fst (Whatwg.span isNameChar name))) :: tokenize fuel' rest
          else if match r with String c _ => is_alpha c | EmptyString => false end then
            let (name, r1) := Whatwg.span isNameChar r in
            let '(attrs, selfClosing, rest) := attributesFrom (String.length r1 + 1) r1 in
            TStart (toLowerCase name) attrs selfClosing :: tokenize fuel' rest
          else TText "<" :: tokenize fuel' r
      | _ =>
          let (data, rest) := Whatwg.span (fun c => negb (Ascii.eqb c "<")) s in
          TText (decode data) :: tokenize fuel' rest
      end
  end.

Definition VOID_ELEMENTS : list string := [
  "area"; "base"; "br"; "col"; "embed"; "hr"; "img"; "input"; "link"; "meta";
  "source"; "track"; "wbr"
].

(** The siblings that start at the head of the token list, and the tokens
    left when an end tag stops them. *)
Fixpoint siblings (fuel : nat) (tokens : list Token) : list Node * list Token :=
  match fuel with
  | O => ([], [])
  | S fuel' =>
      match tokens with
      | [] => ([], [])
      | TText data :: rest =>
          let (nodes, remaining) := siblings fuel' rest in (TextNode data :: nodes, remaining)
      | TComment data :: rest =>
          let (nodes, remaining) := siblings fuel' rest in (CommentNode data :: nodes, remaining)
      | TEnd _ :: _ => ([], tokens)
      | TStart name attrs selfClosing :: rest =>
          if (selfClosing || has VOID_ELEMENTS name)%bool then
            let (nodes, remaining) := siblings fuel' rest in
            (ElementNode name attrs [] :: nodes, remaining)
          else
            let (children, afterChildren) := siblings fuel' rest in
            let afterEnd :=
              match afterChildren with
              | TEnd closing :: remaining =>
                  if String.eqb closing name then remaining else afterChildren
              | _ => afterChildren
              end in
            let (nodes, remaining) := siblings fuel' afterEnd in
            (ElementNode name attrs children :: nodes, remaining)
      end
  end.

(** The whole token list: an end tag without an open element is dropped. *)
Fixpoint forest (fuel : nat) (tokens : list Token) : list Node :=
  match fuel with
  | O => []
  | S fuel' =>
      match siblings (List.length tokens + 1) tokens with
      | (nodes, TEnd _ :: remaining) => (nodes ++ forest fuel' remaining)%list
      | (nodes, _) => nodes
      end
  end.

Definition parse (text : string) : list Node :=
  let tokens := tokenize (String.length text + 1) text in
  forest (List.length tokens + 1) tokens.

Fixpoint firstElement (name : string) (nodes : list Node) : option (list Node) :=
  match nodes with
  | [] => None
  | ElementNode tag _ children :: rest =>
      if String.eqb tag name then Some children else firstElement name rest
  | _ :: rest => firstElement name rest
  end.

(** [parseHTML(text).document.body] *)
Definition body (text : string) : list Node :=
  match firstElement "html" (parse text) with
  | Some inHtml =>
      match firstElement "body" inHtml with
      | Some children => children
      | None => []
      end
  | None => []
  end.

Fixpoint serializeNode (node : Node) : string :=
  match node with
  | TextNode data => escape false data
  | CommentNode data => "<!--" ++ data ++ "-->"
  | ElementNode tag attrs children =>
      "<" ++ tag
      ++ String.concat ""
           (List.map (fun a => " " ++ fst a ++ "=" ++ q ++ escape true (snd a) ++ q) attrs)
      ++ ">"
      ++ (if has VOID_ELEMENTS tag then ""
          else String.concat "" (List.map serializeNode children) ++ "</" ++ tag ++ ">")
  end.

Definition serialize (nodes : list Node) : string :=
  String.concat "" (List.map serializeNode nodes).

End Html.

#[export] Instance html_model : Sanitize.DomApi :=
  {| Sanitize.parseHTML_body := Html.body; Sanitize.innerHTML := Html.serialize |}.

(* ====================================================================== *)
(** * lib/cors.ts *)
(* ====================================================================== *)

Module Cors.

(** [process.env.ALLOWED_ORIGINS || '*'] *)
Definition ALLOWED_ORIGINS (env : Environment) : string :=
  Js.opt_or (ALLOWED_ORIGINS_env env) "*".

Definition getCorsHeaders (env : Environment) : list (string * string) := [
  ("Access-Control-Allow-Origin", ALLOWED_ORIGINS env);
  ("Access-Control-Allow-Methods", "GET, POST, OPTIONS");
  ("Access-Control-Allow-Headers", "Content-Type, X-API-Key");
  ("Access-Control-Max-Age", "86400")
].

(** The response object of the platform, as the handlers use it: the headers
    set so far, the status code, and what has been sent (nothing yet, an
    empty body, or a JSON body). *)
Record VercelResponse (B : Type) : Type := {
  res_headers : list (string * string);
  res_statusCode : N;
  res_sent : option (option B)
}.

Arguments res_headers {B} _.
Arguments res_statusCode {B} _.
Arguments res_sent {B} _.

(** Header names are compared without regard to case. *)
Definition sameName (a b : string) : bool :=
  String.eqb (Js.toLowerCase a) (Js.toLowerCase b).

Fixpoint putHeader (headers : list (string * string)) (name value : string)
  : list (string * string) :=
  match headers with
  | [] => [(name, value)]
  | (n, v) :: r =>
      if sameName n name then (name, value) :: r
      else (n, v) :: putHeader r name value
  end.

(** The characters a header value may hold: TAB, and the code units from 32
    on but 127. *)
Definition validHeaderChar (c : ascii) : bool :=
  (N.eqb (Js.code c) 9 || (N.leb 32 (Js.code c) && negb (N.eqb (Js.code c) 127)))%bool.

(** [res.setHeader(name, value)]: one value per name; it throws once the
    response is sent, and on a value with an invalid character. *)
Definition setHeader {B : Type} (res : VercelResponse B) (name value : string)
  : Completion (VercelResponse B) :=
  match res_sent res with
  | Some _ =>
      Throw (ErrorObject "Error" "Cannot set headers after they are sent to the client")
  | None =>
      if Whatwg.forall_chars validHeaderChar value then
        Normal {| res_headers := putHeader (res_headers res) name value;
                  res_statusCode := res_statusCode res;
                  res_sent := res_sent res |}
      else
        Throw (TypeError ("Invalid character in header content ["
                          ++ String Whatwg.dquote name
                          ++ String Whatwg.dquote "]"))
  end.

(** [res.getHeader(name)] *)
Fixpoint findHeader (headers : list (string * string)) (name : string)
  : option string :=
  match headers with
  | [] => None
  | (n, v) :: r => if sameName n name then Some v else findHeader r name
  end.

Definition getHeader {B : Type} (res : VercelResponse B) (name : string)
  : option string :=
  findHeader (res_headers res) name.

(** [res.status(code)] *)
Definition status {B : Type} (res : VercelResponse B) (code : N) : VercelResponse B :=
  {| res_headers := res_headers res; res_statusCode := code;
     res_sent := res_sent res |}.

(** [res.json(body)] and [res.end()], on a response not sent yet. *)
Definition json {B : Type} (res : VercelResponse B) (body : B) : VercelResponse B :=
  {| res_headers := res_headers res; res_statusCode := res_statusCode res;
     res_sent := Some (Some body) |}.

Definition end_ {B : Type} (res : VercelResponse B) : VercelResponse B :=
  {| res_headers := res_headers res; res_statusCode := res_statusCode res;
     res_sent := Some None |}.

(** The loop of [setCorsHeaders] over the entries of the headers. *)
Fixpoint setHeaders {B : Type} (res : VercelResponse B)
    (headers : list (string * string)) : Completion (VercelResponse B) :=
  match headers with
  | [] => Normal res
  | (key, value) :: rest =>
      match setHeader res key value with
      | Normal res' => setHeaders res' rest
      | Throw e => Throw e
      end
  end.

Definition setCorsHeaders {B : Type} (env : Environment) (res : VercelResponse B)
  : Completion (VercelResponse B) :=
  setHeaders res (getCorsHeaders env).

Definition handleOptions {B : Type} (env : Environment) (res : VercelResponse B)
  : Completion (VercelResponse B) :=
  match setCorsHeaders env res with
  | Normal res' => Normal (end_ (status res' 204))
  | Throw e => Throw e
  end.

(** A response of the platform on which nothing has been done yet. *)
Definition fresh (B : Type) : VercelResponse B :=
  {| res_headers := []; res_statusCode := 200; res_sent := None |}.

End Cors.

(* ====================================================================== *)
(** * api/discover.ts: input classification *)
(* ====================================================================== *)

Module Discover.

Import Re.

Definition digit : regex := Sym CDigit.

(** [[a-zA-Z0-9_-]] *)
Definition name_char : cset :=
  CUnion (CRange "a" "z") (CUnion (CRange "A" "Z") (CUnion (CRange "0" "9")
    (CUnion (CChar "_") (CChar "-")))).

(** Detects an input that looks like a username (no dots, no protocol). *)
Definition isUsernameInput (input : string) : bool :=
  (* /^@?[a-zA-Z0-9_-]+$/ *)
  (test_whole (Seq (Opt (Chr "@")) (Plus (Sym name_char))) input
   && negb (Js.includes input "."))%bool.

(** Adds https:// when the input has no protocol. *)
Definition normalizeUrl (input : string) : string :=
  let trimmed := Js.trim input in
  if (Js.startsWith trimmed "http://" || Js.startsWith trimmed "https://")%bool
  then trimmed
  else "https://" ++ trimmed.

Inductive InputType : Type := homepage | article | feed.

Definition detectInputType (url : URL) : InputType :=
  let path := Js.toLowerCase (pathname url) in
  if (Js.endsWith path ".xml" ||
      Js.endsWith path ".rss" ||
      Js.endsWith path ".atom" ||
      Js.includes path "/feed" ||
      Js.includes path "/rss" ||
      Js.includes path "/atom")%bool
  then feed
  else if (test_search (Seq (Chr "/") (Seq (Times 4 digit) (Chr "/"))) path ||  (* /\/\d{4}\// *)
           Js.includes path "/post/" ||
           Js.includes path "/posts/" ||
           Js.includes path "/article/" ||
           Js.includes path "/articles/" ||
           (Js.includes path "/blog/" &&
            Nat.ltb 3 (List.length (Js.split_char "/" path))))%bool
  then article
  else homepage.

Definition any_dots : regex := Star (Sym CDot).

(** The patterns of [extractHomepageUrl], each without its leading [^(.*?)]
    and its closing [$]. *)
Definition articlePatterns : list regex := [
  (* /^(.*?)\/\d{4}\/\d{2}\/.*$/ *)
  Seq (Chr "/") (Seq (Times 4 digit) (Seq (Chr "/") (Seq (Times 2 digit)
    (Seq (Chr "/") any_dots))));
  (* /^(.*?)\/\d{4}\/.*$/ *)
  Seq (Chr "/") (Seq (Times 4 digit) (Seq (Chr "/") any_dots));
  (* /^(.*?)\/posts?\/.*$/ *)
  Seq (Lit "/post") (Seq (Opt (Chr "s")) (Seq (Chr "/") any_dots));
  (* /^(.*?)\/articles?\/.*$/ *)
  Seq (Lit "/article") (Seq (Opt (Chr "s")) (Seq (Chr "/") any_dots));
  (* /^(.*?)\/blog\/[^/]+$/ *)
  Seq (Lit "/blog/") (Plus (Sym (CNot (CChar "/"))))
].

(** The loop over the patterns: the first one that matches decides. *)
Fixpoint firstMatch (patterns : list regex) (path : string) : option string :=
  match patterns with
  | [] => None
  | pattern :: rest =>
      match match_lazy_prefix pattern path with
      | Some group1 => Some group1
      | None => firstMatch rest path
      end
  end.

(** Extracts the homepage URL from an article URL. *)
Definition extractHomepageUrl (url : URL) : string :=
  let path := pathname url in
  match firstMatch articlePatterns path with
  | Some group1 =>
      let basePath := Js.or_else group1 "" in
      origin url ++ Js.or_else basePath "/"
  | None => origin url
  end.

(** [input.replace(/^@/, '')] *)
Definition stripAt (input : string) : string :=
  match input with
  | String "@" r => r
  | _ => input
  end.

(** The classification the handler performs on its trimmed input, gathered in
    one value: the user-name test, then normalisation and validation, then the
    type of the URL. *)
Inductive InputClassification : Type :=
| Username (name : string)
| Feed (url : URL)
| Article (url : URL)
| Homepage (url : URL)
| Rejected (error : option Ssrf.UrlError).

Definition classify `{UrlApi} (raw : string) : InputClassification :=
  let input := Js.trim raw in
  if isUsernameInput input then Username (stripAt input)
  else
    let urlValidation := Ssrf.validateUrl (normalizeUrl input) in
    match Ssrf.valid urlValidation, Ssrf.url urlValidation with
    | true, Some u =>
        match detectInputType u with
        | feed => Feed u
        | article => Article u
        | homepage => Homepage u
        end
    | _, _ => Rejected (Ssrf.error urlValidation)
    end.

(* ---------------------------------------------------------------------- *)
(** ** Feed analysis *)
(* ---------------------------------------------------------------------- *)

(** An item of a parsed feed, with the fields the handler reads. *)
Record Item : Type := {
  item_title : option string;
  item_link : option string;
  item_pubDate : option string;
  item_isoDate : option string;
  item_content : option string;
  item_content_encoded : option string;      (* item['content:encoded'] *)
  item_contentSnippet : option string;
  item_summary : option string
}.

Record ContentAnalysis : Type := {
  has_full_content : bool;
  average_content_length : Z;
  sample_size : nat
}.

Definition contentLength (item : Item) : nat :=
  let contentEncoded := Js.opt_or (item_content_encoded item) "" in
  String.length (Js.opt_or (item_content item) (Js.or_else contentEncoded "")).

Definition descriptionLength (item : Item) : nat :=
  String.length (Js.opt_or (item_contentSnippet item)
                   (Js.opt_or (item_summary item) "")).

Definition Qnat (n : nat) : Q := inject_Z (Z.of_nat n).

(** [a > b] on numbers. *)
Definition Qgtb (a b : Q) : bool := negb (Qle_bool a b).

(** Full content indicators: content above 500 characters, and above 1.5 times
    the description. *)
Definition isFullContent (item : Item) : bool :=
  let hasSubstantialContent := Qgtb (Qnat (contentLength item)) (500 # 1) in
  let contentLongerThanDesc :=
    Qgtb (Qnat (contentLength item)) (Qnat (descriptionLength item) * (15 # 10)) in
  (hasSubstantialContent && contentLongerThanDesc)%bool.

(** The loop over the sample: [(fullContentCount, totalContentLength)]. *)
Fixpoint analyzeLoop (sample : list Item) (fullContentCount totalContentLength : nat)
  : nat * nat :=
  match sample with
  | [] => (fullContentCount, totalContentLength)
  | item :: rest =>
      analyzeLoop rest
        (if isFullContent item then S fullContentCount else fullContentCount)
        (totalContentLength + contentLength item)
  end.

(** [Math.round(x)] for a quotient of naturals: the nearest integer, halves
    upwards. *)
Definition roundDiv (a b : nat) : Z :=
  Z.div (2 * Z.of_nat a + Z.of_nat b) (2 * Z.of_nat b).

(** Analyses whether a feed includes full post content.  The numbers are the
    exact rationals; on the lengths and the sample sizes met here the
    floating-point comparisons of the source agree with them. *)
Definition analyzeFullContentN (items : list Item) (sampleSize : nat)
  : ContentAnalysis :=
  let sample := List.firstn sampleSize items in
  let (fullContentCount, totalContentLength) := analyzeLoop sample 0 0 in
  {| has_full_content :=
       if Nat.ltb 0 (List.length sample)
       then Qle_bool (6 # 10)
              (Qnat fullContentCount / Qnat (List.length sample))
       else false;
     average_content_length :=
       if Nat.ltb 0 (List.length sample)
       then roundDiv totalContentLength (List.length sample)
       else 0%Z;
     sample_size := List.length sample |}.

(** The default [sampleSize = 5]. *)
Definition analyzeFullContent (items : list Item) : ContentAnalysis :=
  analyzeFullContentN items 5.

(* ---------------------------------------------------------------------- *)
(** ** The outside world of a request *)
(* ---------------------------------------------------------------------- *)

(** An element as the handler sees it: its attributes. *)
Record Element : Type := {
  attributes : list (string * string)
}.

(** The text of the attribute selector [[name="value"]]. *)
Definition attr_sel (name value : string) : string :=
  "[" ++ name ++ "=" ++ String Whatwg.dquote value ++ String Whatwg.dquote "]".

(** [el.getAttribute(name)]; [None] is [null]. *)
Definition getAttribute (el : Element) (name : string) : option string :=
  assoc name (attributes el).

(** A parsed document, seen through its only use: the elements a selector
    finds, in document order. *)
Record Document : Type := {
  querySelectorAll : string -> list Element
}.

Definition querySelector (document : Document) (selector : string) : option Element :=
  List.hd_error (querySelectorAll document selector).

(** A [Response] of [fetch]. *)
Record Response : Type := {
  ok : bool;
  status : N;
  statusText : string;
  content_type : option string;          (* headers.get('content-type') *)
  body : Completion string               (* text() / arrayBuffer(), which may throw *)
}.

(** The feed [rss-parser] hands back. *)
Record ParsedFeed : Type := {
  feed_title : option string;
  feed_description : option string;
  feed_link : option string;
  feed_language : option string;
  feed_lastBuildDate : option string;
  feed_items : option (list Item)
}.

(** The network calls a request makes, in the order they are issued. *)
Inductive Event : Type :=
| Fetched (method url : string)          (* fetch(url, { method }) *)
| FeedRequested (url : string).          (* parser.parseURL(url) *)

(** The world answers every call, knowing the calls made before it.  A call
    that fails or times out is a [Throw]; the world decides when that happens,
    so the timeouts of the source do not appear as numbers. *)
Record World : Type := {
  net_fetch : list Event -> string -> string -> Completion Response;
  rss_parseURL : list Event -> string -> Completion ParsedFeed;
  parseHTML : string -> Completion Document;
  JSON_parse : string -> Completion JsValue
}.

(** Computations that make network calls: the log of the calls is threaded. *)
Definition Net (A : Type) : Type := list Event -> A * list Event.

Definition ret {A : Type} (a : A) : Net A := fun log => (a, log).

Definition bind {A B : Type} (m : Net A) (k : A -> Net B) : Net B :=
  fun log => let (a, log') := m log in k a log'.

Notation "x <- m ;; k" := (bind m (fun x => k))
  (at level 61, m at next level, right associativity).

Fixpoint mapNet {A B : Type} (f : A -> Net B) (l : list A) : Net (list B) :=
  match l with
  | [] => ret []
  | a :: r => b <- f a ;; bs <- mapNet f r ;; ret (b :: bs)
  end.

(** Fetch with timeout. *)
Definition fetchWithTimeout (w : World) (url method : string)
  : Net (Completion Response) :=
  fun log => (net_fetch w log method url, (log ++ [Fetched method url])%list).

(* ---------------------------------------------------------------------- *)
(** ** Feed discovery *)
(* ---------------------------------------------------------------------- *)

Inductive FeedType : Type := rss | atom | unknown.

Record FeedInfo : Type := {
  url : string;
  title : option string;
  type : FeedType
}.

(** [type?.includes(s)]: [undefined], hence falsy, when there is no type. *)
Definition opt_includes (type : option string) (s : string) : bool :=
  match type with
  | Some t => Js.includes t s
  | None => false
  end.

(** [title || null] *)
Definition or_null (s : option string) : option string :=
  match s with
  | Some t => if Js.truthy t then Some t else None
  | None => None
  end.

(** The body of the loop of [discoverFeedsFromHtml]: the feed a link element
    declares, if any. *)
Definition feedOfLink `{UrlApi} (baseUrl : string) (link : Element) : option FeedInfo :=
  let type := option_map Js.toLowerCase (getAttribute link "type") in
  let href := getAttribute link "href" in
  let title := getAttribute link "title" in
  match href with
  | None => None
  | Some href =>
      if negb (Js.truthy href) then None
      else
        let feedType :=
          if opt_includes type "rss" then Some rss
          else if opt_includes type "atom" then Some atom
          else if (negb (opt_includes type "rss") && negb (opt_includes type "atom"))%bool
          then None                      (* skip non-feed alternate links *)
          else Some unknown in
        match feedType with
        | None => None
        | Some t =>
            Some {| url := resolveUrl href baseUrl; title := or_null title; type := t |}
        end
  end.

Fixpoint keepSome {A : Type} (l : list (option A)) : list A :=
  match l with
  | [] => []
  | Some a :: r => a :: keepSome r
  | None :: r => keepSome r
  end.

(** Discovers feeds from HTML link tags. *)
Definition discoverFeedsFromHtml `{UrlApi} (document : Document) (baseUrl : string)
  : list FeedInfo :=
  let linkElements :=
    querySelectorAll document ("link" ++ attr_sel "rel" "alternate") in
  keepSome (List.map (feedOfLink baseUrl) linkElements).

(** [if (link) { const href = link.getAttribute('href'); if (href) ... }] *)
Definition truthyAttribute (el : option Element) (name : string) : option string :=
  match el with
  | Some e =>
      match getAttribute e name with
      | Some v => if Js.truthy v then Some v else None
      | None => None
      end
  | None => None
  end.

(** The favicon selectors, in order of preference. *)
Definition faviconSelectors : list string := [
  "link" ++ attr_sel "rel" "icon" ++ attr_sel "type" "image/png";
  "link" ++ attr_sel "rel" "apple-touch-icon";
  "link" ++ attr_sel "rel" "icon";
  "link" ++ attr_sel "rel" "shortcut icon"
].

Fixpoint firstFavicon `{UrlApi} (document : Document) (baseUrl : string)
    (selectors : list string) : option string :=
  match selectors with
  | [] => None
  | selector :: rest =>
      match truthyAttribute (querySelector document selector) "href" with
      | Some href => Some (resolveUrl href baseUrl)
      | None => firstFavicon document baseUrl rest
      end
  end.

(** Extracts the favicon from HTML; defaults to /favicon.ico. *)
Definition extractFavicon `{UrlApi} (document : Document) (baseUrl : string)
  : option string :=
  match firstFavicon document baseUrl faviconSelectors with
  | Some icon => Some icon
  | None =>
      match URL_new baseUrl None with
      | Some u => Some (origin u ++ "/favicon.ico")
      | None => None
      end
  end.

(** Extracts og:image from HTML. *)
Definition extractOgImage `{UrlApi} (document : Document) (baseUrl : string)
  : option string :=
  match truthyAttribute (querySelector document ("meta" ++ attr_sel "property" "og:image"))
          "content" with
  | Some content => Some (resolveUrl content baseUrl)
  | None =>
      match truthyAttribute
              (querySelector document ("meta" ++ attr_sel "name" "twitter:image"))
              "content" with
      | Some content => Some (resolveUrl content baseUrl)
      | None => None
      end
  end.

(** One probe of [probeFeedPaths]: the URL is validated, then a HEAD request
    is sent; errors are ignored. *)
Definition probe `{UrlApi} (w : World) (origin path : string) : Net (option FeedInfo) :=
  let url := origin ++ path in
  let validation := Ssrf.validateUrl url in
  if negb (Ssrf.valid validation) then ret None
  else
    response <- fetchWithTimeout w url "HEAD" ;;
    ret match response with
        | Normal response =>
            if ok response then
              let contentType := Js.opt_or (content_type response) "" in
              if (Js.includes contentType "xml" ||
                  Js.includes contentType "rss" ||
                  Js.includes contentType "atom")%bool
              then Some {| url := url; title := None;
                           type := if Js.includes contentType "atom" then atom else rss |}
              else None
            else None
        | Throw _ => None
        end.

(** [COMMON_FEED_PATHS.slice(i, i + batchSize)] *)
Definition slice {A : Type} (l : list A) (i j : nat) : list A :=
  List.firstn (j - i) (List.skipn i l).

Definition batchSize : nat := 3.

(** The loop of [probeFeedPaths], from index [i] with the feeds found so far;
    [fuel] bounds the number of batches. *)
Fixpoint probeLoop `{UrlApi} (w : World) (origin : string) (paths : list string)
    (fuel i : nat) (feeds : list FeedInfo) : Net (list FeedInfo) :=
  match fuel with
  | O => ret feeds
  | S fuel' =>
      if Nat.ltb i (List.length paths) then
        let batch := slice paths i (i + batchSize) in
        results <- mapNet (probe w origin) batch ;;
        let feeds' := (feeds ++ keepSome results)%list in
        (* early exit if we found a feed *)
        if Nat.ltb 0 (List.length feeds') then ret feeds'
        else probeLoop w origin paths fuel' (i + batchSize) feeds'
      else ret feeds
  end.

(** Probes common feed paths to find feeds. *)
Definition probeFeedPaths `{UrlApi} (w : World) (origin : string) : Net (list FeedInfo) :=
  probeLoop w origin COMMON_FEED_PATHS (List.length COMMON_FEED_PATHS) 0 [].

Record FeedMetadata : Type := {
  md_title : string;
  md_description : option string;
  md_link : string;
  md_language : option string;
  md_last_build_date : option string
}.

Record RecentPost : Type := {
  post_title : string;
  post_link : string;
  post_pub_date : option string
}.

Record ParsedResult : Type := {
  metadata : FeedMetadata;
  posts : list RecentPost;
  contentAnalysis : ContentAnalysis
}.

(** [a || b || null] on optional strings. *)
Definition first_truthy (a b : option string) : option string :=
  match or_null a with
  | Some s => Some s
  | None => or_null b
  end.

(** Parses an RSS/Atom feed and extracts its metadata; [None] when the parser
    throws. *)
Definition parseFeed (w : World) (feedUrl : string) : Net (option ParsedResult) :=
  fun log =>
    (match rss_parseURL w log feedUrl with
     | Normal parsedFeed =>
         let items := match feed_items parsedFeed with Some l => l | None => [] end in
         Some {| metadata :=
                   {| md_title := Js.opt_or (feed_title parsedFeed) "Untitled";
                      md_description := or_null (feed_description parsedFeed);
                      md_link := Js.opt_or (feed_link parsedFeed) feedUrl;
                      md_language := or_null (feed_language parsedFeed);
                      md_last_build_date := or_null (feed_lastBuildDate parsedFeed) |};
                 posts :=
                   List.map (fun item =>
                               {| post_title := Js.opt_or (item_title item) "Untitled";
                                  post_link := Js.opt_or (item_link item) "";
                                  post_pub_date :=
                                    first_truthy (item_pubDate item) (item_isoDate item) |})
                            (List.firstn 3 items);
                 contentAnalysis := analyzeFullContent items |}
     | Throw _ => None
     end,
     (log ++ [FeedRequested feedUrl])%list).

(** Validates that a URL is a feed: a quick check for XML feed markers. *)
Definition validateFeedUrl (w : World) (url : string) : Net bool :=
  response <- fetchWithTimeout w url "GET" ;;
  ret match response with
      | Normal response =>
          if negb (ok response) then false
          else
            match body response with
            | Normal text =>
                (Js.includes text "<rss" || Js.includes text "<feed" ||
                 Js.includes text "<channel")%bool
            | Throw _ => false
            end
      | Throw _ => false
      end.

(* ---------------------------------------------------------------------- *)
(** ** The handler *)
(* ---------------------------------------------------------------------- *)

Record Images : Type := {
  site_icon : option string;
  og_image : option string
}.

Record PlatformSuggestion : Type := {
  platform : string;
  suggestion_url : string;
  label : string
}.

Record DiscoverSuccessResponse : Type := {
  input_type : InputType;
  normalized_url : string;
  feeds : list FeedInfo;
  recommended_feed : option string;
  response_metadata : option FeedMetadata;
  images : Images;
  content_analysis : option ContentAnalysis;
  recent_posts : option (list RecentPost);
  response_message : option string
}.

Record ErrorInfo : Type := {
  error_code : string;
  error_message : string;
  error_details : option string
}.

(** What [res.json(...)] is given. *)
Inductive ResponseBody : Type :=
| AuthErrorBody (error : option string)            (* { ok: false, error } *)
| ErrorBody (error : option ErrorInfo)             (* { success: false, error } *)
| PlatformHintBody (input : string) (suggestions : list PlatformSuggestion)
                                                   (* { success: true, platform_hint: true, ... } *)
| SuccessBody (r : DiscoverSuccessResponse).       (* { success: true, ... } *)

(** How the handler ends once the CORS headers are set: with a call of
    [res.status(status).json(body)], or with an exception that nothing
    catches. *)
Inductive Outcome : Type :=
| Responded (status : N) (body : ResponseBody)
| Uncaught (e : Thrown).


Definition errorResponse (httpStatus : N) (code message : string) : Outcome :=
  Responded httpStatus
    (ErrorBody (Some {| error_code := code; error_message := message;
                        error_details := None |})).

(** JavaScript truthiness of a JSON value. *)
Definition value_truthy (v : JsValue) : bool :=
  match v with
  | JUndefined => false
  | JNull => false
  | JBool b => b
  | JNumber z => negb (Z.eqb z 0)
  | JString s => Js.truthy s
  | JArray _ => true
  | JObject _ => true
  end.

(** [typeof v === 'string'] *)
Definition is_string (v : JsValue) : bool :=
  match v with JString _ => true | _ => false end.

(** [body.url]: reading a property of [null] or [undefined] throws. *)
Definition get_url (body : JsValue) : Completion JsValue :=
  match body with
  | JUndefined => Throw (TypeError "Cannot read properties of undefined (reading 'url')")
  | JNull => Throw (TypeError "Cannot read properties of null (reading 'url')")
  | JObject fields =>
      Normal match assoc "url" fields with Some v => v | None => JUndefined end
  | _ => Normal JUndefined
  end.

(** [typeof req.body === 'string' ? JSON.parse(req.body) : req.body] *)
Definition parseBody (w : World) (req : VercelRequest) : Completion JsValue :=
  match req_body req with
  | JString text => JSON_parse w text
  | v => Normal v
  end.

Definition platformHint (username : string) : ResponseBody :=
  PlatformHintBody username [
    {| platform := "substack";
       suggestion_url := "https://" ++ username ++ ".substack.com";
       label := "Substack" |};
    {| platform := "medium";
       suggestion_url := "https://medium.com/@" ++ username;
       label := "Medium" |};
    {| platform := "ghost";
       suggestion_url := "https://" ++ username ++ ".ghost.io";
       label := "Ghost" |}
  ].

Definition noImages : Images := {| site_icon := None; og_image := None |}.

(** The [catch] of the homepage fetch. *)
Definition fetchErrorResponse (e : Thrown) : Outcome :=
  let isTimeout :=
    match e with
    | ErrorObject name message =>
        (String.eqb name "AbortError" || Js.includes message "timeout")%bool
    | NonError => false
    end in
  errorResponse 200
    (if isTimeout then ErrorCodes.TIMEOUT else ErrorCodes.FETCH_FAILED)
    (if isTimeout then "Request timed out"
     else match e with
          | ErrorObject _ message => message
          | NonError => "Network error during fetch"
          end).

(** Image discovery from the feed's homepage link; every error is ignored. *)
Definition discoverImages `{UrlApi} (w : World) (link : string) : Net Images :=
  homeResponse <- fetchWithTimeout w link "GET" ;;
  ret match homeResponse with
      | Normal homeResponse =>
          if ok homeResponse then
            match body homeResponse with
            | Normal html =>
                match parseHTML w html with
                | Normal document =>
                    {| site_icon := extractFavicon document link;
                       og_image := extractOgImage document link |}
                | Throw _ => noImages
                end
            | Throw _ => noImages
            end
          else noImages
      | Throw _ => noImages
      end.

(** The branch for an input that is a feed and passed [validateFeedUrl]. *)
Definition feedBranch `{UrlApi} (w : World) (normalizedUrlString : string)
  : Net Outcome :=
  parsed <- parseFeed w normalizedUrlString ;;
  match parsed with
  | Some parsed =>
      let md := metadata parsed in
      found <- (if Js.truthy (md_link md) then discoverImages w (md_link md)
                else ret noImages) ;;
      ret (Responded 200 (SuccessBody
             {| input_type := feed;
                normalized_url := normalizedUrlString;
                feeds := [{| url := normalizedUrlString;
                             title := Some (md_title md);
                             type := unknown |}];
                recommended_feed := Some normalizedUrlString;
                response_metadata := Some md;
                images := found;
                content_analysis := Some (contentAnalysis parsed);
                recent_posts := Some (posts parsed);
                response_message := None |}))
  | None =>
      ret (Responded 200 (SuccessBody
             {| input_type := feed;
                normalized_url := normalizedUrlString;
                feeds := [{| url := normalizedUrlString; title := None;
                             type := unknown |}];
                recommended_feed := Some normalizedUrlString;
                response_metadata := None;
                images := noImages;
                content_analysis := None;
                recent_posts := None;
                response_message := None |}))
  end.

(** The fetch of the homepage HTML: the page, or the response that reports
    why there is none. *)
Definition fetchHomepage (cfg : Config) (w : World) (homepageUrl : string)
  : Net (Outcome + string) :=
  response <- fetchWithTimeout w homepageUrl "GET" ;;
  ret match response with
      | Normal response =>
          if negb (ok response) then
            inl (errorResponse 200 ErrorCodes.FETCH_FAILED
                   ("HTTP " ++ Whatwg.decimal (status response) ++ ": "
                    ++ statusText response))
          else
            match body response with
            | Normal html =>
                if N.ltb (MAX_HTML_SIZE cfg) (N.of_nat (String.length html)) then
                  inl (errorResponse 200 ErrorCodes.CONTENT_TOO_LARGE
                         ("HTML exceeds maximum size of "
                          ++ Whatwg.decimal (MAX_HTML_SIZE_MB cfg) ++ "MB"))
                else inr html
            | Throw e => inl (fetchErrorResponse e)
            end
      | Throw e => inl (fetchErrorResponse e)
      end.

(** [if (!feeds[0].title) feeds[0].title = metadata.title] *)
Definition fillTitle (f : FeedInfo) (t : string) : FeedInfo :=
  match or_null (title f) with
  | Some _ => f
  | None => {| url := url f; title := Some t; type := type f |}
  end.

(** The branch for a homepage or an article, inside the [try] of the handler. *)
Definition homepageBranch `{UrlApi} (cfg : Config) (w : World)
    (inputType : InputType) (homepageUrl : string) : Net (Completion Outcome) :=
  fetched <- fetchHomepage cfg w homepageUrl ;;
  match fetched with
  | inl response => ret (Normal response)
  | inr html =>
      match parseHTML w html with
      | Throw e => ret (Throw e)
      | Normal doc =>
          let found := {| site_icon := extractFavicon doc homepageUrl;
                          og_image := extractOgImage doc homepageUrl |} in
          let declared := discoverFeedsFromHtml doc homepageUrl in
          located <-
            (if Nat.eqb (List.length declared) 0 then
               (* const origin = new URL(homepageUrl).origin *)
               match URL_new homepageUrl None with
               | Some u => probed <- probeFeedPaths w (origin u) ;; ret (Normal probed)
               | None => ret (Throw (TypeError "Invalid URL"))
               end
             else ret (Normal declared)) ;;
          match located with
          | Throw e => ret (Throw e)
          | Normal [] =>
              ret (Normal (Responded 200 (SuccessBody
                     {| input_type := inputType;
                        normalized_url := homepageUrl;
                        feeds := [];
                        recommended_feed := None;
                        response_metadata := None;
                        images := found;
                        content_analysis := None;
                        recent_posts := None;
                        response_message :=
                          Some "No RSS or Atom feeds found for this URL" |})))
          | Normal (first :: others) =>
              let recommendedFeedUrl := url first in
              parsed <- parseFeed w recommendedFeedUrl ;;
              ret (Normal (Responded 200 (SuccessBody
                     match parsed with
                     | Some parsed =>
                         {| input_type := inputType;
                            normalized_url := homepageUrl;
                            feeds := fillTitle first (md_title (metadata parsed))
                                     :: others;
                            recommended_feed := Some recommendedFeedUrl;
                            response_metadata := Some (metadata parsed);
                            images := found;
                            content_analysis := Some (contentAnalysis parsed);
                            recent_posts := Some (posts parsed);
                            response_message := None |}
                     | None =>
                         {| input_type := inputType;
                            normalized_url := homepageUrl;
                            feeds := first :: others;
                            recommended_feed := Some recommendedFeedUrl;
                            response_metadata := None;
                            images := found;
                            content_analysis := None;
                            recent_posts := None;
                            response_message := None |}
                     end)))
          end
      end
  end.

(** The body of the [try] of the handler, for a validated URL. *)
Definition tryDiscover `{UrlApi} (cfg : Config) (w : World)
    (normalizedUrlString : string) (u : URL) : Net (Completion Outcome) :=
  let inputType := detectInputType u in
  let homepageUrl :=
    match inputType with
    | article => extractHomepageUrl u
    | _ => normalizedUrlString
    end in
  match inputType with
  | feed =>
      isValid <- validateFeedUrl w normalizedUrlString ;;
      if negb isValid then
        (* fall back to treating it as a homepage *)
        homepageBranch cfg w homepage (origin u)
      else
        response <- feedBranch w normalizedUrlString ;; ret (Normal response)
  | _ => homepageBranch cfg w inputType homepageUrl
  end.

(** The [catch] of the handler. *)
Definition discoveryFailed (e : Thrown) : Outcome :=
  Responded 200
    (ErrorBody (Some {| error_code := ErrorCodes.DISCOVERY_FAILED;
                        error_message := "Could not complete feed discovery";
                        error_details :=
                          match e with
                          | ErrorObject _ message => Some message
                          | NonError => None
                          end |})).

Definition discover `{UrlApi} (cfg : Config) (w : World)
    (normalizedUrlString : string) (u : URL) : Net Outcome :=
  result <- tryDiscover cfg w normalizedUrlString u ;;
  ret match result with
      | Normal response => response
      | Throw e => discoveryFailed e
      end.

(** The steps from a string [url] field onwards. *)
Definition discoverInput `{UrlApi} (cfg : Config) (w : World) (bodyUrl : string)
  : Net Outcome :=
  let input := Js.trim bodyUrl in
  if isUsernameInput input then
    ret (Responded 200 (platformHint (stripAt input)))
  else
    let normalizedUrlString := normalizeUrl input in
    let urlValidation := Ssrf.validateUrl normalizedUrlString in
    if negb (Ssrf.valid urlValidation) then
      ret (Responded 200
             (ErrorBody (option_map
                           (fun e => {| error_code := Ssrf.code e;
                                        error_message := Ssrf.message e;
                                        error_details := None |})
                           (Ssrf.error urlValidation))))
    else
      match Ssrf.url urlValidation with
      | Some u => discover cfg w normalizedUrlString u
      | None =>
          ret (Uncaught
                 (TypeError "Cannot read properties of undefined (reading 'pathname')"))
      end.

(** The handler from the test of the method onwards. *)
Definition answer `{UrlApi} (cfg : Config) (w : World) (req : VercelRequest)
  : Net Outcome :=
  if negb (String.eqb (req_method req) "POST") then
    ret (errorResponse 405 "METHOD_NOT_ALLOWED" "Method not allowed")
  else
    match Auth.validateAuth cfg req with
    | Throw e => ret (Uncaught e)
    | Normal auth =>
        if negb (Auth.authenticated auth) then
          ret (Responded 401 (AuthErrorBody (Auth.error auth)))
        else
          match parseBody w req with
          | Throw _ =>
              ret (errorResponse 400 ErrorCodes.INVALID_URL "Invalid request body")
          | Normal body =>
              match get_url body with
              | Throw e => ret (Uncaught e)
              | Normal bodyUrl =>
                  if (negb (value_truthy bodyUrl) || negb (is_string bodyUrl))%bool then
                    ret (errorResponse 400 ErrorCodes.INVALID_URL
                           "Missing required field: url")
                  else
                    match bodyUrl with
                    | JString s => discoverInput cfg w s
                    | _ => ret (Uncaught (TypeError "body.url.trim is not a function"))
                    end
              end
          end
    end.

(** The outcome on the response object: [res.status(status).json(body)] on
    the response whose headers are set, which is not sent yet. *)
Definition send (res : Cors.VercelResponse ResponseBody) (outcome : Outcome)
  : Completion (Cors.VercelResponse ResponseBody) :=
  match outcome with
  | Responded status body => Normal (Cors.json (Cors.status res status) body)
  | Uncaught e => Throw e
  end.

Definition handler `{UrlApi} (env : Environment) (cfg : Config) (w : World)
    (req : VercelRequest) (res : Cors.VercelResponse ResponseBody)
  : Net (Completion (Cors.VercelResponse ResponseBody)) :=
  (* Handle CORS preflight *)
  if String.eqb (req_method req) "OPTIONS" then ret (Cors.handleOptions env res)
  else
    match Cors.setCorsHeaders env res with
    | Throw e => ret (Throw e)
    | Normal res =>
        outcome <- answer cfg w req ;;
        ret (send res outcome)
    end.

(** Runs the handler on a fresh response, from an empty log. *)
Definition run `{UrlApi} (env : Environment) (cfg : Config) (w : World)
    (req : VercelRequest)
  : Completion (Cors.VercelResponse ResponseBody) * list Event :=
  handler env cfg w req (Cors.fresh ResponseBody) [].

End Discover.

(** Auxiliary definitions for the statements about the feed analysis. *)

Module AnalysisAux.

Import Discover.

(** The number of items of a sample that count as full content. *)
Definition fullCount (sample : list Item) : nat :=
  List.length (List.filter isFullContent sample).

(** An item with the given content and snippet. *)
Definition item_with (content snippet : string) : Item :=
  {| item_title := None; item_link := None; item_pubDate := None;
     item_isoDate := None; item_content := Some content;
     item_content_encoded := None; item_contentSnippet := Some snippet;
     item_summary := None |}.

(** Four items of 600 characters with a summary of 100, one of 50 characters. *)
Definition syntheticItems : list Item :=
  List.repeat (item_with (Js.repeat_char "c" 600) (Js.repeat_char "s" 100)) 4
  ++ [item_with (Js.repeat_char "c" 50) ""].

Definition is_600_100 (item : Item) : bool :=
  (Nat.eqb (contentLength item) 600 && Nat.eqb (descriptionLength item) 100)%bool.

End AnalysisAux.

(** Auxiliary definitions for the statements about probing and the handler. *)
Module DiscoverAux.

Import Discover.

(** Probing told batch by batch: the batches are probed in turn, and the
    first batch with a candidate ends the probing. *)
Fixpoint probeBatches `{UrlApi} (w : World) (origin : string)
    (batches : list (list string)) : Net (list FeedInfo) :=
  match batches with
  | [] => ret []
  | batch :: rest =>
      results <- mapNet (probe w origin) batch ;;
      match keepSome results with
      | [] => probeBatches w origin rest
      | hits => ret hits
      end
  end.

(** The ten paths, three at a time. *)
Definition feedPathBatches : list (list string) := [
  ["/feed"; "/rss"; "/atom.xml"];
  ["/feed.xml"; "/rss.xml"; "/index.xml"];
  ["/feeds/posts/default"; "/blog/feed"; "/feed/rss"];
  ["/feed/atom"]
].

(** The response makes a probe a hit: it is successful and its content type
    contains xml, rss or atom. *)
Definition isFeedResponse (r : Response) : bool :=
  (ok r &&
   (Js.includes (Js.opt_or (content_type r) "") "xml" ||
    Js.includes (Js.opt_or (content_type r) "") "rss" ||
    Js.includes (Js.opt_or (content_type r) "") "atom"))%bool.

(** The candidate a hit at [url] gives. *)
Definition candidate (probeUrl : string) (r : Response) : FeedInfo :=
  {| url := probeUrl; title := None;
     type := if Js.includes (Js.opt_or (content_type r) "") "atom" then atom else rss |}.

(** The header-only request of a probe. *)
Definition headProbe (origin path : string) : Event := Fetched "HEAD" (origin ++ path).


(** A run ends with the given HTTP status and JSON body. *)
Definition answers (run : Completion (Cors.VercelResponse ResponseBody) * list Event)
    (httpStatus : N) (sent : ResponseBody) : Prop :=
  exists res, fst run = Normal res /\
              Cors.res_statusCode res = httpStatus /\
              Cors.res_sent res = Some (Some sent).

(** The body [{ success: false, error: { code, message, details } }]. *)
Definition failure (code message : string) (details : option string) : ResponseBody :=
  ErrorBody (Some {| error_code := code; error_message := message;
                     error_details := details |}).






End DiscoverAux.

(* ====================================================================== *)
(** * api/health.ts *)
(* ====================================================================== *)

Module Health.

(** What [res.json(...)] is given. *)
Inductive HealthBody : Type :=
| HealthError (error : option string)             (* { ok: false, error } *)
| HealthOk (version provider : string) (capabilities : list string).
                                                  (* { ok: true, version, provider, capabilities } *)

Definition handler (env : Environment) (cfg : Config) (req : VercelRequest)
    (res : Cors.VercelResponse HealthBody)
  : Completion (Cors.VercelResponse HealthBody) :=
  (* Handle CORS preflight *)
  if String.eqb (req_method req) "OPTIONS" then Cors.handleOptions env res
  else
    match Cors.setCorsHeaders env res with
    | Throw e => Throw e
    | Normal res =>
        (* Only allow GET *)
        if negb (String.eqb (req_method req) "GET") then
          Normal (Cors.json (Cors.status res 405)
                    (HealthError (Some "Method not allowed")))
        else
          match Auth.validateAuth cfg req with
          | Throw e => Throw e
          | Normal auth =>
              if negb (Auth.authenticated auth) then
                Normal (Cors.json (Cors.status res 401)
                          (HealthError (Auth.error auth)))
              else
                Normal (Cors.json (Cors.status res 200)
                          (HealthOk VERSION PROVIDER ["fetch"; "parse"; "discover"]))
          end
    end.

End Health.

(** Worlds and requests for running the handler on concrete inputs. *)
Module Scenario.

Import Discover.

Definition cfg : Config := {| API_KEY := None; MAX_HTML_SIZE_MB := 5 |}.

(** The environment without ALLOWED_ORIGINS, and one whose ALLOWED_ORIGINS
    holds a line feed. *)
Definition env : Environment :=
  {| ALLOWED_ORIGINS_env := None; MAX_RESPONSE_SIZE_MB := 10 |}.


Definition notFound : Response :=
  {| ok := false; status := 404; statusText := "Not Found";
     content_type := Some "text/html"; body := Normal "" |}.

Definition page (html : string) : Response :=
  {| ok := true; status := 200; statusText := "OK";
     content_type := Some "text/html"; body := Normal html |}.

Definition rssFeed : Response :=
  {| ok := true; status := 200; statusText := "OK";
     content_type := Some "application/rss+xml"; body := Normal "" |}.

Definition emptyDocument : Document := {| querySelectorAll := fun _ => [] |}.

Definition noFeed : Completion ParsedFeed :=
  Throw (ErrorObject "Error" "Status code 404").

(** A site whose homepage declares no feed and whose /feed answers as RSS;
    every other request is answered 404. *)
Definition feedWorld : World :=
  {| net_fetch := fun _ method url =>
       if (String.eqb method "HEAD" && String.eqb url "https://example.com/feed")%bool
       then Normal rssFeed
       else if String.eqb url "https://example.com"
       then Normal (page "<html></html>")
       else Normal notFound;
     rss_parseURL := fun _ _ => noFeed;
     parseHTML := fun _ => Normal emptyDocument;
     JSON_parse := fun _ => Throw (ErrorObject "SyntaxError" "Unexpected token") |}.

(** The same site when its homepage does not answer in time. *)
Definition timeoutWorld : World :=
  {| net_fetch := fun _ _ _ => Throw (ErrorObject "AbortError" "This operation was aborted");
     rss_parseURL := fun _ _ => noFeed;
     parseHTML := fun _ => Normal emptyDocument;
     JSON_parse := fun _ => Throw (ErrorObject "SyntaxError" "Unexpected token") |}.

(** A configuration whose size limit is 0 MB. *)
Definition tightCfg : Config := {| API_KEY := None; MAX_HTML_SIZE_MB := 0 |}.

(** A site that refuses connections, one whose homepage exceeds the limit of
    [tightCfg], and one whose homepage cannot be parsed. *)
Definition refusingWorld : World :=
  {| net_fetch := fun _ _ _ => Throw (ErrorObject "TypeError" "fetch failed");
     rss_parseURL := fun _ _ => noFeed;
     parseHTML := fun _ => Normal emptyDocument;
     JSON_parse := fun _ => Throw (ErrorObject "SyntaxError" "Unexpected token") |}.

Definition hugeWorld : World :=
  {| net_fetch := fun _ _ _ => Normal (page "<html><body>more than nothing</body></html>");
     rss_parseURL := fun _ _ => noFeed;
     parseHTML := fun _ => Normal emptyDocument;
     JSON_parse := fun _ => Throw (ErrorObject "SyntaxError" "Unexpected token") |}.

Definition brokenWorld : World :=
  {| net_fetch := fun _ _ _ => Normal (page "<html>");
     rss_parseURL := fun _ _ => noFeed;
     parseHTML := fun _ => Throw (ErrorObject "Error" "parser failure");
     JSON_parse := fun _ => Throw (ErrorObject "SyntaxError" "Unexpected token") |}.

(** A site whose homepage declares no feed and whose /feed and /rss both
    answer as RSS. *)
Definition twoFeedsWorld : World :=
  {| net_fetch := fun _ method url =>
       if (String.eqb method "HEAD" &&
           (String.eqb url "https://example.com/feed" ||
            String.eqb url "https://example.com/rss"))%bool
       then Normal rssFeed
       else if String.eqb url "https://example.com"
       then Normal (page "<html></html>")
       else Normal notFound;
     rss_parseURL := fun _ _ => noFeed;
     parseHTML := fun _ => Normal emptyDocument;
     JSON_parse := fun _ => Throw (ErrorObject "SyntaxError" "Unexpected token") |}.

(** The address of a cloud metadata service, which [validateUrl] blocks. *)
Definition metadataService : string := "http://169.254.169.254/latest/meta-data/".

(** A page that declares the metadata service as its feed. *)
Definition hostileDocument : Document :=
  {| querySelectorAll := fun selector =>
       if String.eqb selector ("link" ++ attr_sel "rel" "alternate") then
         [{| attributes := [("rel", "alternate"); ("type", "application/rss+xml");
                            ("href", metadataService)] |}]
       else [] |}.

Definition hostilePageWorld : World :=
  {| net_fetch := fun _ _ _ => Normal (page "<html>...</html>");
     rss_parseURL := fun _ _ => noFeed;
     parseHTML := fun _ => Normal hostileDocument;
     JSON_parse := fun _ => Throw (ErrorObject "SyntaxError" "Unexpected token") |}.

(** A feed whose channel link points to a loopback address. *)
Definition hostileFeed : ParsedFeed :=
  {| feed_title := Some "Blog"; feed_description := None;
     feed_link := Some "http://127.0.0.1:8080/admin";
     feed_language := None; feed_lastBuildDate := None; feed_items := Some [] |}.

Definition hostileFeedWorld : World :=
  {| net_fetch := fun _ _ _ => Normal (page "<rss version=2.0></rss>");
     rss_parseURL := fun _ _ => Normal hostileFeed;
     parseHTML := fun _ => Normal emptyDocument;
     JSON_parse := fun _ => Throw (ErrorObject "SyntaxError" "Unexpected token") |}.

Definition post (v : JsValue) : VercelRequest :=
  {| req_method := "POST"; req_headers := []; req_body := v |}.

Definition discoverRequest (url : string) : VercelRequest :=
  post (JObject [("url", JString url)]).

End Scenario.

(** Fragments for running the sanitizer. *)
Module Fragments.

Definition tab : string := String (ascii_of_nat 9) "".

(** An anchor whose href is [java], a TAB, [script:alert(1)]. *)
Definition tabbedScript : string := "<a href='java" ++ tab ++ "script:alert(1)'>x</a>".



Definition article : string :=
  "<h1 id='t'>Title</h1><font color='red'>Read <a href='/more' onclick='f()'>more</a>"
  ++ "</font><script>alert(1)</script><img src='/img.png' alt='figure'>".

End Fragments.
(* ====================================================================== *)
(** * Auxiliary definitions for the statements about the helpers *)
(* ====================================================================== *)

(** The text of a forest of nodes. *)
Module SanitizeText.

Import Sanitize.

(** [node.textContent] for a text node or an element: the text nodes below
    it, in document order; comments have none. *)
Fixpoint textContent (node : Node) : string :=
  match node with
  | TextNode data => data
  | CommentNode _ => ""
  | ElementNode _ _ children => String.concat "" (List.map textContent children)
  end.

(** The text outside every element with a dangerous tag. *)
Fixpoint textOutsideDangerous (node : Node) : string :=
  match node with
  | TextNode data => data
  | CommentNode _ => ""
  | ElementNode tag _ children =>
      if has DANGEROUS_TAGS (Js.toLowerCase tag) then ""
      else String.concat "" (List.map textOutsideDangerous children)
  end.

(** The comments of a node outside every element with a dangerous tag. *)
Fixpoint commentsOutsideDangerous (node : Node) : list string :=
  match node with
  | TextNode _ => []
  | CommentNode data => [data]
  | ElementNode tag _ children =>
      if has DANGEROUS_TAGS (Js.toLowerCase tag) then []
      else List.flat_map commentsOutsideDangerous children
  end.

(** All the comments of a node. *)
Fixpoint commentsOf (node : Node) : list string :=
  match node with
  | TextNode _ => []
  | CommentNode data => [data]
  | ElementNode _ _ children => List.flat_map commentsOf children
  end.

End SanitizeText.

(** Auxiliary definitions for the statements about host names. *)
Module SsrfNames.

(** The characters of the text of an IPv6 address: hexadecimal digits in
    either case, and the colon. *)
Definition hexColon (c : ascii) : bool :=
  (Js.is_digit c || Js.between 97 102 c || Js.between 65 70 c || Ascii.eqb c ":")%bool.

(** The characters of a lower-cased IPv6 text: none is a dot or a bracket. *)
Definition plain6 (c : ascii) : bool :=
  (hexColon c && negb (Ascii.eqb c ".") && negb (Ascii.eqb c "[")
   && negb (Ascii.eqb c "]"))%bool.

(** The suffixes of [BLOCKED_HOSTNAME_PATTERNS]. *)
Definition blockedSuffixes : list string := [".local"; ".internal"; ".localhost"].

End SsrfNames.

(** Auxiliary definitions for the statements about the inputs of discovery. *)
Module Inputs.

(** A letter, a digit, an underscore or a hyphen. *)
Definition isNameChar (c : ascii) : bool :=
  (Js.is_alpha c || Js.is_digit c || Ascii.eqb c "_" || Ascii.eqb c "-")%bool.

(** A string that is empty or has white space neither at its start nor at
    its end. *)
Definition isTrimmed (s : string) : Prop :=
  Js.trimStart s = s /\ Js.trimStart (Js.rev s) = Js.rev s.

End Inputs.

(** Auxiliary definitions for the statements about the responses of a
    discovery. *)
Module Responses.

Import Discover.

(** What the fields of a successful discovery have to do with each other. *)
Definition coherent (r : DiscoverSuccessResponse) : Prop :=
  recommended_feed r = option_map url (List.hd_error (feeds r)) /\
  (feeds r = [] <->
   response_message r = Some "No RSS or Atom feeds found for this URL") /\
  (feeds r <> [] <-> response_message r = None) /\
  (response_metadata r = None <-> content_analysis r = None) /\
  (response_metadata r = None <-> recent_posts r = None) /\
  (forall ps, recent_posts r = Some ps -> List.length ps <= 3) /\
  (forall md, response_metadata r = Some md ->
     md_title md <> "" /\
     exists f rest t, feeds r = f :: rest /\ title f = Some t /\ t <> "") /\
  (input_type r = feed ->
   feeds r = [{| url := normalized_url r;
                 title := option_map md_title (response_metadata r);
                 type := unknown |}]).

(** The successful responses of an outcome are coherent. *)
Definition coherentOutcome (o : Outcome) : Prop :=
  forall st r, o = Responded st (SuccessBody r) -> st = 200%N /\ coherent r.

(** The total of the content lengths of a sample. *)
Definition totalContentLength (sample : list Item) : nat :=
  List.list_sum (List.map contentLength sample).

End Responses.

(* ====================================================================== *)
(** * lib/config.ts: the limits and the header lists of the fetch endpoint *)
(* ====================================================================== *)

(** Size limit in bytes. *)
Definition MAX_RESPONSE_SIZE (env : Environment) : N :=
  (MAX_RESPONSE_SIZE_MB env * 1024 * 1024)%N.

(** Headers to extract from fetch responses. *)
Definition HEADERS_TO_EXTRACT : list string := [
  "content-type";
  "etag";
  "last-modified";
  "cache-control";
  "content-length"
].

(** Headers that can be forwarded from client requests. *)
Definition ALLOWED_FORWARD_HEADERS : list string := ["if-none-match"; "if-modified-since"].

(* ====================================================================== *)
(** * JavaScript objects and numbers *)
(* ====================================================================== *)

Module JsObject.

(** [o[key] = value] on an object kept as the list of its properties in
    insertion order: the value of an existing key is replaced in place, a new
    key goes last.  (Keys that are array indices, which JavaScript lists
    first, do not occur as header names.) *)
Fixpoint set {A : Type} (o : list (string * A)) (key : string) (value : A)
  : list (string * A) :=
  match o with
  | [] => [(key, value)]
  | (k, v) :: r =>
      if String.eqb k key then (k, value) :: r else (k, v) :: set r key value
  end.

(** The keys ["0"], ["1"], ... of an array or of a string. *)
Fixpoint indexed {A : Type} (i : N) (l : list A) : list (string * A) :=
  match l with
  | [] => []
  | x :: r => (Whatwg.decimal i, x) :: indexed (i + 1) r
  end.

Fixpoint characters (s : string) : list JsValue :=
  match s with
  | EmptyString => []
  | String c r => JString (String c "") :: characters r
  end.

(** [Object.entries(v)]: the fields of an object, each key once, in property
    order; the indexed elements of an array and the indexed characters of a
    string; nothing for the other values. *)
Definition entries (v : JsValue) : list (string * JsValue) :=
  match v with
  | JObject fields => fields
  | JArray items => indexed 0 items
  | JString s => indexed 0 (characters s)
  | _ => []
  end.

(** [body.name] for a body that is not [null] or [undefined]. *)
Definition get (body : JsValue) (name : string) : JsValue :=
  match body with
  | JObject fields =>
      match assoc name fields with Some v => v | None => JUndefined end
  | _ => JUndefined
  end.

End JsObject.

Module JsNumber.

Fixpoint digitsValue (s : string) (acc : Z) : Z :=
  match s with
  | EmptyString => acc
  | String c r => digitsValue r (acc * 10 + Z.of_N (Js.code c - 48))
  end.

(** [parseInt(s, 10)]: leading white space is skipped, a sign is read, then
    the longest run of decimal digits; [None] is [NaN], the answer when there
    is no digit.  The value is the exact integer; comparing it with a limit
    below 2^53 gives what the comparison of the rounded numbers gives. *)
Definition parseInt10 (s : string) : option Z :=
  let t := Js.trimStart s in
  let (sign, rest) :=
    match t with
    | String "-" r => ((-1)%Z, r)
    | String "+" r => (1%Z, r)
    | _ => (1%Z, t)
    end in
  let digits := fst (Whatwg.span Js.is_digit rest) in
  if Js.truthy digits then Some (sign * digitsValue digits 0)%Z else None.

(** [x > limit] for [x] the result of [parseInt]: false on [NaN]. *)
Definition exceeds (x : option Z) (limit : N) : bool :=
  match x with
  | Some z => Z.ltb (Z.of_N limit) z
  | None => false
  end.

End JsNumber.

(* ====================================================================== *)
(** * The fetch API, as api/fetch.ts and api/parse.ts use it *)
(* ====================================================================== *)

Module Upstream.

(** [fetch(url, { method, headers, signal, redirect: 'follow' })] *)
Record Request : Type := {
  request_url : string;
  request_method : string;
  request_headers : list (string * JsValue)
}.

Record Response : Type := {
  rsp_ok : bool;
  rsp_status : N;
  rsp_statusText : string;
  rsp_header : string -> option string;      (* headers.get(name) *)
  rsp_arrayBuffer : Completion string        (* the bytes of the body *)
}.

(** The [catch] around a fetch: a timeout, or a failure with its message. *)
Definition isTimeout (e : Thrown) : bool :=
  match e with
  | ErrorObject name message =>
      (String.eqb name "AbortError" || Js.includes message "timeout")%bool
  | NonError => false
  end.

Definition failureCode (e : Thrown) : string :=
  if isTimeout e then ErrorCodes.TIMEOUT else ErrorCodes.FETCH_FAILED.

Definition failureMessage (e : Thrown) : string :=
  if isTimeout e then "Request timed out"
  else match e with
       | ErrorObject _ message => message
       | NonError => "Network error during fetch"
       end.

(** [error instanceof Error ? error.message : fallback] *)
Definition messageOr (e : Thrown) (fallback : string) : string :=
  match e with
  | ErrorObject _ message => message
  | NonError => fallback
  end.

End Upstream.

(* ====================================================================== *)
(** * api/fetch.ts *)
(* ====================================================================== *)

Module Fetch.

Import Discover Upstream Cors.

(** The outside world of a request: the network, which answers knowing the
    calls made before and decides when a call times out, the JSON parser and
    the text decoder. *)
Record World : Type := {
  w_fetch : list Event -> Request -> Completion Response;
  w_JSON_parse : string -> Completion JsValue;
  w_decode : string -> string                 (* new TextDecoder().decode(bytes) *)
}.

(** The [status] field of an error: absent, [null], or a number. *)
Inductive ErrorStatus : Type :=
| NoStatus
| NullStatus
| HttpStatus (n : N).

Record FetchError : Type := {
  err_code : string;
  err_message : string;
  err_status : ErrorStatus
}.

(** What [res.json(...)] is given. *)
Inductive Body : Type :=
| AuthErrorBody (error : option string)            (* { ok: false, error } *)
| ErrorBody (error : option FetchError)            (* { success: false, error } *)
| SuccessBody (status : N) (headers : list (string * string))
              (body : option string).              (* { success: true, status, headers, body } *)

Definition extractHeaders (responseHeaders : string -> option string)
    (headersToExtract : list string) : list (string * string) :=
  List.fold_left
    (fun result header =>
       match responseHeaders header with
       | Some value => JsObject.set result header value
       | None => result
       end)
    headersToExtract [].

Definition filterForwardHeaders (clientHeaders : JsValue) : list (string * JsValue) :=
  if negb (value_truthy clientHeaders) then []
  else
    List.fold_left
      (fun result entry =>
         if Sanitize.has ALLOWED_FORWARD_HEADERS (Js.toLowerCase (fst entry))
         then JsObject.set result (fst entry) (snd entry)
         else result)
      (JsObject.entries clientHeaders) [].

(** [{ 'User-Agent': ..., Accept: ..., ...forwardHeaders }] *)
Definition requestHeaders (forwardHeaders : list (string * JsValue))
  : list (string * JsValue) :=
  List.fold_left
    (fun headers entry => JsObject.set headers (fst entry) (snd entry))
    forwardHeaders
    [("User-Agent", JString "BlogsAreBack/1.0 (CORS Proxy)");
     ("Accept",
      JString "application/rss+xml, application/atom+xml, application/xml, text/xml, */*")].

(** [fetch(url, { method: 'GET', headers, ... })] *)
Definition fetch (w : World) (request : Request) : Net (Completion Response) :=
  fun log =>
    (w_fetch w log request,
     (log ++ [Fetched (request_method request) (request_url request)])%list).

(** [res.status(code).json(body)] *)
Definition respond (res : VercelResponse Body) (code : N) (body : Body)
  : VercelResponse Body :=
  json (Cors.status res code) body.

Definition errorBody (code message : string) (status : ErrorStatus) : Body :=
  ErrorBody (Some {| err_code := code; err_message := message; err_status := status |}).

Definition tooLarge (env : Environment) (status : N) : Body :=
  errorBody ErrorCodes.CONTENT_TOO_LARGE
    ("Response exceeds maximum size of "
     ++ Whatwg.decimal (MAX_RESPONSE_SIZE_MB env) ++ "MB")
    (HttpStatus status).

(** [typeof req.body === 'string' ? JSON.parse(req.body) : req.body] *)
Definition parseBody (w : World) (req : VercelRequest) : Completion JsValue :=
  match req_body req with
  | JString text => w_JSON_parse w text
  | v => Normal v
  end.

(** The handler from the fetch onwards, for a validated URL. *)
Definition fetchFeed (env : Environment) (w : World) (res : VercelResponse Body)
    (bodyUrl : string) (body : JsValue) : Net (VercelResponse Body) :=
  let forwardHeaders := filterForwardHeaders (JsObject.get body "headers") in
  response <- fetch w {| request_url := bodyUrl;
                         request_method := "GET";
                         request_headers := requestHeaders forwardHeaders |} ;;
  ret match response with
      | Throw e =>
          respond res 200 (errorBody (failureCode e) (failureMessage e) NullStatus)
      | Normal response =>
          (* 304 Not Modified *)
          if N.eqb (rsp_status response) 304 then
            respond res 200
              (SuccessBody 304 (extractHeaders (rsp_header response) HEADERS_TO_EXTRACT)
                 None)
          else
            let contentLength := rsp_header response "content-length" in
            if (Js.opt_truthy contentLength &&
                JsNumber.exceeds
                  (JsNumber.parseInt10 (Js.opt_or contentLength ""))
                  (MAX_RESPONSE_SIZE env))%bool
            then respond res 200 (tooLarge env (rsp_status response))
            else
              match rsp_arrayBuffer response with
              | Normal arrayBuffer =>
                  if N.ltb (MAX_RESPONSE_SIZE env) (N.of_nat (String.length arrayBuffer))
                  then respond res 200 (tooLarge env (rsp_status response))
                  else
                    respond res 200
                      (SuccessBody (rsp_status response)
                         (extractHeaders (rsp_header response) HEADERS_TO_EXTRACT)
                         (Some (w_decode w arrayBuffer)))
              | Throw e =>
                  respond res 200
                    (errorBody ErrorCodes.FETCH_FAILED
                       (messageOr e "Failed to read response body")
                       (HttpStatus (rsp_status response)))
              end
      end.

Definition handler `{UrlApi} (env : Environment) (cfg : Config) (w : World)
    (req : VercelRequest) (res : VercelResponse Body)
  : Net (Completion (VercelResponse Body)) :=
  if String.eqb (req_method req) "OPTIONS" then ret (handleOptions env res)
  else
    match setCorsHeaders env res with
    | Throw e => ret (Throw e)
    | Normal res =>
        if negb (String.eqb (req_method req) "POST") then
          ret (Normal (respond res 405
                         (errorBody "METHOD_NOT_ALLOWED" "Method not allowed" NoStatus)))
        else
          match Auth.validateAuth cfg req with
          | Throw e => ret (Throw e)
          | Normal auth =>
              if negb (Auth.authenticated auth) then
                ret (Normal (respond res 401 (AuthErrorBody (Auth.error auth))))
              else
                match parseBody w req with
                | Throw _ =>
                    ret (Normal (respond res 400
                                   (errorBody ErrorCodes.INVALID_URL
                                      "Invalid request body" NoStatus)))
                | Normal body =>
                    match get_url body with
                    | Throw e => ret (Throw e)
                    | Normal (JString bodyUrl) =>
                        if negb (Js.truthy bodyUrl) then
                          ret (Normal (respond res 400
                                         (errorBody ErrorCodes.INVALID_URL
                                            "Missing required field: url" NoStatus)))
                        else
                          let urlValidation := Ssrf.validateUrl bodyUrl in
                          if negb (Ssrf.valid urlValidation) then
                            ret (Normal
                                   (respond res 200
                                      (ErrorBody
                                         (option_map
                                            (fun e => {| err_code := Ssrf.code e;
                                                         err_message := Ssrf.message e;
                                                         err_status := NoStatus |})
                                            (Ssrf.error urlValidation)))))
                          else
                            sent <- fetchFeed env w res bodyUrl body ;;
                            ret (Normal sent)
                    | Normal _ =>
                        (* a [url] that is missing or not a string *)
                        ret (Normal (respond res 400
                                       (errorBody ErrorCodes.INVALID_URL
                                          "Missing required field: url" NoStatus)))
                    end
                end
          end
    end.

End Fetch.

(* ====================================================================== *)
(** * api/parse.ts *)
(* ====================================================================== *)

Module Parse.

Import Discover Upstream Cors.

(** What [Readability] hands back for a document. *)
Record Article : Type := {
  article_title : option string;
  article_byline : option string;
  article_siteName : option string;
  article_excerpt : option string;
  article_length : option N;
  article_content : option string;
  article_textContent : option string
}.

(** The outside world of a request: the network, the JSON parser, the text
    decoder, the HTML parser and Readability. *)
Record World : Type := {
  w_fetch : list Event -> Request -> Completion Response;
  w_JSON_parse : string -> Completion JsValue;
  w_decode : string -> string;                       (* new TextDecoder().decode(bytes) *)
  w_parseHTML : string -> Completion Document;
  w_Readability : Document -> Completion (option Article)
                                                     (* new Readability(document, ...).parse() *)
}.

Record ParseError : Type := {
  err_code : string;
  err_message : string
}.

Record ParseSuccessResponse : Type := {
  title : option string;
  byline : option string;
  siteName : option string;
  excerpt : option string;
  length : N;
  htmlContent : option string;        (* absent unless the format asks for HTML *)
  content : option string;
  textContent : option string;        (* absent unless the format asks for text *)
  image : option string
}.

(** What [res.json(...)] is given. *)
Inductive Body : Type :=
| AuthErrorBody (error : option string)            (* { ok: false, error } *)
| ErrorBody (error : option ParseError)            (* { success: false, error } *)
| SuccessBody (r : ParseSuccessResponse).          (* { success: true, ... } *)

(** og:image, then twitter:image, then the first image of the article. *)
Definition extractOgImage `{UrlApi} (document : Document) (baseUrl : string)
  : option string :=
  match truthyAttribute (querySelector document ("meta" ++ attr_sel "property" "og:image"))
          "content" with
  | Some content => Some (resolveUrl content baseUrl)
  | None =>
      match truthyAttribute
              (querySelector document ("meta" ++ attr_sel "name" "twitter:image"))
              "content" with
      | Some content => Some (resolveUrl content baseUrl)
      | None =>
          match truthyAttribute (querySelector document "article img[src]") "src" with
          | Some src => Some (resolveUrl src baseUrl)
          | None => None
          end
      end
  end.

(** og:site_name, then application-name. *)
Definition extractSiteName (document : Document) : option string :=
  match truthyAttribute
          (querySelector document ("meta" ++ attr_sel "property" "og:site_name"))
          "content" with
  | Some content => Some content
  | None =>
      truthyAttribute
        (querySelector document ("meta" ++ attr_sel "name" "application-name"))
        "content"
  end.

Definition fetch (w : World) (request : Request) : Net (Completion Response) :=
  fun log =>
    (w_fetch w log request,
     (log ++ [Fetched (request_method request) (request_url request)])%list).

(** [res.status(code).json(body)] *)
Definition respond (res : VercelResponse Body) (code : N) (body : Body)
  : VercelResponse Body :=
  json (Cors.status res code) body.

Definition errorBody (code message : string) : Body :=
  ErrorBody (Some {| err_code := code; err_message := message |}).

Definition tooLarge (cfg : Config) : Body :=
  errorBody ErrorCodes.CONTENT_TOO_LARGE
    ("HTML exceeds maximum size of " ++ Whatwg.decimal (MAX_HTML_SIZE_MB cfg) ++ "MB").

(** [typeof req.body === 'string' ? JSON.parse(req.body) : req.body] *)
Definition parseBody (w : World) (req : VercelRequest) : Completion JsValue :=
  match req_body req with
  | JString text => w_JSON_parse w text
  | v => Normal v
  end.

(** [body.format || 'both'] *)
Definition formatOf (body : JsValue) : JsValue :=
  let format := JsObject.get body "format" in
  if value_truthy format then format else JString "both".

(** [format === name] *)
Definition formatIs (format : JsValue) (name : string) : bool :=
  match format with
  | JString s => String.eqb s name
  | _ => false
  end.

(** [['html', 'text', 'both'].includes(format)] *)
Definition knownFormat (format : JsValue) : bool :=
  (formatIs format "html" || formatIs format "text" || formatIs format "both")%bool.

Definition invalidFormatMessage : string :=
  "Invalid format: must be " ++ String Whatwg.dquote "html" ++ String Whatwg.dquote ", "
  ++ String Whatwg.dquote "text" ++ String Whatwg.dquote ", or "
  ++ String Whatwg.dquote "both" ++ String Whatwg.dquote "".

(** The request headers of the page fetch. *)
Definition pageRequest (bodyUrl : string) : Request :=
  {| request_url := bodyUrl;
     request_method := "GET";
     request_headers :=
       [("User-Agent",
         JString "Mozilla/5.0 (compatible; BlogsAreBack/1.0; +https://blogsareback.com)");
        ("Accept", JString "text/html, application/xhtml+xml, */*")] |}.

(** The fetch of the page: its HTML, or the body that reports why there is
    none. *)
Definition fetchPage (cfg : Config) (w : World) (bodyUrl : string)
  : Net (Body + string) :=
  response <- fetch w (pageRequest bodyUrl) ;;
  ret match response with
      | Throw e => inl (errorBody (failureCode e) (failureMessage e))
      | Normal response =>
          if negb (rsp_ok response) then
            inl (errorBody ErrorCodes.FETCH_FAILED
                   ("HTTP " ++ Whatwg.decimal (rsp_status response) ++ ": "
                    ++ rsp_statusText response))
          else
            let contentLength := rsp_header response "content-length" in
            if (Js.opt_truthy contentLength &&
                JsNumber.exceeds
                  (JsNumber.parseInt10 (Js.opt_or contentLength ""))
                  (MAX_HTML_SIZE cfg))%bool
            then inl (tooLarge cfg)
            else
              match rsp_arrayBuffer response with
              | Normal arrayBuffer =>
                  if N.ltb (MAX_HTML_SIZE cfg) (N.of_nat (String.length arrayBuffer))
                  then inl (tooLarge cfg)
                  else inr (w_decode w arrayBuffer)
              | Throw e => inl (errorBody (failureCode e) (failureMessage e))
              end
      end.

(** The response built from an article, for a known format. *)
Definition articleResponse `{UrlApi} `{Sanitize.DomApi} (format : JsValue)
    (bodyUrl : string) (article : Article) (image siteName : option string)
  : ParseSuccessResponse :=
  let wantsHtml := (formatIs format "html" || formatIs format "both")%bool in
  let wantsText := (formatIs format "text" || formatIs format "both")%bool in
  let sanitizedHtml :=
    Sanitize.sanitizeHtml (Js.opt_or (article_content article) "") bodyUrl in
  {| title := or_null (article_title article);
     byline := or_null (article_byline article);
     siteName := match or_null (article_siteName article) with
                 | Some name => Some name
                 | None => siteName
                 end;
     excerpt := or_null (article_excerpt article);
     length := match article_length article with Some n => n | None => 0%N end;
     htmlContent := if wantsHtml then Some sanitizedHtml else None;
     content := if wantsHtml then Some sanitizedHtml else None;
     textContent := if wantsText
                    then Some (Js.opt_or (article_textContent article) "")
                    else None;
     image := image |}.

(** The handler from the parsing of the HTML onwards. *)
Definition readPage `{UrlApi} `{Sanitize.DomApi} (w : World) (format : JsValue)
    (bodyUrl html : string) : Body :=
  match w_parseHTML w html with
  | Throw e => errorBody ErrorCodes.PARSE_FAILED (messageOr e "Failed to parse HTML")
  | Normal document =>
      (* the metadata is extracted before Readability modifies the document *)
      let image := extractOgImage document bodyUrl in
      let siteName := extractSiteName document in
      match w_Readability w document with
      | Throw e =>
          errorBody ErrorCodes.PARSE_FAILED
            (messageOr e "Readability failed to parse content")
      | Normal None =>
          errorBody ErrorCodes.PARSE_FAILED "Could not extract article content"
      | Normal (Some extracted) =>
          SuccessBody (articleResponse format bodyUrl extracted image siteName)
      end
  end.

Definition handler `{UrlApi} `{Sanitize.DomApi} (env : Environment) (cfg : Config)
    (w : World) (req : VercelRequest) (res : VercelResponse Body)
  : Net (Completion (VercelResponse Body)) :=
  if String.eqb (req_method req) "OPTIONS" then ret (handleOptions env res)
  else
    match setCorsHeaders env res with
    | Throw e => ret (Throw e)
    | Normal res =>
        if negb (String.eqb (req_method req) "POST") then
          ret (Normal (respond res 405
                         (errorBody "METHOD_NOT_ALLOWED" "Method not allowed")))
        else
          match Auth.validateAuth cfg req with
          | Throw e => ret (Throw e)
          | Normal auth =>
              if negb (Auth.authenticated auth) then
                ret (Normal (respond res 401 (AuthErrorBody (Auth.error auth))))
              else
                match parseBody w req with
                | Throw _ =>
                    ret (Normal (respond res 400
                                   (errorBody ErrorCodes.INVALID_URL
                                      "Invalid request body")))
                | Normal body =>
                    match get_url body with
                    | Throw e => ret (Throw e)
                    | Normal (JString bodyUrl) =>
                        if negb (Js.truthy bodyUrl) then
                          ret (Normal (respond res 400
                                         (errorBody ErrorCodes.INVALID_URL
                                            "Missing required field: url")))
                        else
                          let urlValidation := Ssrf.validateUrl bodyUrl in
                          if negb (Ssrf.valid urlValidation) then
                            ret (Normal
                                   (respond res 200
                                      (ErrorBody
                                         (option_map
                                            (fun e => {| err_code := Ssrf.code e;
                                                         err_message := Ssrf.message e |})
                                            (Ssrf.error urlValidation)))))
                          else
                            let format := formatOf body in
                            if negb (knownFormat format) then
                              ret (Normal (respond res 400
                                             (errorBody ErrorCodes.INVALID_URL
                                                invalidFormatMessage)))
                            else
                              fetched <- fetchPage cfg w bodyUrl ;;
                              ret (Normal
                                     (respond res 200
                                        match fetched with
                                        | inl failure => failure
                                        | inr html => readPage w format bodyUrl html
                                        end))
                    | Normal _ =>
                        (* a [url] that is missing or not a string *)
                        ret (Normal (respond res 400
                                       (errorBody ErrorCodes.INVALID_URL
                                          "Missing required field: url")))
                    end
                end
          end
    end.

End Parse.

(** Auxiliary definitions for the statements about the two handlers. *)
Module Handlers.

Import Cors.

(** The CORS headers are set on a response, with the values of the
    environment. *)
Definition corsHeadersSet {B : Type} (env : Environment) (res : VercelResponse B)
  : Prop :=
  forall name value, In (name, value) (getCorsHeaders env) ->
                     getHeader res name = Some value.

(** A response was sent. *)
Definition wasSent {B : Type} (res : VercelResponse B) : bool :=
  match res_sent res with Some _ => true | None => false end.

(** The elements of a forest have no dangerous tag, and each has an allowed
    tag or is html, head or body. *)
Definition cleanTree (nodes : list Sanitize.Node) : Prop :=
  forall tag attrs, In (tag, attrs) (Sanitize.elements nodes) ->
    Sanitize.has Sanitize.DANGEROUS_TAGS (Js.toLowerCase tag) = false /\
    (Sanitize.has Sanitize.ALLOWED_TAGS (Js.toLowerCase tag) = true \/
     Sanitize.isStructure (Js.toLowerCase tag) = true).

End Handlers.

(** Auxiliary definitions for the statements about the fetch handler. *)
Module FetchRuns.

Import Discover Upstream Cors Fetch.

(** The request the handler sends for a body and its URL. *)
Definition requestFor (bodyUrl : string) (body : JsValue) : Request :=
  {| request_url := bodyUrl;
     request_method := "GET";
     request_headers :=
       requestHeaders (filterForwardHeaders (JsObject.get body "headers")) |}.

(** How a run of the handler ends, case by case. *)
Inductive Run `{UrlApi} (env : Environment) (cfg : Config) (w : World)
    (req : VercelRequest) (res : VercelResponse Body) (log : list Event)
  : Completion (VercelResponse Body) * list Event -> Prop :=
| RunPreflight :
    req_method req = "OPTIONS" ->
    Run env cfg w req res log (handleOptions env res, log)
| RunNoHeaders e :
    req_method req <> "OPTIONS" ->
    setCorsHeaders env res = Throw e ->
    Run env cfg w req res log (Throw e, log)
| RunMethod res1 :
    req_method req <> "OPTIONS" -> req_method req <> "POST" ->
    setCorsHeaders env res = Normal res1 ->
    Run env cfg w req res log
      (Normal (respond res1 405
                 (errorBody "METHOD_NOT_ALLOWED" "Method not allowed" NoStatus)), log)
| RunAuthThrows res1 e :
    req_method req = "POST" ->
    setCorsHeaders env res = Normal res1 ->
    Auth.validateAuth cfg req = Throw e ->
    Run env cfg w req res log (Throw e, log)
| RunUnauthorized res1 auth :
    req_method req = "POST" ->
    setCorsHeaders env res = Normal res1 ->
    Auth.validateAuth cfg req = Normal auth ->
    Auth.authenticated auth = false ->
    Run env cfg w req res log (Normal (respond res1 401 (AuthErrorBody (Auth.error auth))), log)
| RunBadBody res1 message :
    req_method req = "POST" ->
    setCorsHeaders env res = Normal res1 ->
    Auth.accepted (Auth.validateAuth cfg req) = true ->
    (message = "Invalid request body" /\ (exists e, parseBody w req = Throw e) \/
     message = "Missing required field: url" /\
     exists body v, parseBody w req = Normal body /\ get_url body = Normal v /\
                    (value_truthy v = false \/ is_string v = false)) ->
    Run env cfg w req res log
      (Normal (respond res1 400 (errorBody ErrorCodes.INVALID_URL message NoStatus)), log)
| RunBodyThrows res1 body e :
    req_method req = "POST" ->
    setCorsHeaders env res = Normal res1 ->
    Auth.accepted (Auth.validateAuth cfg req) = true ->
    parseBody w req = Normal body ->
    get_url body = Throw e ->
    Run env cfg w req res log (Throw e, log)
| RunRefused res1 body bodyUrl e :
    req_method req = "POST" ->
    setCorsHeaders env res = Normal res1 ->
    Auth.accepted (Auth.validateAuth cfg req) = true ->
    parseBody w req = Normal body ->
    get_url body = Normal (JString bodyUrl) ->
    Ssrf.valid (Ssrf.validateUrl bodyUrl) = false ->
    Ssrf.error (Ssrf.validateUrl bodyUrl) = Some e ->
    Run env cfg w req res log
      (Normal (respond res1 200 (errorBody (Ssrf.code e) (Ssrf.message e) NoStatus)),
       log)
| RunFetched res1 body bodyUrl :
    req_method req = "POST" ->
    setCorsHeaders env res = Normal res1 ->
    Auth.accepted (Auth.validateAuth cfg req) = true ->
    parseBody w req = Normal body ->
    get_url body = Normal (JString bodyUrl) ->
    bodyUrl <> "" ->
    Ssrf.valid (Ssrf.validateUrl bodyUrl) = true ->
    Run env cfg w req res log
      (Normal (fst (fetchFeed env w res1 bodyUrl body log)),
       snd (fetchFeed env w res1 bodyUrl body log)).

End FetchRuns.

(** Worlds and requests for running the fetch handler on concrete inputs. *)
Module FetchScenario.

Import Upstream Fetch.

Definition env : Environment :=
  {| ALLOWED_ORIGINS_env := None; MAX_RESPONSE_SIZE_MB := 10 |}.

(** An upstream answer 404 with a short body and a cookie. *)
Definition gone : Response :=
  {| rsp_ok := false; rsp_status := 404; rsp_statusText := "Not Found";
     rsp_header := fun name =>
       if String.eqb name "content-type" then Some "text/plain"
       else if String.eqb name "set-cookie" then Some "session=1"
       else None;
     rsp_arrayBuffer := Normal "gone" |}.

Definition goneWorld : World :=
  {| w_fetch := fun _ _ => Normal gone;
     w_JSON_parse := fun _ => Throw (ErrorObject "SyntaxError" "Unexpected token");
     w_decode := fun bytes => bytes |}.

(** An upstream that does not answer in time. *)
Definition slowWorld : World :=
  {| w_fetch := fun _ _ => Throw (ErrorObject "AbortError" "This operation was aborted");
     w_JSON_parse := fun _ => Throw (ErrorObject "SyntaxError" "Unexpected token");
     w_decode := fun bytes => bytes |}.

(** A request for a feed with a validator of the client and a cookie. *)
Definition conditional (url : string) : VercelRequest :=
  Scenario.post
    (JObject [("url", JString url);
              ("headers", JObject [("If-None-Match", JString "abc");
                                   ("Cookie", JString "id=7")])]).

End FetchScenario.

(** Auxiliary definitions for the statements about the parse handler. *)
Module ParseRuns.

Import Discover Upstream Cors Parse.

(** How a run of the handler ends, case by case. *)
Inductive Run `{UrlApi} `{Sanitize.DomApi} (env : Environment) (cfg : Config)
    (w : World) (req : VercelRequest) (res : VercelResponse Body) (log : list Event)
  : Completion (VercelResponse Body) * list Event -> Prop :=
| RunPreflight :
    req_method req = "OPTIONS" ->
    Run env cfg w req res log (handleOptions env res, log)
| RunNoHeaders e :
    req_method req <> "OPTIONS" ->
    setCorsHeaders env res = Throw e ->
    Run env cfg w req res log (Throw e, log)
| RunMethod res1 :
    req_method req <> "OPTIONS" -> req_method req <> "POST" ->
    setCorsHeaders env res = Normal res1 ->
    Run env cfg w req res log
      (Normal (respond res1 405
                 (errorBody "METHOD_NOT_ALLOWED" "Method not allowed")), log)
| RunAuthThrows res1 e :
    req_method req = "POST" ->
    setCorsHeaders env res = Normal res1 ->
    Auth.validateAuth cfg req = Throw e ->
    Run env cfg w req res log (Throw e, log)
| RunUnauthorized res1 auth :
    req_method req = "POST" ->
    setCorsHeaders env res = Normal res1 ->
    Auth.validateAuth cfg req = Normal auth ->
    Auth.authenticated auth = false ->
    Run env cfg w req res log
      (Normal (respond res1 401 (AuthErrorBody (Auth.error auth))), log)
| RunBadBody res1 message :
    req_method req = "POST" ->
    setCorsHeaders env res = Normal res1 ->
    Auth.accepted (Auth.validateAuth cfg req) = true ->
    (message = "Invalid request body" /\ (exists e, parseBody w req = Throw e) \/
     message = "Missing required field: url" /\
     exists data v, parseBody w req = Normal data /\ get_url data = Normal v /\
                    (value_truthy v = false \/ is_string v = false)) ->
    Run env cfg w req res log
      (Normal (respond res1 400 (errorBody ErrorCodes.INVALID_URL message)), log)
| RunBodyThrows res1 data e :
    req_method req = "POST" ->
    setCorsHeaders env res = Normal res1 ->
    Auth.accepted (Auth.validateAuth cfg req) = true ->
    parseBody w req = Normal data ->
    get_url data = Throw e ->
    Run env cfg w req res log (Throw e, log)
| RunRefused res1 data bodyUrl e :
    req_method req = "POST" ->
    setCorsHeaders env res = Normal res1 ->
    Auth.accepted (Auth.validateAuth cfg req) = true ->
    parseBody w req = Normal data ->
    get_url data = Normal (JString bodyUrl) ->
    Ssrf.valid (Ssrf.validateUrl bodyUrl) = false ->
    Ssrf.error (Ssrf.validateUrl bodyUrl) = Some e ->
    Run env cfg w req res log
      (Normal (respond res1 200 (errorBody (Ssrf.code e) (Ssrf.message e))), log)
| RunBadFormat res1 data bodyUrl :
    req_method req = "POST" ->
    setCorsHeaders env res = Normal res1 ->
    Auth.accepted (Auth.validateAuth cfg req) = true ->
    parseBody w req = Normal data ->
    get_url data = Normal (JString bodyUrl) ->
    Ssrf.valid (Ssrf.validateUrl bodyUrl) = true ->
    knownFormat (formatOf data) = false ->
    Run env cfg w req res log
      (Normal (respond res1 400 (errorBody ErrorCodes.INVALID_URL invalidFormatMessage)),
       log)
| RunFetched res1 data bodyUrl :
    req_method req = "POST" ->
    setCorsHeaders env res = Normal res1 ->
    Auth.accepted (Auth.validateAuth cfg req) = true ->
    parseBody w req = Normal data ->
    get_url data = Normal (JString bodyUrl) ->
    bodyUrl <> "" ->
    Ssrf.valid (Ssrf.validateUrl bodyUrl) = true ->
    knownFormat (formatOf data) = true ->
    Run env cfg w req res log
      (Normal (respond res1 200
                 match fst (fetchPage cfg w bodyUrl log) with
                 | inl failure => failure
                 | inr html => readPage w (formatOf data) bodyUrl html
                 end),
       snd (fetchPage cfg w bodyUrl log)).

(** The format asks for the HTML, for the text. *)
Definition wantsHtml (format : JsValue) : bool :=
  (formatIs format "html" || formatIs format "both")%bool.

Definition wantsText (format : JsValue) : bool :=
  (formatIs format "text" || formatIs format "both")%bool.

End ParseRuns.

(** Worlds and requests for running the parse handler on concrete inputs. *)
Module ParseScenario.

Import Discover Upstream Parse.

(** A page of 20 bytes, announced as such. *)
Definition page : Response :=
  {| rsp_ok := true; rsp_status := 200; rsp_statusText := "OK";
     rsp_header := fun name =>
       if String.eqb name "content-length" then Some "20" else None;
     rsp_arrayBuffer := Normal "<p>Hello, world.</p>" |}.

(** The article Readability finds in it, with a script added. *)
Definition found : Article :=
  {| article_title := Some "Hello";
     article_byline := None;
     article_siteName := None;
     article_excerpt := Some "Hello, world.";
     article_length := Some 13%N;
     article_content := Some "<p onclick='f()'>Hello, world.</p><script>x()</script>";
     article_textContent := Some "Hello, world." |}.

(** The document of the page, which names its site. *)
Definition document : Document :=
  {| querySelectorAll := fun selector =>
       if String.eqb selector ("meta" ++ attr_sel "property" "og:site_name")
       then [{| attributes := [("property", "og:site_name"); ("content", "Example")] |}]
       else [] |}.

Definition pageWorld : World :=
  {| w_fetch := fun _ _ => Normal page;
     w_JSON_parse := fun _ => Throw (ErrorObject "SyntaxError" "Unexpected token");
     w_decode := fun bytes => bytes;
     w_parseHTML := fun _ => Normal document;
     w_Readability := fun _ => Normal (Some found) |}.

(** A request for the text only. *)
Definition textRequest (url : string) : VercelRequest :=
  Scenario.post (JObject [("url", JString url); ("format", JString "text")]).

End ParseScenario.

(* ====================================================================== *)
(** * Proofs *)
(* ====================================================================== *)

(* ---------------------------------------------------------------------- *)
(** ** Facts about the string primitives *)
(* ---------------------------------------------------------------------- *)

Section JsFacts.

Import Js.

Lemma append_nil_r (s : string) : s ++ "" = s.
Proof. induction s as [|c s IH]; simpl; [reflexivity | now rewrite IH]. Qed.

Lemma append_assoc (a b c : string) : (a ++ b) ++ c = a ++ (b ++ c).
Proof. induction a as [|x a IH]; simpl; [reflexivity | now rewrite IH]. Qed.

Lemma length_append (a b : string) :
  String.length (a ++ b) = String.length a + String.length b.
Proof. induction a as [|x a IH]; simpl; [reflexivity | now rewrite IH]. Qed.

Lemma repeat_char_length (c : ascii) (n : nat) :
  String.length (repeat_char c n) = n.
Proof. induction n as [|n IH]; simpl; [reflexivity | now rewrite IH]. Qed.

Lemma toLowerCase_append (a b : string) :
  toLowerCase (a ++ b) = toLowerCase a ++ toLowerCase b.
Proof. induction a as [|x a IH]; simpl; [reflexivity | now rewrite IH]. Qed.

Lemma rev_acc_append (s acc : string) : rev_acc s acc = rev s ++ acc.
Proof.
  unfold rev. revert acc.
  induction s as [|c s IH]; intro acc; simpl; [reflexivity|].
  rewrite (IH (String c acc)), (IH (String c "")), append_assoc. reflexivity.
Qed.

Lemma rev_append (a b : string) : rev (a ++ b) = rev b ++ rev a.
Proof.
  induction a as [|x a IH]; simpl.
  - now rewrite append_nil_r.
  - unfold rev at 1 3. simpl. rewrite !rev_acc_append, IH, append_assoc.
    reflexivity.
Qed.

Lemma rev_involutive (s : string) : rev (rev s) = s.
Proof.
  induction s as [|c s IH]; [reflexivity|].
  unfold rev at 2. simpl. rewrite rev_acc_append, rev_append, IH. reflexivity.
Qed.

Lemma prefix_nil (s : string) : String.prefix "" s = true.
Proof. destruct s; reflexivity. Qed.

Lemma prefix_append (p s : string) : String.prefix p (p ++ s) = true.
Proof.
  induction p as [|c p IH]; simpl; [apply prefix_nil|].
  destruct (ascii_dec c c) as [_|n]; [exact IH | now elim n].
Qed.

(** A prefix test is decided by any long-enough beginning of the string. *)
Lemma prefix_decided (p a b : string) :
  String.length p <= String.length a ->
  String.prefix p (a ++ b) = String.prefix p a.
Proof.
  revert a. induction p as [|c p IH]; intros a Hlen.
  - now rewrite !prefix_nil.
  - destruct a as [|x a]; simpl in Hlen; [lia|]. simpl.
    destruct (ascii_dec c x); [apply IH; lia | reflexivity].
Qed.

Lemma prefix_first (p s : string) (c d : ascii) :
  c <> d -> String.prefix (String c p) (String d s) = false.
Proof. intro H. simpl. destruct (ascii_dec c d); [contradiction | reflexivity]. Qed.

Lemma prefix_exists (p s : string) :
  String.prefix p s = true <-> exists r, s = p ++ r.
Proof.
  split.
  - revert s. induction p as [|c p IH]; intros s H.
    + exists s. reflexivity.
    + destruct s as [|d s]; simpl in H; [discriminate|].
      destruct (ascii_dec c d) as [->|]; [|discriminate].
      destruct (IH _ H) as [r ->]. exists r. reflexivity.
  - intros [r ->]. apply prefix_append.
Qed.

End JsFacts.


(* ---------------------------------------------------------------------- *)
(** ** The matcher decides the language *)
(* ---------------------------------------------------------------------- *)

Section ReFacts.

Import Re.

Lemma lang_Void (s : string) : ~ lang Void s.
Proof. intro H. inversion H. Qed.

Lemma lang_Eps_inv (s : string) : lang Eps s -> s = "".
Proof. intro H. inversion H. reflexivity. Qed.

Lemma lang_Seq_inv (a b : regex) (s : string) :
  lang (Seq a b) s -> exists s1 s2, s = s1 ++ s2 /\ lang a s1 /\ lang b s2.
Proof. intro H. inversion H; subst. eauto. Qed.

Lemma lang_Alt_inv (a b : regex) (s : string) :
  lang (Alt a b) s -> lang a s \/ lang b s.
Proof. intro H. inversion H; subst; auto. Qed.

Lemma lang_mkSeq (a b : regex) (s : string) :
  lang (mkSeq a b) s <-> lang (Seq a b) s.
Proof.
  split.
  - destruct a, b; simpl; intro H;
      try exact H; try (now apply lang_Void in H);
      try (change s with ("" ++ s); constructor; [constructor | exact H]).
  - intro H. apply lang_Seq_inv in H. destruct H as (s1 & s2 & -> & H1 & H2).
    destruct a, b; simpl;
      try (now apply lang_Void in H1); try (now apply lang_Void in H2);
      try (apply lang_Eps_inv in H1; subst s1; exact H2);
      try (constructor; assumption).
Qed.

Lemma lang_mkAlt (a b : regex) (s : string) :
  lang (mkAlt a b) s <-> lang (Alt a b) s.
Proof.
  split.
  - destruct a, b; simpl; intro H;
      try exact H;
      try (apply L_AltR; exact H); try (apply L_AltL; exact H).
  - intro H. apply lang_Alt_inv in H.
    destruct a, b; simpl; destruct H as [H|H];
      try (now apply lang_Void in H); try exact H;
      try (apply L_AltL; exact H); try (apply L_AltR; exact H).
Qed.

Lemma append_eq_nil (a b : string) : a ++ b = "" -> a = "" /\ b = "".
Proof. destruct a; simpl; [auto | discriminate]. Qed.

Lemma nullable_spec (r : regex) : nullable r = true <-> lang r "".
Proof.
  induction r as [| | cs | a IHa b IHb | a IHa b IHb | a IHa]; simpl.
  - split; [discriminate | intro H; inversion H].
  - split; [constructor | reflexivity].
  - split; [discriminate | intro H; inversion H].
  - rewrite andb_true_iff, IHa, IHb. split.
    + intros [Ha Hb]. change "" with ("" ++ ""). now constructor.
    + intro H. apply lang_Seq_inv in H. destruct H as (s1 & s2 & E & H1 & H2).
      symmetry in E. apply append_eq_nil in E. destruct E; subst. auto.
  - rewrite orb_true_iff, IHa, IHb. split.
    + intros [H|H]; [now apply L_AltL | now apply L_AltR].
    + apply lang_Alt_inv.
  - split; [constructor | reflexivity].
Qed.

(** A non-empty word of [Star a] starts with a non-empty word of [a]. *)
Lemma lang_Star_cons (a : regex) (c : ascii) (s : string) :
  lang (Star a) (String c s) ->
  exists s1 s2, s = s1 ++ s2 /\ lang a (String c s1) /\ lang (Star a) s2.
Proof.
  intro H. remember (Star a) as r eqn:Er. remember (String c s) as w eqn:Ew.
  revert c s Ew. induction H; intros c0 s0 Ew; try discriminate.
  injection Er as ->.
  destruct s as [|x s].
  - simpl in Ew. subst t. apply IHlang2; reflexivity.
  - simpl in Ew. injection Ew as -> <-. exists s, t. auto.
Qed.

Lemma deriv_spec (r : regex) (c : ascii) (s : string) :
  lang (deriv c r) s <-> lang r (String c s).
Proof.
  revert s.
  induction r as [| | cs | a IHa b IHb | a IHa b IHb | a IHa]; intro s; simpl.
  - split; intro H; inversion H.
  - split; intro H; inversion H.
  - destruct (cmem cs c) eqn:E; split; intro H.
    + apply lang_Eps_inv in H. subst. now constructor.
    + inversion H. constructor.
    + inversion H.
    + inversion H. congruence.
  - rewrite lang_mkAlt. split; intro H.
    + apply lang_Alt_inv in H. destruct H as [H|H].
      * apply lang_mkSeq in H. apply lang_Seq_inv in H.
        destruct H as (s1 & s2 & -> & H1 & H2).
        change (String c (s1 ++ s2)) with (String c s1 ++ s2).
        constructor; [now apply IHa | exact H2].
      * destruct (nullable a) eqn:N; [|inversion H].
        change (String c s) with ("" ++ String c s).
        constructor; [now apply nullable_spec | now apply IHb].
    + apply lang_Seq_inv in H. destruct H as (s1 & s2 & E & H1 & H2).
      destruct s1 as [|x s1]; simpl in E.
      * subst s2. apply L_AltR.
        apply nullable_spec in H1. rewrite H1. now apply IHb.
      * injection E as <- ->. apply L_AltL. apply lang_mkSeq.
        constructor; [now apply IHa | exact H2].
  - rewrite lang_mkAlt. split; intro H.
    + apply lang_Alt_inv in H.
      destruct H as [H|H]; [apply L_AltL, IHa | apply L_AltR, IHb]; exact H.
    + apply lang_Alt_inv in H.
      destruct H as [H|H]; [apply L_AltL, IHa | apply L_AltR, IHb]; exact H.
  - rewrite lang_mkSeq. split; intro H.
    + apply lang_Seq_inv in H. destruct H as (s1 & s2 & -> & H1 & H2).
      change (String c (s1 ++ s2)) with (String c s1 ++ s2).
      constructor; [now apply IHa | exact H2].
    + apply lang_Star_cons in H. destruct H as (s1 & s2 & -> & H1 & H2).
      constructor; [now apply IHa | exact H2].
Qed.

Lemma derivs_spec (p : string) (r : regex) (s : string) :
  lang (derivs p r) s <-> lang r (p ++ s).
Proof.
  revert r. induction p as [|c p IH]; intro r; simpl; [reflexivity|].
  rewrite IH. apply deriv_spec.
Qed.

Theorem matches_spec (r : regex) (s : string) :
  matches r s = true <-> lang r s.
Proof.
  unfold matches. rewrite nullable_spec, derivs_spec, append_nil_r. reflexivity.
Qed.

Lemma derivs_append (p s : string) (r : regex) :
  derivs (p ++ s) r = derivs s (derivs p r).
Proof. revert r. induction p as [|c p IH]; intro r; simpl; [reflexivity | apply IH]. Qed.

Lemma matches_append (p s : string) (r : regex) :
  matches r (p ++ s) = matches (derivs p r) s.
Proof. unfold matches. now rewrite derivs_append. Qed.

Lemma lang_Top (s : string) : lang Top s.
Proof.
  induction s as [|c s IH]; [constructor|].
  change (String c s) with (String c "" ++ s).
  constructor; [now constructor | exact IH].
Qed.

Lemma always_sound (r : regex) (s : string) : always r = true -> lang r s.
Proof.
  induction r as [| | cs | a IHa b IHb | a IHa b IHb | a IHa]; simpl;
    try discriminate.
  - rewrite orb_true_iff. intros [H|H]; [apply L_AltL | apply L_AltR]; auto.
  - destruct a; try discriminate. destruct cs; try discriminate.
    intros _. apply lang_Top.
Qed.

Lemma never_sound (r : regex) (s : string) : never r = true -> ~ lang r s.
Proof.
  revert s.
  induction r as [| | cs | a IHa b IHb | a IHa b IHb | a IHa]; intro s; simpl;
    try discriminate.
  - intros _. apply lang_Void.
  - rewrite orb_true_iff. intros H L. apply lang_Seq_inv in L.
    destruct L as (s1 & s2 & _ & L1 & L2).
    destruct H as [H|H]; [exact (IHa _ H L1) | exact (IHb _ H L2)].
  - rewrite andb_true_iff. intros [Ha Hb] L. apply lang_Alt_inv in L.
    destruct L as [L|L]; [exact (IHa _ Ha L) | exact (IHb _ Hb L)].
Qed.

(** Once the derivative by a beginning of the string accepts everything, or
    nothing, the rest of the string no longer matters. *)
Lemma matches_always (p s : string) (r : regex) :
  always (derivs p r) = true -> matches r (p ++ s) = true.
Proof.
  intro H. rewrite matches_append. apply matches_spec. now apply always_sound.
Qed.

Lemma matches_never (p s : string) (r : regex) :
  never (derivs p r) = true -> matches r (p ++ s) = false.
Proof.
  intro H. rewrite matches_append.
  destruct (matches (derivs p r) s) eqn:E; [|reflexivity].
  apply matches_spec in E. now apply never_sound in E.
Qed.

Lemma matches_Seq (a b : regex) (s t : string) :
  matches a s = true -> matches b t = true -> matches (Seq a b) (s ++ t) = true.
Proof.
  rewrite !matches_spec. intros. now constructor.
Qed.

Lemma lang_Lit (s : string) : lang (Lit s) s.
Proof.
  induction s as [|c s IH]; simpl; [constructor|].
  change (String c s) with (String c "" ++ s).
  constructor; [|exact IH]. constructor. simpl. apply Ascii.eqb_refl.
Qed.

Lemma lang_Lit_inv (p s : string) : lang (Lit p) s -> s = p.
Proof.
  revert s. induction p as [|c p IH]; intros s H; simpl in H.
  - now apply lang_Eps_inv.
  - apply lang_Seq_inv in H. destruct H as (s1 & s2 & -> & H1 & H2).
    inversion H1 as [|cs x Hx| | | | |]; subst. simpl in Hx.
    apply Ascii.eqb_eq in Hx. subst. simpl. f_equal. now apply IH.
Qed.

(** [/^p/] for a literal [p] is [startsWith(p)]. *)
Lemma test_prefix_Lit (p s : string) :
  test_prefix (Lit p) s = Js.startsWith s p.
Proof.
  unfold test_prefix, Js.startsWith.
  destruct (String.prefix p s) eqn:E.
  - apply prefix_exists in E. destruct E as [r ->].
    apply matches_spec. constructor; [apply lang_Lit | apply lang_Top].
  - destruct (matches (Seq (Lit p) Top) s) eqn:M; [|reflexivity].
    apply matches_spec in M. apply lang_Seq_inv in M.
    destruct M as (s1 & s2 & -> & H1 & _). apply lang_Lit_inv in H1. subst.
    now rewrite prefix_append in E.
Qed.

(** [/p$/] for a literal [p] is [endsWith(p)]. *)
Lemma test_suffix_Lit (p s : string) :
  test_suffix (Lit p) s = Js.endsWith s p.
Proof.
  unfold test_suffix, Js.endsWith.
  destruct (String.prefix (Js.rev p) (Js.rev s)) eqn:E.
  - apply prefix_exists in E. destruct E as [r E].
    assert (s = Js.rev r ++ p) as ->.
    { rewrite <- (rev_involutive s), E, rev_append, rev_involutive. reflexivity. }
    apply matches_spec. constructor; [apply lang_Top | apply lang_Lit].
  - destruct (matches (Seq Top (Lit p)) s) eqn:M; [|reflexivity].
    apply matches_spec in M. apply lang_Seq_inv in M.
    destruct M as (s1 & s2 & -> & _ & H2). apply lang_Lit_inv in H2. subst.
    now rewrite rev_append, prefix_append in E.
Qed.

End ReFacts.

(* ---------------------------------------------------------------------- *)
(** ** lib/ssrf.ts: IPv4 literals *)
(* ---------------------------------------------------------------------- *)

Section SsrfIPv4.

Import Re Ssrf SsrfAux.

Lemma octets_all (P : N -> bool) :
  forallb P octets = true -> forall n, (n < 256)%N -> P n = true.
Proof.
  intros H n Hn. rewrite forallb_forall in H. apply H.
  unfold octets. apply in_map_iff. exists (N.to_nat n).
  split; [apply N2Nat.id | apply in_seq; lia].
Qed.

Lemma head_is_append (p : ascii -> bool) (a b : string) :
  head_is p a = true -> head_is p (a ++ b) = true.
Proof. destruct a; simpl; [discriminate | auto]. Qed.

Lemma decimal_head_digit (n : N) :
  (n < 256)%N -> head_is Js.is_digit (Whatwg.decimal n) = true.
Proof.
  apply (octets_all (fun n => head_is Js.is_digit (Whatwg.decimal n))).
  vm_compute. reflexivity.
Qed.

Lemma decimal_last_digit (n : N) :
  (n < 256)%N -> head_is Js.is_digit (Js.rev (Whatwg.decimal n)) = true.
Proof.
  apply (octets_all (fun n => head_is Js.is_digit (Js.rev (Whatwg.decimal n)))).
  vm_compute. reflexivity.
Qed.

Lemma decimal_lower (n : N) :
  (n < 256)%N -> Js.toLowerCase (Whatwg.decimal n) = Whatwg.decimal n.
Proof.
  intro Hn. apply String.eqb_eq. revert n Hn.
  apply (octets_all
           (fun n => String.eqb (Js.toLowerCase (Whatwg.decimal n)) (Whatwg.decimal n))).
  vm_compute. reflexivity.
Qed.

Lemma decimal_matches_digits (n : N) :
  (n < 256)%N -> matches (Between 1 3 digit) (Whatwg.decimal n) = true.
Proof.
  apply (octets_all (fun n => matches (Between 1 3 digit) (Whatwg.decimal n))).
  vm_compute. reflexivity.
Qed.

Lemma forall_chars_append (p : ascii -> bool) (a b : string) :
  Whatwg.forall_chars p (a ++ b) =
  (Whatwg.forall_chars p a && Whatwg.forall_chars p b)%bool.
Proof.
  induction a as [|c a IH]; simpl; [reflexivity|].
  rewrite IH. apply andb_assoc.
Qed.

Lemma decimal_ip_chars (n : N) :
  (n < 256)%N -> Whatwg.forall_chars ip_char (Whatwg.decimal n) = true.
Proof.
  apply (octets_all (fun n => Whatwg.forall_chars ip_char (Whatwg.decimal n))).
  vm_compute. reflexivity.
Qed.

Section Dotted.

Variables a b c d : N.
Hypothesis Ha : (a < 256)%N.
Hypothesis Hb : (b < 256)%N.
Hypothesis Hc : (c < 256)%N.
Hypothesis Hd : (d < 256)%N.

Lemma dotted_lower : Js.toLowerCase (dotted a b c d) = dotted a b c d.
Proof.
  unfold dotted. rewrite !toLowerCase_append, !decimal_lower by assumption.
  reflexivity.
Qed.

Lemma dotted_ip_chars : Whatwg.forall_chars ip_char (dotted a b c d) = true.
Proof.
  unfold dotted. rewrite !forall_chars_append, !decimal_ip_chars by assumption.
  reflexivity.
Qed.

Lemma dotted_head_digit : head_is Js.is_digit (dotted a b c d) = true.
Proof. unfold dotted. apply head_is_append. now apply decimal_head_digit. Qed.

Lemma dotted_last_digit : head_is Js.is_digit (Js.rev (dotted a b c d)) = true.
Proof.
  unfold dotted. rewrite !rev_append, !append_assoc. apply head_is_append.
  now apply decimal_last_digit.
Qed.

Lemma dotted_looksLikeIP : looksLikeIP (dotted a b c d) = true.
Proof.
  unfold looksLikeIP, test_whole, dotted.
  rewrite matches_Seq; [reflexivity | now apply decimal_matches_digits |].
  apply (matches_Seq dot _ "."); [reflexivity|].
  apply matches_Seq; [now apply decimal_matches_digits|].
  apply (matches_Seq dot _ "."); [reflexivity|].
  apply matches_Seq; [now apply decimal_matches_digits|].
  apply (matches_Seq dot _ "."); [reflexivity|].
  now apply decimal_matches_digits.
Qed.

Lemma dotted_removeBrackets : removeBrackets (dotted a b c d) = dotted a b c d.
Proof.
  pose proof dotted_head_digit as H1. pose proof dotted_last_digit as H2.
  unfold removeBrackets. unfold head_is in H1, H2.
  destruct (dotted a b c d) as [|x s] eqn:E; [discriminate|]. simpl in H1.
  assert (Hx : x <> "["%char) by (intros ->; discriminate).
  assert ((match String x s with String "[" r => r | _ => String x s end)
          = String x s) as ->.
  { destruct x as [[] [] [] [] [] [] [] []]; try reflexivity. now elim Hx. }
  destruct (Js.rev (String x s)) as [|y t]; [reflexivity|]. simpl in H2.
  assert (Hy : y <> "]"%char) by (intros ->; discriminate).
  destruct y as [[] [] [] [] [] [] [] []]; try reflexivity. now elim Hy.
Qed.

End Dotted.

Lemma decide_prefix_sound (r : regex) (p s : string) (v : bool) :
  decide_prefix r p = Some v -> test_prefix r (p ++ s) = v.
Proof.
  unfold decide_prefix, test_prefix.
  destruct (always _) eqn:A.
  - intros [= <-]. now apply matches_always.
  - destruct (never _) eqn:N; [|discriminate].
    intros [= <-]. now apply matches_never.
Qed.

Lemma ranges_decided_all : forallb ranges_decided octets = true.
Proof. vm_compute. reflexivity. Qed.

Lemma existsb_decided (p s : string) (l : list regex) :
  forallb (fun r => match decide_prefix r p with Some _ => true | None => false end) l
  = true ->
  existsb (fun r => test_prefix r (p ++ s)) l =
  existsb (fun r => match decide_prefix r p with Some v => v | None => false end) l.
Proof.
  induction l as [|r l IH]; simpl; [reflexivity|].
  rewrite andb_true_iff. intros [H1 H2].
  destruct (decide_prefix r p) as [v|] eqn:E; [|discriminate].
  rewrite (decide_prefix_sound _ _ s _ E), IH by assumption. reflexivity.
Qed.

Lemma decide_ranges_sound (p s : string) (v : bool) :
  decide_ranges p = Some v -> isPrivateIPv4 (p ++ s) = v.
Proof.
  unfold decide_ranges, isPrivateIPv4.
  destruct (forallb _ PRIVATE_IPV4_RANGES) eqn:F; [|discriminate].
  intros [= <-]. now apply existsb_decided.
Qed.

Lemma dotted_isPrivateIPv4 (a b c d : N) :
  (a < 256)%N -> (b < 256)%N ->
  isPrivateIPv4 (dotted a b c d) = in_private_ranges a b.
Proof.
  intros Ha Hb.
  pose proof (octets_all _ ranges_decided_all a Ha) as H.
  unfold ranges_decided in H.
  destruct (decide_ranges (Whatwg.decimal a ++ ".")) as [v|] eqn:E.
  - pose proof (octets_all _ H b Hb) as Hv. apply Bool.eqb_prop in Hv.
    rewrite <- Hv. unfold dotted.
    replace (Whatwg.decimal a ++ "." ++ Whatwg.decimal b ++ "." ++
             Whatwg.decimal c ++ "." ++ Whatwg.decimal d)
      with ((Whatwg.decimal a ++ ".") ++ (Whatwg.decimal b ++ "." ++
             Whatwg.decimal c ++ "." ++ Whatwg.decimal d))
      by (now rewrite !append_assoc).
    now apply decide_ranges_sound.
  - pose proof (octets_all _ H b Hb) as Hv. cbv beta in Hv.
    destruct (decide_ranges (two_octets a b)) as [v|] eqn:E2; [|discriminate].
    apply Bool.eqb_prop in Hv. rewrite <- Hv.
    replace (dotted a b c d)
      with (two_octets a b ++ (Whatwg.decimal c ++ "." ++ Whatwg.decimal d))
      by (unfold two_octets, dotted; now rewrite !append_assoc).
    now apply decide_ranges_sound.
Qed.

Lemma prefix_head_mismatch (p : ascii -> bool) (x : ascii) (t s : string) :
  head_is p s = true -> p x = false -> String.prefix (String x t) s = false.
Proof.
  destruct s as [|y s]; [discriminate|]. unfold head_is. simpl. intros Hy Hx.
  destruct (ascii_dec x y) as [->|]; [congruence | reflexivity].
Qed.

Lemma eqb_head_mismatch (p : ascii -> bool) (x : ascii) (t s : string) :
  head_is p s = true -> p x = false -> String.eqb s (String x t) = false.
Proof.
  destruct s as [|y s]; [discriminate|]. unfold head_is. simpl. intros Hy Hx.
  destruct (Ascii.eqb_spec y x) as [->|]; [congruence | reflexivity].
Qed.

Lemma dotted_isPrivateIPv6 (a b c d : N) :
  (a < 256)%N -> (b < 256)%N -> (c < 256)%N -> (d < 256)%N ->
  isPrivateIPv6 (dotted a b c d) = false.
Proof.
  intros Ha Hb Hc Hd. unfold isPrivateIPv6, Js.startsWith.
  rewrite dotted_lower by assumption.
  pose proof (dotted_head_digit a b c d Ha) as H.
  rewrite !(eqb_head_mismatch Js.is_digit), !(prefix_head_mismatch Js.is_digit)
    by (assumption || reflexivity).
  reflexivity.
Qed.

(** A word of [LitI (String x (String y p))] has a second character that is
    [y] in one of its two cases. *)
Lemma lang_LitI_second (x y : ascii) (p s : string) :
  lang (LitI (String x (String y p))) s ->
  exists c1 c2 r, s = String c1 (String c2 r) /\
                  (c2 = Js.lower_char y \/ c2 = upper_char y).
Proof.
  simpl. intro H. apply lang_Seq_inv in H. destruct H as (s1 & s2 & -> & H1 & H2).
  apply lang_Seq_inv in H2. destruct H2 as (s3 & s4 & -> & H3 & _).
  inversion H1 as [|cs c1 _| | | | |]; subst.
  inversion H3 as [|cs c2 Hc| | | | |]; subst.
  exists c1, c2, s4. split; [reflexivity|].
  simpl in Hc. apply orb_true_iff in Hc.
  destruct Hc as [Hc|Hc]; apply Ascii.eqb_eq in Hc; auto.
Qed.

Lemma suffix_needs_letter (x y : ascii) (p s : string) :
  ip_char (Js.lower_char y) = false -> ip_char (upper_char y) = false ->
  Whatwg.forall_chars ip_char s = true ->
  test_suffix (LitI (String x (String y p))) s = false.
Proof.
  intros Hl Hu Hs. unfold test_suffix.
  destruct (matches _ s) eqn:M; [|reflexivity].
  apply matches_spec in M. apply lang_Seq_inv in M.
  destruct M as (s1 & s2 & -> & _ & H2).
  apply lang_LitI_second in H2. destruct H2 as (c1 & c2 & r & -> & Hc).
  rewrite forall_chars_append in Hs. simpl in Hs.
  destruct Hc as [->| ->]; rewrite ?Hl, ?Hu in Hs;
    rewrite ?andb_false_r, ?andb_false_l in Hs; simpl in Hs;
    rewrite ?andb_false_r in Hs; discriminate.
Qed.

Lemma dotted_isBlockedHostname (a b c d : N) :
  (a < 256)%N -> (b < 256)%N -> (c < 256)%N -> (d < 256)%N ->
  in_private_ranges a b = false ->
  isBlockedHostname (dotted a b c d) = false.
Proof.
  intros Ha Hb Hc Hd Hr. unfold isBlockedHostname.
  rewrite dotted_lower by assumption.
  pose proof (dotted_head_digit a b c d Ha) as Hh.
  pose proof (dotted_ip_chars a b c d Ha Hb Hc Hd) as Hi.
  assert (String.eqb (dotted a b c d) "169.254.169.254" = false) as E.
  { destruct (String.eqb_spec (dotted a b c d) "169.254.169.254") as [E|];
      [|reflexivity].
    pose proof (dotted_isPrivateIPv4 a b c d Ha Hb) as P.
    rewrite E, Hr in P. vm_compute in P. discriminate. }
  assert (S1 : test_suffix (LitI ".local") (dotted a b c d) = false)
    by (apply suffix_needs_letter; (assumption || reflexivity)).
  assert (S2 : test_suffix (LitI ".internal") (dotted a b c d) = false)
    by (apply suffix_needs_letter; (assumption || reflexivity)).
  assert (S3 : test_suffix (LitI ".localhost") (dotted a b c d) = false)
    by (apply suffix_needs_letter; (assumption || reflexivity)).
  unfold BLOCKED_HOSTNAMES, BLOCKED_HOSTNAME_PATTERNS. cbn [existsb].
  rewrite E, S1, S2, S3, !(eqb_head_mismatch Js.is_digit)
    by (assumption || reflexivity).
  reflexivity.
Qed.

End SsrfIPv4.

(* ---------------------------------------------------------------------- *)
(** ** lib/ssrf.ts: the verdict on IPv4 literals *)
(* ---------------------------------------------------------------------- *)

Section SsrfVerdict.

Import Ssrf.

(** C3, as amended.  For every http(s) URL whose hostname is a literal IPv4
    address: when the address lies in 10.0.0.0/8, 172.16.0.0/12, 192.168.0.0/16,
    127.0.0.0/8, 169.254.0.0/16 or 0.0.0.0/8, [validateUrl] answers invalid with
    the code BLOCKED_URL; when it lies outside them, [validateUrl] answers valid
    and hands back the parsed URL.  Every URL with another scheme, whatever its
    host, is answered invalid with the code INVALID_URL.  This holds for every
    implementation of the URL constructor. *)
Theorem C3_ipv4_literals (api : UrlApi) (urlString : string) (u : URL) :
  URL_new urlString None = Some u ->
  (forall a b c d : N,
      is_http u = true ->
      hostname u = dotted a b c d ->
      (a < 256)%N -> (b < 256)%N -> (c < 256)%N -> (d < 256)%N ->
      if in_private_ranges a b
      then valid (validateUrl urlString) = false /\
           error_code (validateUrl urlString) = Some ErrorCodes.BLOCKED_URL
      else validateUrl urlString = {| valid := true; error := None; url := Some u |}) /\
  (protocol u <> "http:" -> protocol u <> "https:" ->
   validateUrl urlString
   = {| valid := false;
        error := Some {| code := "INVALID_URL";
                         message := "URL must use HTTP or HTTPS protocol" |};
        url := None |}).
Proof.
  intro Hu. split.
  - intros a b c d Hp Hh Ha Hb Hc Hd.
    unfold validateUrl. rewrite Hu.
    unfold is_http in Hp. apply orb_true_iff in Hp.
    assert ((negb (String.eqb (protocol u) "http:") &&
             negb (String.eqb (protocol u) "https:"))%bool = false) as ->.
    { destruct Hp as [-> | ->]; simpl; [reflexivity | apply andb_false_r]. }
    rewrite Hh, dotted_lower by assumption.
    rewrite dotted_looksLikeIP, dotted_removeBrackets by assumption.
    rewrite dotted_isPrivateIPv4 by assumption.
    destruct (in_private_ranges a b) eqn:R.
    + destruct (isBlockedHostname (dotted a b c d)); split; reflexivity.
    + rewrite dotted_isBlockedHostname, dotted_isPrivateIPv6 by assumption.
      reflexivity.
  - intros H1 H2. unfold validateUrl. rewrite Hu.
    apply String.eqb_neq in H1, H2. rewrite H1, H2. reflexivity.
Qed.

(** The theorem at 10.0.0.1 (blocked) and at 8.8.8.8 (valid), and at the ftp
    URL of 10.0.0.1 (not http), on the model of the URL parser. *)
Lemma C3_ipv4_literals_witness :
  (valid (validateUrl "http://10.0.0.1/") = false /\
   error_code (validateUrl "http://10.0.0.1/") = Some ErrorCodes.BLOCKED_URL) /\
  valid (validateUrl "https://8.8.8.8/dns") = true /\
  error_code (validateUrl "ftp://10.0.0.1/") = Some ErrorCodes.INVALID_URL.
Proof.
  split; [|split].
  - refine (proj1 (C3_ipv4_literals whatwg "http://10.0.0.1/" _ eq_refl)
              10 0 0 1 _ _ _ _ _ _)%N; reflexivity.
  - rewrite (proj1 (C3_ipv4_literals whatwg "https://8.8.8.8/dns" _ eq_refl)
               8 8 8 8 eq_refl eq_refl eq_refl eq_refl eq_refl eq_refl)%N.
    reflexivity.
  - rewrite (proj2 (C3_ipv4_literals whatwg "ftp://10.0.0.1/" _ eq_refl));
      [reflexivity | discriminate | discriminate].
Defined.

(** C3 as stated fails without the restriction to http(s): the hostname of
    ftp://10.0.0.1/ is the IPv4 literal 10.0.0.1, inside 10.0.0.0/8, and the
    answer is invalid with the code INVALID_URL, because the protocol is checked
    before the host. *)
Lemma C3_counterexample :
  option_map hostname (URL_new "ftp://10.0.0.1/" None) = Some (dotted 10 0 0 1) /\
  in_private_ranges 10 0 = true /\
  valid (validateUrl "ftp://10.0.0.1/") = false /\
  error_code (validateUrl "ftp://10.0.0.1/") = Some ErrorCodes.INVALID_URL /\
  error_code (validateUrl "ftp://10.0.0.1/") <> Some ErrorCodes.BLOCKED_URL.
Proof. repeat split; try reflexivity. vm_compute. discriminate. Qed.

End SsrfVerdict.

(* ---------------------------------------------------------------------- *)
(** ** lib/ssrf.ts: IPv6 literals *)
(* ---------------------------------------------------------------------- *)

Section SsrfIPv6.

Import Ssrf.

(** C4 at fe90::1.  The address lies in the link-local range fe80::/10 (its
    first ten bits are 1111111010), the hostname of http://[fe90::1]/ is its
    bracketed text, and [validateUrl] answers valid: [isPrivateIPv6] compares
    the text with the prefix "fe80", which covers fe80::/16 only. *)
Lemma C4_link_local_fe90_not_blocked :
  let pieces := [65168; 0; 0; 0; 0; 0; 0; 1]%N in         (* fe90:0:0:0:0:0:0:1 *)
  well_formed6 pieces = true /\
  in_link_local pieces = true /\
  option_map hostname (URL_new "http://[fe90::1]/" None) = Some (bracketed pieces) /\
  isPrivateIPv6 (removeBrackets (bracketed pieces)) = false /\
  valid (validateUrl "http://[fe90::1]/") = true /\
  error_code (validateUrl "http://[fe90::1]/") = None.
Proof. repeat split; reflexivity. Qed.

Lemma longest_run_position (l : list N) (pos : nat) (best : option (nat * nat))
    (q n : nat) :
  Whatwg.longest_run l pos best = Some (q, n) -> best = Some (q, n) \/ pos <= q.
Proof.
  revert pos best. induction l as [|p l IH]; intros pos best; simpl; [auto|].
  intro H. apply IH in H. destruct H as [H|H]; [|right; lia].
  destruct (Nat.ltb 1 _); [|auto].
  destruct best as [[q' m]|].
  - destruct (Nat.ltb m _); [injection H as <- <-; right; lia | auto].
  - injection H as <- <-. right. lia.
Qed.

(** The text of an address whose first piece is not zero starts with that
    piece. *)
Lemma serialize_ipv6_head (p : N) (l : list N) :
  p <> 0%N ->
  exists rest, Whatwg.serialize_ipv6 (p :: l) = Whatwg.hexadecimal p ++ rest.
Proof.
  intro Hp. unfold Whatwg.serialize_ipv6.
  assert (C : forall k, exists rest,
             String.concat ":" (List.map Whatwg.hexadecimal (p :: k))
             = Whatwg.hexadecimal p ++ rest).
  { intros [|x k]; simpl; [exists ""; now rewrite append_nil_r | eauto]. }
  destruct (Whatwg.longest_run (p :: l) 0 None) as [[pos n]|] eqn:L; [|apply C].
  simpl in L. destruct p as [|p']; [now elim Hp|]. simpl in L.
  apply longest_run_position in L. destruct L as [L|L]; [discriminate|].
  destruct pos as [|pos]; [lia|]. cbn [List.firstn].
  destruct (C (List.firstn pos l)) as [rest ->]. rewrite append_assoc. eauto.
Qed.

Lemma blockedFirstPieces_all (p : N) :
  (64512 <= p < 65024)%N \/ p = 65152%N -> In p SsrfAux.blockedFirstPieces.
Proof.
  unfold SsrfAux.blockedFirstPieces. intros [H| ->]; apply in_or_app.
  - left. apply in_map_iff. exists (N.to_nat (p - 64512)). split; [lia|].
    apply in_seq. lia.
  - right. now left.
Qed.

Lemma blockedFirstPieces_text :
  forallb (fun p =>
             (Nat.leb 4 (String.length (Js.toLowerCase (Js.toLowerCase
                                                          (Whatwg.hexadecimal p))))
              && SsrfAux.startsPrivate6
                   (Js.toLowerCase (Js.toLowerCase (Whatwg.hexadecimal p)))
              && negb (N.eqb p 0))%bool)
          SsrfAux.blockedFirstPieces = true.
Proof. vm_compute. reflexivity. Qed.

Lemma isPrivateIPv6_by_prefix (a b : string) :
  4 <= String.length (Js.toLowerCase a) ->
  SsrfAux.startsPrivate6 (Js.toLowerCase a) = true ->
  isPrivateIPv6 (a ++ b) = true.
Proof.
  intros Hl Hs. unfold isPrivateIPv6, Js.startsWith.
  rewrite toLowerCase_append.
  destruct (_ || _)%bool; [reflexivity|].
  unfold SsrfAux.startsPrivate6 in Hs.
  rewrite !prefix_decided by (simpl; lia).
  destruct (String.prefix "fc" _), (String.prefix "fd" _); try reflexivity.
  simpl in Hs. now rewrite Hs.
Qed.

Lemma is_loopback6_inv (pieces : list N) :
  is_loopback6 pieces = true -> pieces = [0; 0; 0; 0; 0; 0; 0; 1]%N.
Proof.
  unfold is_loopback6. intro H.
  do 7 (destruct pieces as [|[|?] pieces]; try discriminate).
  destruct pieces as [|[|[?|?|]] pieces]; try discriminate.
  destruct pieces; [reflexivity | discriminate].
Qed.

Lemma removeBrackets_bracketed (text : string) :
  removeBrackets ("[" ++ text ++ "]") = text.
Proof.
  unfold removeBrackets. cbn [append]. rewrite rev_append.
  change (Js.rev "]") with "]". cbn [append]. apply rev_involutive.
Qed.

(** What the code does block: for every http(s) URL whose hostname is the
    loopback address, an address of fc00::/7, or an address of fe80::/16 (the
    part of the link-local range whose text starts with fe80), [validateUrl]
    answers invalid with the code BLOCKED_URL. *)
Lemma ipv6_literals_blocked (api : UrlApi) (urlString : string) (u : URL)
    (pieces : list N) :
  URL_new urlString None = Some u ->
  is_http u = true ->
  hostname u = bracketed pieces ->
  (is_loopback6 pieces || in_unique_local pieces || starts_fe80 pieces)%bool = true ->
  valid (validateUrl urlString) = false /\
  error_code (validateUrl urlString) = Some ErrorCodes.BLOCKED_URL.
Proof.
  intros Hu Hp Hh Hr. unfold validateUrl. rewrite Hu.
  unfold is_http in Hp. apply orb_true_iff in Hp.
  assert ((negb (String.eqb (protocol u) "http:") &&
           negb (String.eqb (protocol u) "https:"))%bool = false) as ->.
  { destruct Hp as [-> | ->]; simpl; [reflexivity | apply andb_false_r]. }
  rewrite Hh.
  destruct (isBlockedHostname _) eqn:B; [split; reflexivity|].
  assert (L : looksLikeIP (Js.toLowerCase (bracketed pieces)) = true).
  { unfold looksLikeIP, bracketed. rewrite toLowerCase_append.
    change (Js.toLowerCase "[") with "[".
    destruct (Re.test_whole _ _); [reflexivity|].
    assert (Js.startsWith ("[" ++ Js.toLowerCase (Whatwg.serialize_ipv6 pieces ++ "]"))
              "[" = true) as -> by (unfold Js.startsWith; apply prefix_append).
    rewrite orb_true_r. reflexivity. }
  rewrite L.
  destruct (isPrivateIPv4 _); [split; reflexivity|].
  assert (P : isPrivateIPv6 (removeBrackets (Js.toLowerCase (bracketed pieces)))
              = true).
  { unfold bracketed. rewrite !toLowerCase_append.
    change (Js.toLowerCase "[") with "[". change (Js.toLowerCase "]") with "]".
    rewrite removeBrackets_bracketed.
    apply orb_true_iff in Hr. destruct Hr as [Hr|Hr];
      [apply orb_true_iff in Hr; destruct Hr as [Hr|Hr]|].
    - apply is_loopback6_inv in Hr. subst pieces. reflexivity.
    - destruct pieces as [|p l]; [discriminate|].
      assert (Hin : In p SsrfAux.blockedFirstPieces).
      { apply blockedFirstPieces_all. left. unfold in_unique_local in Hr.
        apply N.eqb_eq in Hr. rewrite N.shiftr_div_pow2 in Hr.
        change (2 ^ 9)%N with 512%N in Hr.
        pose proof (N.div_mod p 512 ltac:(discriminate)) as M.
        pose proof (N.mod_lt p 512 ltac:(discriminate)) as Hm.
        rewrite Hr in M. clear Hr.
        generalize dependent (p mod 512)%N. intros. lia. }
      pose proof blockedFirstPieces_text as T. rewrite forallb_forall in T.
      specialize (T p Hin). apply andb_true_iff in T. destruct T as [T Hz].
      apply andb_true_iff in T. destruct T as [Tl Ts].
      apply Nat.leb_le in Tl. apply negb_true_iff in Hz. apply N.eqb_neq in Hz.
      destruct (serialize_ipv6_head p l Hz) as [rest ->].
      rewrite toLowerCase_append. now apply isPrivateIPv6_by_prefix.
    - destruct pieces as [|p l]; [discriminate|].
      unfold starts_fe80 in Hr. apply N.eqb_eq in Hr. subst p.
      destruct (serialize_ipv6_head 65152 l ltac:(discriminate)) as [rest ->].
      rewrite toLowerCase_append. apply isPrivateIPv6_by_prefix; vm_compute;
        [lia | reflexivity]. }
  rewrite P. split; reflexivity.
Qed.

(** The rest of the claim on samples: the loopback address, both halves of
    fc00::/7 and the fe80 prefix are blocked. *)
Lemma ipv6_blocked_samples :
  List.map (fun s => error_code (validateUrl s))
    ["http://[::1]/"; "http://[fc00::1]/"; "https://[fdff:1:2::3]:8443/x";
     "http://[fe80::1]/"; "http://[FE80::abcd]/"]
  = List.repeat (Some ErrorCodes.BLOCKED_URL) 5.
Proof. reflexivity. Qed.

End SsrfIPv6.

(* ---------------------------------------------------------------------- *)
(** ** lib/auth.ts *)
(* ---------------------------------------------------------------------- *)

Section AuthFacts.

Import Auth.

Lemma or_loop_ext (f g : nat -> N) (i n : nat) (r : N) :
  (forall j, f j = g j) -> or_loop f i n r = or_loop g i n r.
Proof.
  intro E. revert i r. induction n as [|n IH]; intros i r; simpl; [reflexivity|].
  now rewrite E, IH.
Qed.

Lemma or_loop_shift (f : nat -> N) (i n : nat) (r : N) :
  or_loop f (S i) n r = or_loop (fun j => f (S j)) i n r.
Proof.
  revert i r. induction n as [|n IH]; intros i r; simpl; [reflexivity|].
  now rewrite IH.
Qed.

Lemma or_loop_zero_acc (f : nat -> N) (i n : nat) (r : N) :
  or_loop f i n r = 0%N -> r = 0%N.
Proof.
  revert i r. induction n as [|n IH]; intros i r; simpl; [auto|].
  intro H. apply IH in H. now apply N.lor_eq_0_iff in H.
Qed.

Lemma code_xor_zero (c d : ascii) :
  N.lxor (Js.code c) (Js.code d) = 0%N <-> c = d.
Proof.
  rewrite N.lxor_eq_0_iff. unfold Js.code. split; [|now intros ->].
  intro H. rewrite <- (ascii_N_embedding c), <- (ascii_N_embedding d). now rewrite H.
Qed.

(** The loop over two strings of the same length ends at 0 exactly when it
    started at 0 and the strings are equal. *)
Lemma compare_loop (a b : string) (r : N) :
  String.length a = String.length b ->
  or_loop (fun i => N.lxor (toInt (charCodeAt a i)) (toInt (charCodeAt b i)))
          0 (String.length a) r = 0%N
  <-> r = 0%N /\ a = b.
Proof.
  revert b r. induction a as [|c a IH]; intros [|d b] r Hlen;
    simpl in Hlen; try discriminate.
  - simpl. split; [auto | now intros []].
  - injection Hlen as Hlen. cbn [String.length or_loop].
    rewrite or_loop_shift.
    rewrite (or_loop_ext _
               (fun i => N.lxor (toInt (charCodeAt a i)) (toInt (charCodeAt b i))))
      by reflexivity.
    rewrite IH by assumption. unfold charCodeAt. simpl.
    rewrite N.lor_eq_0_iff, code_xor_zero. split.
    + intros [[Hr Hc] Hab]. subst. auto.
    + intros [Hr E]. injection E as -> ->. auto.
Qed.

Lemma constantTimeCompare_spec (a b : string) :
  constantTimeCompare a b = true <-> a = b.
Proof.
  unfold constantTimeCompare.
  destruct (Nat.eqb_spec (String.length a) (String.length b)) as [E|E]; simpl.
  - rewrite N.eqb_eq, compare_loop by assumption. split; [now intros [] | auto].
  - split; [discriminate | intros ->; now elim E].
Qed.

End AuthFacts.

(* ---------------------------------------------------------------------- *)
(** ** api/discover.ts: the content-depth analysis *)
(* ---------------------------------------------------------------------- *)

Section Analysis.

Import Discover AnalysisAux.

Lemma isFullContent_spec (item : Item) :
  isFullContent item = true <->
  500 < contentLength item /\ 3 * descriptionLength item < 2 * contentLength item.
Proof.
  unfold isFullContent, Qgtb, Qnat.
  rewrite andb_true_iff, !negb_true_iff.
  assert (L : forall x y, Qle_bool x y = false <-> ~ (x <= y)%Q).
  { intros x y. rewrite <- Qle_bool_iff. destruct (Qle_bool x y); intuition congruence. }
  rewrite !L. unfold Qle, Qmult, inject_Z. cbn [Qnum Qden].
  split; intros [H1 H2]; split; lia.
Qed.

Lemma analyzeLoop_spec (sample : list Item) (c t : nat) :
  fst (analyzeLoop sample c t) = c + fullCount sample.
Proof.
  revert c t. unfold fullCount.
  induction sample as [|item rest IH]; intros c t; simpl; [lia|].
  rewrite IH. destruct (isFullContent item); simpl; lia.
Qed.

Lemma ratio_at_least_60 (k n : nat) :
  0 < n ->
  Qle_bool (6 # 10) (Qnat k / Qnat n) = true <-> 6 * n <= 10 * k.
Proof.
  intro Hn. rewrite Qle_bool_iff. unfold Qnat.
  destruct n as [|n]; [lia|].
  unfold Qdiv, Qinv, Qmult, Qle, inject_Z. cbn [Qnum Qden].
  rewrite Nat2Z.inj_succ.
  destruct (Z.succ (Z.of_nat n)) as [|p|p] eqn:E; try lia.
  cbn [Qnum Qden]. split; intro H; nia.
Qed.

Lemma has_full_content_spec (items : list Item) (n : nat) :
  let sample := List.firstn n items in
  has_full_content (analyzeFullContentN items n) = true <->
  sample <> [] /\ 6 * List.length sample <= 10 * fullCount sample.
Proof.
  intro sample. unfold analyzeFullContentN. fold sample.
  pose proof (analyzeLoop_spec sample 0 0) as F.
  destruct (analyzeLoop sample 0 0) as [c t]. simpl in F. subst c.
  cbn [has_full_content].
  destruct sample as [|i rest] eqn:E.
  - simpl. split; [discriminate | intros [H _]; now elim H].
  - assert (Hlen : 0 < List.length (i :: rest)) by (simpl; lia).
    destruct (Nat.ltb_spec 0 (List.length (i :: rest))) as [_|]; [|lia].
    rewrite ratio_at_least_60 by assumption.
    split; [intro H; split; [discriminate | exact H] | now intros [_ H]].
Qed.

Lemma fullCount_at_least (sample : list Item) :
  List.length (List.filter is_600_100 sample) <= fullCount sample.
Proof.
  unfold fullCount. induction sample as [|i rest IH]; simpl; [lia|].
  destruct (is_600_100 i) eqn:E.
  - assert (isFullContent i = true) as ->.
    { apply isFullContent_spec. unfold is_600_100 in E.
      apply andb_true_iff in E. destruct E as [E1 E2].
      apply Nat.eqb_eq in E1, E2. lia. }
    simpl. lia.
  - destruct (isFullContent i); simpl; lia.
Qed.

(** C7.  The analysis samples the first 5 items.  An item counts as full
    content exactly when its content length exceeds 500 and 1.5 times its
    summary length.  [has_full_content] is true exactly when the sample is not
    empty and at least 60% of it counts, so it is false on an empty sample.
    On 5 items of which 4 have a content of 600 and a summary of 100 (the fifth
    being whatever it is, a content of 50 included) the result has
    [has_full_content = true] and [sample_size = 5]. *)
Theorem C7_content_depth :
  (forall items : list Item,
      let sample := List.firstn 5 items in
      sample_size (analyzeFullContent items) = List.length sample /\
      (has_full_content (analyzeFullContent items) = true <->
       sample <> [] /\ 6 * List.length sample <= 10 * fullCount sample) /\
      (sample = [] -> has_full_content (analyzeFullContent items) = false)) /\
  (forall item : Item,
      isFullContent item = true <->
      500 < contentLength item /\
      3 * descriptionLength item < 2 * contentLength item) /\
  (forall items : list Item,
      List.length items = 5 ->
      List.length (List.filter is_600_100 items) = 4 ->
      has_full_content (analyzeFullContent items) = true /\
      sample_size (analyzeFullContent items) = 5).
Proof.
  split; [|split].
  - intros items sample. split; [|split].
    + unfold analyzeFullContent, analyzeFullContentN. fold sample.
      destruct (analyzeLoop sample 0 0). reflexivity.
    + apply has_full_content_spec.
    + intro E. pose proof (has_full_content_spec items 5) as H. cbv zeta in H.
      fold sample in H. unfold analyzeFullContent.
      destruct (has_full_content (analyzeFullContentN items 5)); [|reflexivity].
      destruct H as [H _]. destruct (H eq_refl) as [H1 _]. now elim H1.
  - apply isFullContent_spec.
  - intros items Hlen Hfour.
    assert (Hs : List.firstn 5 items = items)
      by (apply List.firstn_all2; lia).
    split.
    + apply (has_full_content_spec items 5). cbv zeta. rewrite Hs. split.
      * intros ->. discriminate.
      * pose proof (fullCount_at_least items). lia.
    + unfold analyzeFullContent, analyzeFullContentN. rewrite Hs.
      destruct (analyzeLoop items 0 0). exact Hlen.
Qed.

(** The theorem on the synthetic feed: four items of 600 characters with a
    summary of 100 and one item of 50 characters. *)
Lemma C7_content_depth_witness :
  List.length syntheticItems = 5 /\
  List.length (List.filter is_600_100 syntheticItems) = 4 /\
  has_full_content (analyzeFullContent syntheticItems) = true /\
  sample_size (analyzeFullContent syntheticItems) = 5.
Proof.
  split; [vm_compute; reflexivity|]. split; [vm_compute; reflexivity|].
  apply (proj2 (proj2 C7_content_depth) syntheticItems); vm_compute; reflexivity.
Defined.

End Analysis.

(* ---------------------------------------------------------------------- *)
(** ** api/discover.ts: input classification *)
(* ---------------------------------------------------------------------- *)

Section Classification.

Import Re Discover.

Lemma capture_lazy_sound (r : regex) (s acc group1 : string) :
  capture_lazy r s acc = Some group1 ->
  exists rest, Js.rev acc ++ s = group1 ++ rest /\ matches r rest = true.
Proof.
  revert acc. induction s as [|c s IH]; intro acc; simpl.
  - destruct (matches r "") eqn:M; [|discriminate].
    intros [= <-]. exists "". auto.
  - destruct (matches r (String c s)) eqn:M.
    + intros [= <-]. exists (String c s). auto.
    + destruct (negb (Js.is_line_terminator c)); [|discriminate].
      intro H. apply IH in H. destruct H as (rest & E & Hm).
      exists rest. split; [|exact Hm]. rewrite <- E.
      unfold Js.rev at 2. simpl. rewrite rev_acc_append, append_assoc.
      reflexivity.
Qed.

(** Group 1 is a beginning of the path, and the pattern matches what follows. *)
Lemma match_lazy_prefix_sound (r : regex) (s group1 : string) :
  match_lazy_prefix r s = Some group1 ->
  exists rest, s = group1 ++ rest /\ matches r rest = true.
Proof. intro H. apply capture_lazy_sound in H. exact H. Qed.

Lemma firstMatch_first (patterns : list regex) (path : string) (k : nat)
    (pattern : regex) (group1 : string) :
  nth_error patterns k = Some pattern ->
  match_lazy_prefix pattern path = Some group1 ->
  (forall j earlier, j < k -> nth_error patterns j = Some earlier ->
                     match_lazy_prefix earlier path = None) ->
  firstMatch patterns path = Some group1.
Proof.
  revert k. induction patterns as [|p l IH]; intros k Hk Hm He.
  - destruct k; discriminate.
  - destruct k as [|k]; simpl in *.
    + injection Hk as ->. now rewrite Hm.
    + rewrite (He 0 p) by (lia || reflexivity).
      apply (IH k); [assumption | assumption |].
      intros j e Hj Hn. apply (He (S j) e); [lia | exact Hn].
Qed.

Lemma firstMatch_none (patterns : list regex) (path : string) :
  (forall pattern, In pattern patterns -> match_lazy_prefix pattern path = None) ->
  firstMatch patterns path = None.
Proof.
  induction patterns as [|p l IH]; intro H; simpl; [reflexivity|].
  rewrite (H p) by (now left). apply IH. intros q Hq. apply H. now right.
Qed.

(** C8, as amended.  "jdoe" is classified as the user name "jdoe";
    "example.com/2024/01/my-post" is classified as an article, and the homepage
    derived from it is "https://example.com/": the origin followed by the
    prefix the first matching pattern strips to, or by "/" when that prefix is
    empty.  In general the first pattern of the list that matches decides, its
    group 1 being a beginning of the path after which the pattern matches; a
    URL that matches no pattern yields the bare origin. *)
Theorem C8_classify_and_homepage :
  classify "jdoe" = Username "jdoe" /\
  (exists u, classify "example.com/2024/01/my-post" = Article u /\
             extractHomepageUrl u = "https://example.com/") /\
  (forall (u : URL) (k : nat) (pattern : regex) (group1 : string),
      nth_error articlePatterns k = Some pattern ->
      match_lazy_prefix pattern (pathname u) = Some group1 ->
      (forall j earlier, j < k -> nth_error articlePatterns j = Some earlier ->
                         match_lazy_prefix earlier (pathname u) = None) ->
      extractHomepageUrl u = origin u ++ (if Js.truthy group1 then group1 else "/") /\
      exists rest, pathname u = group1 ++ rest /\ matches pattern rest = true) /\
  (forall u : URL,
      (forall pattern, In pattern articlePatterns ->
                       match_lazy_prefix pattern (pathname u) = None) ->
      extractHomepageUrl u = origin u).
Proof.
  split; [vm_compute; reflexivity|]. split; [|split].
  - exists (Build_URL "https://example.com/2024/01/my-post" "https:" "example.com"
                      "/2024/01/my-post" "https://example.com").
    split; vm_compute; reflexivity.
  - intros u k pattern group1 Hk Hm He. split.
    + unfold extractHomepageUrl.
      rewrite (firstMatch_first _ _ k pattern group1 Hk Hm He).
      destruct group1; reflexivity.
    + now apply match_lazy_prefix_sound.
  - intros u H. unfold extractHomepageUrl. now rewrite firstMatch_none.
Qed.

(** The general part at /posts/2024/x: the second pattern, the one for a year,
    is the first that matches and strips to /posts, although the pattern for
    /posts/ comes later in the list and would strip to the root; and at /about,
    which no pattern matches. *)
Lemma C8_classify_and_homepage_witness :
  let u := {| href := "https://example.com/posts/2024/x"; protocol := "https:";
              hostname := "example.com"; pathname := "/posts/2024/x";
              origin := "https://example.com" |} in
  let v := {| href := "https://example.com/about"; protocol := "https:";
              hostname := "example.com"; pathname := "/about";
              origin := "https://example.com" |} in
  (extractHomepageUrl u = "https://example.com/posts" /\
   exists rest, pathname u = "/posts" ++ rest /\
                matches (Seq (Chr "/") (Seq (Times 4 digit) (Seq (Chr "/") any_dots)))
                        rest = true) /\
  extractHomepageUrl v = "https://example.com".
Proof.
  intros u v. split.
  - refine (proj1 (proj2 (proj2 C8_classify_and_homepage)) u 1 _ "/posts" _ _ _).
    + reflexivity.
    + reflexivity.
    + intros j earlier Hj. assert (j = 0) as -> by lia.
      intros [= <-]. reflexivity.
  - apply (proj2 (proj2 (proj2 C8_classify_and_homepage)) v).
    intros pattern Hin. simpl in Hin.
    repeat (destruct Hin as [<-|Hin]; [reflexivity|]). contradiction.
Defined.

(** C8 as stated fails on its own example: the homepage derived from the
    article URL ends with a slash. *)
Lemma C8_counterexample :
  exists u, classify "example.com/2024/01/my-post" = Article u /\
            extractHomepageUrl u = "https://example.com/" /\
            extractHomepageUrl u <> "https://example.com".
Proof.
  exists (Build_URL "https://example.com/2024/01/my-post" "https:" "example.com"
                      "/2024/01/my-post" "https://example.com").
  split; [vm_compute; reflexivity|].
  vm_compute. split; [reflexivity | discriminate].
Qed.

End Classification.

(* ---------------------------------------------------------------------- *)
(** ** api/discover.ts: probing the common feed paths *)
(* ---------------------------------------------------------------------- *)

Section Probing.

Import Discover DiscoverAux.

Context {api : UrlApi}.
Variable w : World.
Variable origin : string.

(** What one probe does. *)
Lemma probe_unfold (path : string) (log : list Event) :
  probe w origin path log =
  if negb (Ssrf.valid (Ssrf.validateUrl (origin ++ path))) then (None, log)
  else
    (match net_fetch w log "HEAD" (origin ++ path) with
     | Normal r =>
         if isFeedResponse r then Some (candidate (origin ++ path) r) else None
     | Throw _ => None
     end,
     (log ++ [headProbe origin path])%list).
Proof.
  unfold probe.
  destruct (negb (Ssrf.valid (Ssrf.validateUrl (origin ++ path)))); [reflexivity|].
  unfold bind, fetchWithTimeout, ret, headProbe. f_equal.
  destruct (net_fetch w log "HEAD" (origin ++ path)) as [r|e]; [|reflexivity].
  unfold isFeedResponse, candidate.
  destruct (ok r); [|reflexivity]. simpl.
  destruct (_ || _ || _)%bool; reflexivity.
Qed.

Lemma probe_hit (path : string) (log : list Event) (f : FeedInfo) :
  fst (probe w origin path log) = Some f <->
  Ssrf.valid (Ssrf.validateUrl (origin ++ path)) = true /\
  exists r, net_fetch w log "HEAD" (origin ++ path) = Normal r /\
            isFeedResponse r = true /\ f = candidate (origin ++ path) r.
Proof.
  rewrite probe_unfold.
  destruct (Ssrf.valid (Ssrf.validateUrl (origin ++ path))); simpl.
  - destruct (net_fetch w log "HEAD" (origin ++ path)) as [r|e].
    + destruct (isFeedResponse r) eqn:F; split.
      * intros [= <-]. split; [reflexivity|]. exists r. auto.
      * intros [_ (r' & [= <-] & _ & ->)]. reflexivity.
      * discriminate.
      * intros [_ (r' & [= <-] & F' & _)]. congruence.
    + split; [discriminate | intros [_ (r & H & _)]; discriminate].
  - split; [discriminate | intros [H _]; discriminate].
Qed.

Lemma probe_events (path : string) (log : list Event) :
  snd (probe w origin path log) = log \/
  snd (probe w origin path log) = (log ++ [headProbe origin path])%list.
Proof.
  rewrite probe_unfold.
  destruct (negb (Ssrf.valid _)); simpl; auto.
Qed.

(** The calls of a batch are header-only requests to paths of the batch. *)
Lemma batch_events (batch : list string) (log : list Event) :
  exists evs,
    snd (mapNet (probe w origin) batch log) = (log ++ evs)%list /\
    forall e, In e evs -> exists p, In p batch /\ e = headProbe origin p.
Proof.
  revert log. induction batch as [|p batch IH]; intro log; simpl.
  - exists []. split; [now rewrite app_nil_r | contradiction].
  - unfold bind.
    destruct (probe w origin p log) as [r log1] eqn:P.
    destruct (IH log1) as (evs & E & Hev).
    destruct (mapNet (probe w origin) batch log1) as [rs log2]. simpl in E. simpl.
    pose proof (probe_events p log) as Hp. rewrite P in Hp. simpl in Hp.
    destruct Hp as [-> | ->].
    + exists evs. split; [exact E|]. intros e He.
      destruct (Hev e He) as (q & Hq & ->). exists q. auto.
    + exists (headProbe origin p :: evs). split.
      * rewrite E, <- app_assoc. reflexivity.
      * intros e [<-|He]; [exists p; auto|].
        destruct (Hev e He) as (q & Hq & ->). exists q. auto.
Qed.

(** The candidates of a batch come from hits on paths of the batch. *)
Lemma batch_hits (batch : list string) (log : list Event) (f : FeedInfo) :
  In f (keepSome (fst (mapNet (probe w origin) batch log))) ->
  exists p log', In p batch /\ fst (probe w origin p log') = Some f.
Proof.
  revert log. induction batch as [|p batch IH]; intro log; simpl; [contradiction|].
  unfold bind.
  destruct (probe w origin p log) as [r log1] eqn:P.
  specialize (IH log1).
  destruct (mapNet (probe w origin) batch log1) as [rs log2]. simpl in IH. simpl.
  destruct r as [g|]; simpl.
  - intros [<-|H].
    + exists p, log. rewrite P. auto.
    + destruct (IH H) as (q & l & Hq & Hf). exists q, l. auto.
  - intro H. destruct (IH H) as (q & l & Hq & Hf). exists q, l. auto.
Qed.

(** The loop of the source is the probing batch by batch. *)
Lemma probeFeedPaths_batches (log : list Event) :
  probeFeedPaths w origin log = probeBatches w origin feedPathBatches log.
Proof.
  unfold probeFeedPaths, feedPathBatches.
  cbn -[mapNet probe keepSome]. unfold bind.
  destruct (mapNet (probe w origin) ["/feed"; "/rss"; "/atom.xml"] log)
    as [r1 l1].
  destruct (keepSome r1); [|reflexivity]. cbn -[mapNet probe keepSome].
  destruct (mapNet (probe w origin) ["/feed.xml"; "/rss.xml"; "/index.xml"] l1)
    as [r2 l2].
  destruct (keepSome r2); [|reflexivity]. cbn -[mapNet probe keepSome].
  destruct (mapNet (probe w origin)
              ["/feeds/posts/default"; "/blog/feed"; "/feed/rss"] l2) as [r3 l3].
  destruct (keepSome r3); [|reflexivity]. cbn -[mapNet probe keepSome].
  destruct (mapNet (probe w origin) ["/feed/atom"] l3) as [r4 l4].
  destruct (keepSome r4); reflexivity.
Qed.

(** A batch with a candidate ends the probing: the later batches are not
    attempted. *)
Lemma probeBatches_stop (batch : list string) (rest : list (list string))
    (log : list Event) :
  keepSome (fst (mapNet (probe w origin) batch log)) <> [] ->
  probeBatches w origin (batch :: rest) log =
  (keepSome (fst (mapNet (probe w origin) batch log)),
   snd (mapNet (probe w origin) batch log)).
Proof.
  intro H. simpl. unfold bind.
  destruct (mapNet (probe w origin) batch log) as [rs l]. simpl in *.
  destruct (keepSome rs); [now elim H | reflexivity].
Qed.

(** A batch without a candidate hands over to the next one. *)
Lemma probeBatches_continue (batch : list string) (rest : list (list string))
    (log : list Event) :
  keepSome (fst (mapNet (probe w origin) batch log)) = [] ->
  probeBatches w origin (batch :: rest) log =
  probeBatches w origin rest (snd (mapNet (probe w origin) batch log)).
Proof.
  intro H. simpl. unfold bind.
  destruct (mapNet (probe w origin) batch log) as [rs l]. simpl in *.
  now rewrite H.
Qed.

(** A probe that fails, by an error or a timeout, gives no candidate. *)
Lemma probe_failure (path : string) (log : list Event) (e : Thrown) :
  net_fetch w log "HEAD" (origin ++ path) = Throw e ->
  fst (probe w origin path log) = None.
Proof.
  intro H. rewrite probe_unfold, H.
  destruct (negb (Ssrf.valid _)); reflexivity.
Qed.

Lemma batch_all_fail (batch : list string) (log : list Event) :
  (forall p l, In p batch -> fst (probe w origin p l) = None) ->
  keepSome (fst (mapNet (probe w origin) batch log)) = [].
Proof.
  revert log. induction batch as [|p batch IH]; intros log H; simpl; [reflexivity|].
  unfold bind.
  pose proof (H p log (or_introl eq_refl)) as Hp.
  destruct (probe w origin p log) as [r log1]. simpl in Hp. subst r.
  specialize (IH log1 (fun q l Hq => H q l (or_intror Hq))).
  destruct (mapNet (probe w origin) batch log1) as [rs log2]. exact IH.
Qed.

End Probing.

Section ProbingClaim.

Import Discover DiscoverAux.

Lemma mapNet_cons {A B : Type} (f : A -> Net B) (a : A) (l : list A)
    (log : list Event) :
  mapNet f (a :: l) log =
  (fst (f a log) :: fst (mapNet f l (snd (f a log))),
   snd (mapNet f l (snd (f a log)))).
Proof.
  simpl. unfold bind, ret. destruct (f a log) as [b l1]. simpl.
  destruct (mapNet f l l1) as [bs l2]. reflexivity.
Qed.

(** C6.  Probing goes through the fixed list of 10 common feed paths in
    batches of 3.  A probe is a header-only request; it yields a candidate
    only when the response is successful and its content type contains xml,
    rss or atom; a probe that errors or times out yields none.  A batch with at
    least one candidate ends the probing and the later batches are never
    attempted; a batch without one hands over to the next.  In particular,
    when /feed answers 200 with the content type application/rss+xml, the
    first candidate is the one at /feed, no path beyond the first batch is
    probed, and the candidate at /feed is the only one as soon as the two
    other paths of its batch give none. *)
Theorem C6_probeFeedPaths (api : UrlApi) (w : World) (origin : string) :
  (List.length COMMON_FEED_PATHS = 10 /\
   List.concat feedPathBatches = COMMON_FEED_PATHS /\
   (forall batch, In batch feedPathBatches -> List.length batch <= 3) /\
   (forall log,
       probeFeedPaths w origin log = probeBatches w origin feedPathBatches log)) /\
  (forall path log,
      (forall f,
          fst (probe w origin path log) = Some f <->
          Ssrf.valid (Ssrf.validateUrl (origin ++ path)) = true /\
          exists r, net_fetch w log "HEAD" (origin ++ path) = Normal r /\
                    isFeedResponse r = true /\ f = candidate (origin ++ path) r) /\
      (snd (probe w origin path log) = log \/
       snd (probe w origin path log) = (log ++ [headProbe origin path])%list) /\
      (forall e, net_fetch w log "HEAD" (origin ++ path) = Throw e ->
                 fst (probe w origin path log) = None)) /\
  (forall batch rest log,
      (keepSome (fst (mapNet (probe w origin) batch log)) <> [] ->
       probeBatches w origin (batch :: rest) log =
       (keepSome (fst (mapNet (probe w origin) batch log)),
        snd (mapNet (probe w origin) batch log))) /\
      (keepSome (fst (mapNet (probe w origin) batch log)) = [] ->
       probeBatches w origin (batch :: rest) log =
       probeBatches w origin rest (snd (mapNet (probe w origin) batch log))) /\
      (exists evs,
          snd (mapNet (probe w origin) batch log) = (log ++ evs)%list /\
          forall e, In e evs -> exists p, In p batch /\ e = headProbe origin p)) /\
  (forall log r,
      Ssrf.valid (Ssrf.validateUrl (origin ++ "/feed")) = true ->
      net_fetch w log "HEAD" (origin ++ "/feed") = Normal r ->
      ok r = true ->
      content_type r = Some "application/rss+xml" ->
      let atFeed := {| url := origin ++ "/feed"; title := None; type := rss |} in
      List.hd_error (fst (probeFeedPaths w origin log)) = Some atFeed /\
      (exists evs,
          snd (probeFeedPaths w origin log) = (log ++ evs)%list /\
          forall e, In e evs ->
                    In e (List.map (headProbe origin) ["/feed"; "/rss"; "/atom.xml"])) /\
      ((forall p l, In p ["/rss"; "/atom.xml"] -> fst (probe w origin p l) = None) ->
       fst (probeFeedPaths w origin log) = [atFeed])).
Proof.
  split; [|split; [|split]].
  - split; [reflexivity|]. split; [reflexivity|]. split.
    + intros batch H. simpl in H.
      repeat (destruct H as [<-|H]; [simpl; lia|]). contradiction.
    + apply probeFeedPaths_batches.
  - intros path log. split; [|split].
    + intro f. apply probe_hit.
    + apply probe_events.
    + apply probe_failure.
  - intros batch rest log. split; [|split].
    + apply probeBatches_stop.
    + apply probeBatches_continue.
    + apply batch_events.
  - intros log r Hv Hr Hok Hct atFeed.
    rewrite probeFeedPaths_batches. unfold feedPathBatches.
    assert (Hp : probe w origin "/feed" log
                 = (Some atFeed, (log ++ [headProbe origin "/feed"])%list)).
    { rewrite probe_unfold, Hv, Hr. unfold isFeedResponse, candidate.
      rewrite Hok, Hct. reflexivity. }
    assert (Hfirst : exists others,
               keepSome (fst (mapNet (probe w origin) ["/feed"; "/rss"; "/atom.xml"] log))
               = atFeed :: others /\
               ((forall p l, In p ["/rss"; "/atom.xml"] ->
                             fst (probe w origin p l) = None) -> others = [])).
    { rewrite mapNet_cons, Hp. cbn [fst snd keepSome].
      eexists. split; [reflexivity|].
      intro Hn. now apply batch_all_fail. }
    destruct Hfirst as (others & Hk & Hnone).
    rewrite probeBatches_stop by (rewrite Hk; discriminate).
    cbn [fst snd]. rewrite Hk. split; [reflexivity|]. split.
    + destruct (batch_events w origin ["/feed"; "/rss"; "/atom.xml"] log)
        as (evs & E & Hev).
      exists evs. split; [exact E|]. intros e He.
      destruct (Hev e He) as (p & Hin & ->). now apply in_map.
    + intro Hn. now rewrite (Hnone Hn).
Qed.

(** The theorem on a site whose /feed answers as RSS and whose other paths
    answer 404: one candidate, at /feed, and one batch of probes. *)
Lemma C6_probeFeedPaths_witness :
  let atFeed := {| url := "https://example.com/feed"; title := None; type := rss |} in
  fst (probeFeedPaths Scenario.feedWorld "https://example.com" []) = [atFeed] /\
  exists evs,
    snd (probeFeedPaths Scenario.feedWorld "https://example.com" []) = evs /\
    forall e, In e evs ->
              In e (List.map (headProbe "https://example.com")
                      ["/feed"; "/rss"; "/atom.xml"]).
Proof.
  intro atFeed.
  destruct (proj2 (proj2 (proj2
              (C6_probeFeedPaths whatwg Scenario.feedWorld "https://example.com")))
              [] Scenario.rssFeed eq_refl eq_refl eq_refl eq_refl)
    as (_ & (evs & E & Hev) & Hone).
  split.
  - apply Hone. intros p l Hin. rewrite probe_unfold.
    destruct Hin as [<-|[<-|[]]]; reflexivity.
  - exists evs. split; [exact E | exact Hev].
Defined.

End ProbingClaim.

(* ---------------------------------------------------------------------- *)
(** ** api/discover.ts: what the handler answers *)
(* ---------------------------------------------------------------------- *)

Section HandlerStatus.

Import Discover DiscoverAux.

Context {api : UrlApi}.
Variable cfg : Config.
Variable w : World.

(** A verdict of [validateUrl] is either valid with the parsed URL, or
    invalid with one of its two codes. *)
Lemma validateUrl_cases (s : string) :
  (Ssrf.valid (Ssrf.validateUrl s) = true /\
   exists u, Ssrf.url (Ssrf.validateUrl s) = Some u) \/
  (Ssrf.valid (Ssrf.validateUrl s) = false /\
   exists e, Ssrf.error (Ssrf.validateUrl s) = Some e /\
             (Ssrf.code e = ErrorCodes.INVALID_URL \/
              Ssrf.code e = ErrorCodes.BLOCKED_URL)).
Proof.
  unfold Ssrf.validateUrl.
  destruct (URL_new s None) as [u|]; [|right; simpl; eauto].
  destruct (_ && _)%bool; [right; simpl; eauto|].
  destruct (Ssrf.isBlockedHostname _); [right; simpl; eauto|].
  destruct (Ssrf.looksLikeIP _); [|left; simpl; eauto].
  destruct (Ssrf.isPrivateIPv4 _); [right; simpl; eauto|].
  destruct (Ssrf.isPrivateIPv6 _); [right; simpl; eauto|].
  left; simpl; eauto.
Qed.














End HandlerStatus.

Section HandlerRuns.

Import Discover DiscoverAux.

Context {api : UrlApi}.
Variable env : Environment.
Variable cfg : Config.
Variable w : World.
Variable req : VercelRequest.
Variable res : Cors.VercelResponse ResponseBody.
Variable log : list Event.

(** A run of the handler: the preflight, the exception of [setHeader], or
    the outcome of the rest on the response that carries the headers. *)
Lemma handler_cases :
  (req_method req = "OPTIONS" /\
   handler env cfg w req res log = (Cors.handleOptions env res, log)) \/
  (req_method req <> "OPTIONS" /\
   exists e, Cors.setCorsHeaders env res = Throw e /\
             handler env cfg w req res log = (Throw e, log)) \/
  (req_method req <> "OPTIONS" /\
   exists res1, Cors.setCorsHeaders env res = Normal res1 /\
                handler env cfg w req res log
                = (send res1 (fst (answer cfg w req log)),
                   snd (answer cfg w req log))).
Proof.
  unfold handler.
  destruct (String.eqb_spec (req_method req) "OPTIONS") as [E|E]; [now left|].
  right. destruct (Cors.setCorsHeaders env res) as [res1|e].
  - right. split; [exact E|]. exists res1. split; [reflexivity|].
    unfold bind, ret. destruct (answer cfg w req log). reflexivity.
  - left. split; [exact E|]. now exists e.
Qed.


(** What is sent is what the outcome says. *)
Lemma send_answers (res1 res' : Cors.VercelResponse ResponseBody) (o : Outcome) :
  send res1 o = Normal res' ->
  o = Responded (Cors.res_statusCode res')
        match Cors.res_sent res' with
        | Some (Some sent) => sent
        | _ => AuthErrorBody None
        end /\
  exists sent, Cors.res_sent res' = Some (Some sent).
Proof.
  destruct o as [st b|e]; [|discriminate]. intros [= <-]. cbn. eauto.
Qed.

End HandlerRuns.

Section HandlerClaims.

Import Discover DiscoverAux.




(** The kinds of failure, each on a run of the handler: a blocked URL, a
    refused connection, a timeout, an oversized page and a page that cannot be
    parsed are answered 200 with their code; a body that is not JSON and a
    [url] that is a number are answered 400. *)
Lemma failure_responses :
  List.map (fun run => option_map (fun r => (Cors.res_statusCode r, Cors.res_sent r))
                         match fst run with Normal r => Some r | Throw _ => None end)
    [ run Scenario.env Scenario.cfg Scenario.feedWorld
        (Scenario.discoverRequest "http://10.0.0.1");
      run Scenario.env Scenario.cfg Scenario.refusingWorld
        (Scenario.discoverRequest "example.com");
      run Scenario.env Scenario.cfg Scenario.timeoutWorld
        (Scenario.discoverRequest "example.com");
      run Scenario.env Scenario.tightCfg Scenario.hugeWorld
        (Scenario.discoverRequest "example.com");
      run Scenario.env Scenario.cfg Scenario.brokenWorld
        (Scenario.discoverRequest "example.com");
      run Scenario.env Scenario.cfg Scenario.feedWorld (Scenario.post (JString "{"));
      run Scenario.env Scenario.cfg Scenario.feedWorld
        (Scenario.post (JObject [("url", JNumber 3)])) ]
  = List.map (fun a => Some (fst a, Some (Some (snd a))))
    [ (200%N, failure "BLOCKED_URL" "URL points to a private IP address" None);
      (200%N, failure "FETCH_FAILED" "fetch failed" None);
      (200%N, failure "TIMEOUT" "Request timed out" None);
      (200%N, failure "CONTENT_TOO_LARGE" "HTML exceeds maximum size of 0MB" None);
      (200%N, failure "DISCOVERY_FAILED" "Could not complete feed discovery"
                (Some "parser failure"));
      (400%N, failure "INVALID_URL" "Invalid request body" None);
      (400%N, failure "INVALID_URL" "Missing required field: url" None) ].
Proof. vm_compute. reflexivity. Qed.

(** C1 on two runs of the handler.  A homepage that declares
    http://169.254.169.254/latest/meta-data/ as its feed has that address
    requested by the feed parser, and a feed whose channel link is
    http://127.0.0.1:8080/admin has that address fetched for the images,
    although [validateUrl] blocks both: neither URL is passed to it. *)
Lemma C1_unvalidated_fetches :
  snd (run Scenario.env Scenario.cfg Scenario.hostilePageWorld
         (Scenario.discoverRequest "https://blog.example.com"))
  = [Fetched "GET" "https://blog.example.com";
     FeedRequested Scenario.metadataService] /\
  Ssrf.error_code (Ssrf.validateUrl Scenario.metadataService)
  = Some ErrorCodes.BLOCKED_URL /\
  snd (run Scenario.env Scenario.cfg Scenario.hostileFeedWorld
         (Scenario.discoverRequest "https://blog.example.com/feed.xml"))
  = [Fetched "GET" "https://blog.example.com/feed.xml";
     FeedRequested "https://blog.example.com/feed.xml";
     Fetched "GET" "http://127.0.0.1:8080/admin"] /\
  Ssrf.error_code (Ssrf.validateUrl "http://127.0.0.1:8080/admin")
  = Some ErrorCodes.BLOCKED_URL.
Proof. repeat split; vm_compute; reflexivity. Qed.

(** The calls that are guarded: every probe of [probeFeedPaths] goes to a URL
    that [validateUrl] found valid. *)
Lemma probes_are_validated (api : UrlApi) (w : World) (origin : string)
    (batch : list string) (log : list Event) :
  exists evs,
    snd (mapNet (probe w origin) batch log) = (log ++ evs)%list /\
    forall e, In e evs ->
      exists p, e = Fetched "HEAD" (origin ++ p) /\
                Ssrf.valid (Ssrf.validateUrl (origin ++ p)) = true.
Proof.
  revert log. induction batch as [|p batch IH]; intro log.
  - exists []. split; [simpl; now rewrite app_nil_r | contradiction].
  - rewrite mapNet_cons. cbn [snd].
    destruct (IH (snd (probe w origin p log))) as (evs & E & Hev).
    rewrite E, probe_unfold.
    destruct (Ssrf.valid (Ssrf.validateUrl (origin ++ p))) eqn:V; cbn [negb snd].
    + exists (headProbe origin p :: evs). split; [now rewrite <- app_assoc|].
      intros e [<-|He]; [exists p; auto | now apply Hev].
    + exists evs. split; [reflexivity | exact Hev].
Qed.

(** C6 as stated fails on a site whose homepage declares no feed and whose
    /feed and /rss both answer 200 with the content type application/rss+xml:
    both are candidates, in the probing and in the response of the handler. *)
Lemma C6_counterexample :
  let atFeed := {| url := "https://example.com/feed"; title := None; type := rss |} in
  let atRss := {| url := "https://example.com/rss"; title := None; type := rss |} in
  net_fetch Scenario.twoFeedsWorld [] "HEAD" "https://example.com/feed"
  = Normal Scenario.rssFeed /\
  discoverFeedsFromHtml Scenario.emptyDocument "https://example.com" = [] /\
  fst (probeFeedPaths Scenario.twoFeedsWorld "https://example.com" [])
  = [atFeed; atRss] /\
  List.length (fst (probeFeedPaths Scenario.twoFeedsWorld "https://example.com" []))
  <> 1 /\
  exists r,
    answers (run Scenario.env Scenario.cfg Scenario.twoFeedsWorld
               (Scenario.discoverRequest "https://example.com"))
      200 (SuccessBody r) /\
    feeds r = [atFeed; atRss].
Proof.
  intros atFeed atRss.
  split; [vm_compute; reflexivity|]. split; [vm_compute; reflexivity|].
  split; [vm_compute; reflexivity|]. split; [vm_compute; discriminate|].
  eexists. split; [eexists; split; [vm_compute; reflexivity | split; reflexivity]|].
  reflexivity.
Qed.

End HandlerClaims.

(* ---------------------------------------------------------------------- *)
(** ** lib/auth.ts: the optional API key *)
(* ---------------------------------------------------------------------- *)

Section AuthClaim.

Import Auth.



End AuthClaim.

(* ---------------------------------------------------------------------- *)
(** ** lib/sanitize.ts: attributes *)
(* ---------------------------------------------------------------------- *)

Section SanitizeAttributes.

Import Sanitize.

Context {api : UrlApi}.

(** Induction on nodes, with the children of an element as a list. *)
Lemma Node_forest_ind (P : Node -> Prop) :
  (forall data, P (TextNode data)) ->
  (forall data, P (CommentNode data)) ->
  (forall tag attrs children, Forall P children -> P (ElementNode tag attrs children)) ->
  forall node, P node.
Proof.
  intros Ht Hc He. fix IH 1. intros [data|data|tag attrs children].
  - apply Ht.
  - apply Hc.
  - apply He. induction children as [|c children IHc]; constructor.
    + apply IH.
    + exact IHc.
Qed.






Lemma getAttribute_set (attrs : list (string * string)) (n v : string) :
  getAttribute (setAttribute attrs n v) n = Some v.
Proof.
  unfold getAttribute. induction attrs as [|[m x] attrs IH]; simpl.
  - now rewrite String.eqb_refl.
  - destruct (String.eqb m n) eqn:E; simpl.
    + rewrite String.eqb_sym, E. reflexivity.
    + rewrite String.eqb_sym, E. exact IH.
Qed.

Lemma getAttribute_set_other (attrs : list (string * string)) (n m v : string) :
  n <> m -> getAttribute (setAttribute attrs n v) m = getAttribute attrs m.
Proof.
  intro H. unfold getAttribute. induction attrs as [|[k x] attrs IH]; simpl.
  - destruct (String.eqb_spec m n); [congruence | reflexivity].
  - destruct (String.eqb_spec k n) as [->|]; simpl.
    + destruct (String.eqb_spec m n); [congruence | reflexivity].
    + now rewrite IH.
Qed.











End SanitizeAttributes.

(* ---------------------------------------------------------------------- *)
(** ** lib/sanitize.ts: the tree *)
(* ---------------------------------------------------------------------- *)

Section SanitizeTree.

Import Sanitize.

Context {api : UrlApi}.
Variable baseUrl : string.

Lemma elements_app (l1 l2 : list Node) :
  elements (l1 ++ l2)%list = (elements l1 ++ elements l2)%list.
Proof. unfold elements. apply flat_map_app. Qed.

Lemma sanitizeNodes_app (l1 l2 : list Node) :
  sanitizeNodes baseUrl (l1 ++ l2)%list
  = (sanitizeNodes baseUrl l1 ++ sanitizeNodes baseUrl l2)%list.
Proof. unfold sanitizeNodes. apply flat_map_app. Qed.

Lemma sanitizeNodes_cons (n : Node) (l : list Node) :
  sanitizeNodes baseUrl (n :: l)
  = (sanitizeNode baseUrl n ++ sanitizeNodes baseUrl l)%list.
Proof. reflexivity. Qed.

Lemma comesFrom_incl (s1 s2 : list (string * list (string * string)))
    (tag : string) (attrs' : list (string * string)) :
  incl s1 s2 -> comesFrom baseUrl s1 tag attrs' -> comesFrom baseUrl s2 tag attrs'.
Proof.
  intros Hi [Hd [[Hs Hin] | (Hs & Ha & attrs & Hin & E)]]; split; auto.
  right. split; [exact Hs|]. split; [exact Ha|]. exists attrs. auto.
Qed.

Lemma provenance_forest (children : list Node) :
  Forall (fun n => forall tag attrs',
              In (tag, attrs') (elements (sanitizeNode baseUrl n)) ->
              comesFrom baseUrl (elementsOf n) tag attrs') children ->
  forall tag attrs',
    In (tag, attrs') (elements (sanitizeNodes baseUrl children)) ->
    comesFrom baseUrl (elements children) tag attrs'.
Proof.
  induction 1 as [|n l Hn Hl IH]; intros tag attrs' Hin; [contradiction|].
  rewrite sanitizeNodes_cons, elements_app in Hin. apply in_app_or in Hin.
  change (elements (n :: l)) with (elementsOf n ++ elements l)%list.
  destruct Hin as [Hin|Hin].
  - apply (comesFrom_incl (elementsOf n)); [apply incl_appl, incl_refl | auto].
  - apply (comesFrom_incl (elements l)); [apply incl_appr, incl_refl | auto].
Qed.

Lemma provenance_node (node : Node) (tag : string) (attrs' : list (string * string)) :
  In (tag, attrs') (elements (sanitizeNode baseUrl node)) ->
  comesFrom baseUrl (elementsOf node) tag attrs'.
Proof.
  revert tag attrs'.
  induction node as [data|data|t attrs children IH] using Node_forest_ind;
    intros tag attrs'; try contradiction.
  cbn [sanitizeNode elementsOf].
  pose proof (provenance_forest children IH) as F. fold (elements children).
  destruct (has DANGEROUS_TAGS (Js.toLowerCase t)) eqn:D; [contradiction|].
  fold (sanitizeNodes baseUrl children).
  destruct (isStructure (Js.toLowerCase t)) eqn:S.
  - cbn. rewrite app_nil_r. fold (elements (sanitizeNodes baseUrl children)).
    intros [[= <- <-]|Hin].
    + split; [exact D|]. left. split; [exact S | now left].
    + apply (comesFrom_incl (elements children)); [apply incl_tl, incl_refl | auto].
  - destruct (has ALLOWED_TAGS (Js.toLowerCase t)) eqn:A; cbn [negb].
    + cbn. rewrite app_nil_r. fold (elements (sanitizeNodes baseUrl children)).
      intros [[= <- <-]|Hin].
      * split; [exact D|]. right. split; [exact S|]. split; [exact A|].
        exists attrs. split; [now left | reflexivity].
      * apply (comesFrom_incl (elements children)); [apply incl_tl, incl_refl | auto].
    + intro Hin.
      apply (comesFrom_incl (elements children)); [apply incl_tl, incl_refl | auto].
Qed.

Lemma provenance (nodes : list Node) (tag : string) (attrs' : list (string * string)) :
  In (tag, attrs') (elements (sanitizeNodes baseUrl nodes)) ->
  comesFrom baseUrl (elements nodes) tag attrs'.
Proof.
  apply provenance_forest. apply Forall_forall. intros n _. apply provenance_node.
Qed.


Lemma dangerous_removed (before after children : list Node) (tag : string)
    (attrs : list (string * string)) :
  has DANGEROUS_TAGS (Js.toLowerCase tag) = true ->
  sanitizeNodes baseUrl (before ++ ElementNode tag attrs children :: after)%list
  = (sanitizeNodes baseUrl before ++ sanitizeNodes baseUrl after)%list.
Proof.
  intro D. rewrite sanitizeNodes_app, sanitizeNodes_cons.
  cbn [sanitizeNode]. rewrite D. reflexivity.
Qed.

End SanitizeTree.

Section SanitizeClaims.

Import Sanitize.





End SanitizeClaims.

(* ---------------------------------------------------------------------- *)
(** ** lib/sanitize.ts: sanitizing twice *)
(* ---------------------------------------------------------------------- *)

Section SanitizeTwice.

Import Sanitize.

Lemma trimStart_keeps_last (a : string) (c : ascii) :
  Js.is_space c = false ->
  exists a', Js.trimStart (a ++ String c "") = a' ++ String c "".
Proof.
  intro Hc. induction a as [|x a IH]; simpl.
  - rewrite Hc. exists "". reflexivity.
  - destruct (Js.is_space x); [exact IH|].
    exists (String x a). reflexivity.
Qed.

(** C5 on the anchor whose href is "java", a TAB and "script:alert(1)".  The
    href passes the test on its scheme, which looks at the text as written;
    the URL constructor, which drops the TAB, turns it into
    javascript:alert(1), and the anchor comes out with that href.  Sanitizing
    the output again removes the href: the second pass does not give what the
    first gave. *)
Lemma C5_second_pass_differs :
  let once := sanitizeHtml Fragments.tabbedScript "https://example.com/post" in
  let twice := sanitizeHtml once "https://example.com/post" in
  hasForbiddenScheme ("java" ++ Fragments.tab ++ "script:alert(1)") = false /\
  option_map href
    (URL_new ("java" ++ Fragments.tab ++ "script:alert(1)")
       (Some "https://example.com/post"))
  = Some "javascript:alert(1)" /\
  once = "<a href=" ++ Html.q ++ "javascript:alert(1)" ++ Html.q ++ ">x</a>" /\
  twice = "<a>x</a>" /\
  twice <> once.
Proof.
  intros once twice. subst once twice.
  split; [vm_compute; reflexivity|]. split; [vm_compute; reflexivity|].
  split; [vm_compute; reflexivity|]. split; [vm_compute; reflexivity|].
  vm_compute. discriminate.
Qed.

End SanitizeTwice.
(* ---------------------------------------------------------------------- *)
(** ** lib/auth.ts: the comparison of keys *)
(* ---------------------------------------------------------------------- *)

Section KeyComparison.

Import Auth.

(** X1.  [constantTimeCompare] answers true exactly when its two arguments are the
    same string; in particular it answers false whenever the lengths differ,
    an empty second argument included. *)
Theorem constantTimeCompare_equality (a b : string) :
  (constantTimeCompare a b = true <-> a = b) /\
  (String.length a <> String.length b -> constantTimeCompare a b = false).
Proof.
  split; [apply constantTimeCompare_spec|].
  intro H. destruct (constantTimeCompare a b) eqn:E; [|reflexivity].
  apply constantTimeCompare_spec in E. subst. now elim H.
Qed.

End KeyComparison.

(* ---------------------------------------------------------------------- *)
(** ** api/health.ts *)
(* ---------------------------------------------------------------------- *)

Section HealthCheck.

Import Auth Health.

(** X2.  The health check first sets the CORS headers, and ends with the
    exception of [setHeader] when they cannot be set.  Otherwise it answers
    204 without a body to a preflight and 405 to every other method than GET,
    both without looking at the key; a GET is answered 200 with the version,
    the provider and the three capabilities exactly when the key is accepted,
    and 401 with the error of [validateAuth] when it is refused; and it
    throws only when [validateAuth] does. *)
Theorem health_handler_answers (env : Environment) (cfg : Config)
    (req : VercelRequest) (res : Cors.VercelResponse HealthBody) :
  match Cors.setCorsHeaders env res with
  | Throw e => handler env cfg req res = Throw e
  | Normal res1 =>
      let answered status body := Normal (Cors.json (Cors.status res1 status) body) in
      (req_method req = "OPTIONS" ->
       handler env cfg req res = Normal (Cors.end_ (Cors.status res1 204))) /\
      (req_method req <> "OPTIONS" -> req_method req <> "GET" ->
       handler env cfg req res
       = answered 405%N (HealthError (Some "Method not allowed"))) /\
      (req_method req = "GET" ->
       match validateAuth cfg req with
       | Throw e => handler env cfg req res = Throw e
       | Normal auth =>
           if authenticated auth then
             handler env cfg req res
             = answered 200%N
                 (HealthOk "2.0.0" "vercel-serverless" ["fetch"; "parse"; "discover"])
           else
             handler env cfg req res = answered 401%N (HealthError (error auth))
       end)
  end.
Proof.
  unfold handler, Cors.handleOptions.
  destruct (Cors.setCorsHeaders env res) as [res1|e].
  - split; [|split].
    + intros ->. reflexivity.
    + intros O G. apply String.eqb_neq in O, G. now rewrite O, G.
    + intros ->. cbn [String.eqb Ascii.eqb Bool.eqb negb].
      destruct (validateAuth cfg req) as [auth|e]; [|reflexivity].
      destruct (authenticated auth); reflexivity.
  - destruct (String.eqb (req_method req) "OPTIONS"); reflexivity.
Qed.

End HealthCheck.

(* ---------------------------------------------------------------------- *)
(** ** lib/ssrf.ts: blocked names and IPv6 literals *)
(* ---------------------------------------------------------------------- *)

Section SsrfNameFacts.

Import Re Ssrf SsrfAux SsrfNames.

Lemma lower_char_lower_char (c : ascii) :
  Js.lower_char (Js.lower_char c) = Js.lower_char c.
Proof.
  assert (H : forallb (fun n => Ascii.eqb
                         (Js.lower_char (Js.lower_char (ascii_of_nat n)))
                         (Js.lower_char (ascii_of_nat n)))
                      (List.seq 0 256) = true) by (vm_compute; reflexivity).
  rewrite forallb_forall in H.
  specialize (H (nat_of_ascii c)).
  rewrite ascii_nat_embedding in H. apply Ascii.eqb_eq, H.
  apply in_seq. pose proof (nat_ascii_bounded c). lia.
Qed.

Lemma toLowerCase_toLowerCase (s : string) :
  Js.toLowerCase (Js.toLowerCase s) = Js.toLowerCase s.
Proof.
  induction s as [|c s IH]; simpl; [reflexivity|].
  now rewrite lower_char_lower_char, IH.
Qed.

(** A literal under the [i] flag matches its lower-cased text. *)
Lemma lang_LitI_lower (p : string) : lang (LitI p) (Js.toLowerCase p).
Proof.
  induction p as [|c p IH]; simpl; [constructor|].
  change (String (Js.lower_char c) (Js.toLowerCase p))
    with (String (Js.lower_char c) "" ++ Js.toLowerCase p).
  constructor; [|exact IH]. constructor. simpl.
  now rewrite Ascii.eqb_refl.
Qed.

Lemma endsWith_split (s p : string) :
  Js.endsWith s p = true -> exists a, s = a ++ p.
Proof.
  unfold Js.endsWith. intro E. apply prefix_exists in E. destruct E as [r E].
  exists (Js.rev r).
  rewrite <- (rev_involutive s), E, rev_append, rev_involutive. reflexivity.
Qed.

Lemma test_suffix_LitI (p a : string) :
  test_suffix (LitI p) (a ++ Js.toLowerCase p) = true.
Proof.
  unfold test_suffix. apply matches_spec.
  constructor; [apply lang_Top | apply lang_LitI_lower].
Qed.

Lemma existsb_eqb_In (x : string) (l : list string) :
  existsb (String.eqb x) l = true <-> In x l.
Proof.
  rewrite existsb_exists. split.
  - intros (y & Hy & E). apply String.eqb_eq in E. now subst.
  - intro H. exists x. split; [exact H | apply String.eqb_refl].
Qed.

Lemma isBlockedHostname_named (h : string) :
  In (Js.toLowerCase h) BLOCKED_HOSTNAMES \/
  (exists suffix, In suffix blockedSuffixes /\
                  Js.endsWith (Js.toLowerCase h) suffix = true) ->
  isBlockedHostname h = true.
Proof.
  intros [H|(suffix & Hs & He)]; unfold isBlockedHostname.
  - apply existsb_eqb_In in H. now rewrite H.
  - destruct (existsb (String.eqb _) BLOCKED_HOSTNAMES); [reflexivity|].
    apply endsWith_split in He. destruct He as [a ->].
    assert (existsb (fun pattern => test_suffix pattern (a ++ suffix))
              BLOCKED_HOSTNAME_PATTERNS = true) as ->; [|reflexivity].
    apply existsb_exists. exists (LitI suffix).
    unfold blockedSuffixes in Hs. simpl in Hs.
    destruct Hs as [<-|[<-|[<-|[]]]].
    + split; [simpl; auto | exact (test_suffix_LitI ".local" a)].
    + split; [simpl; auto | exact (test_suffix_LitI ".internal" a)].
    + split; [simpl; auto | exact (test_suffix_LitI ".localhost" a)].
Qed.

Lemma either_case_lower (c d : ascii) :
  (Ascii.eqb d (Js.lower_char c) || Ascii.eqb d (upper_char c))%bool = true ->
  Js.lower_char d = Js.lower_char c.
Proof.
  intro H. apply orb_true_iff in H.
  destruct H as [H|H]; apply Ascii.eqb_eq in H; subst d.
  - apply lower_char_lower_char.
  - assert (A : forallb (fun n => Ascii.eqb
                           (Js.lower_char (upper_char (ascii_of_nat n)))
                           (Js.lower_char (ascii_of_nat n)))
                        (List.seq 0 256) = true) by (vm_compute; reflexivity).
    rewrite forallb_forall in A. specialize (A (nat_of_ascii c)).
    rewrite ascii_nat_embedding in A. apply Ascii.eqb_eq, A.
    apply in_seq. pose proof (nat_ascii_bounded c). lia.
Qed.

(** A word of a literal under the [i] flag is the literal up to case. *)
Lemma lang_LitI_inv (p w : string) :
  lang (LitI p) w -> Js.toLowerCase w = Js.toLowerCase p.
Proof.
  revert w. induction p as [|c p IH]; intros w H; simpl in H.
  - apply lang_Eps_inv in H. now subst.
  - apply lang_Seq_inv in H. destruct H as (s1 & s2 & -> & H1 & H2).
    inversion H1 as [|cs d Hd| | | | |]; subst. simpl in Hd.
    simpl. rewrite (either_case_lower c d Hd). f_equal. now apply IH.
Qed.

Lemma endsWith_append (a p : string) : Js.endsWith (a ++ p) p = true.
Proof. unfold Js.endsWith. rewrite rev_append. apply prefix_append. Qed.

Lemma test_suffix_LitI_inv (p s : string) :
  test_suffix (LitI p) s = true ->
  Js.endsWith (Js.toLowerCase s) (Js.toLowerCase p) = true.
Proof.
  unfold test_suffix. intro M. apply matches_spec in M.
  apply lang_Seq_inv in M. destruct M as (s1 & s2 & -> & _ & H2).
  apply lang_LitI_inv in H2. rewrite toLowerCase_append, H2.
  apply endsWith_append.
Qed.

(** The blocked names: the list, and the three suffixes. *)
Lemma isBlockedHostname_iff (h : string) :
  isBlockedHostname h = true <->
  In (Js.toLowerCase h) BLOCKED_HOSTNAMES \/
  (exists suffix, In suffix blockedSuffixes /\
                  Js.endsWith (Js.toLowerCase h) suffix = true).
Proof.
  split; [|apply isBlockedHostname_named].
  unfold isBlockedHostname.
  destruct (existsb (String.eqb _) BLOCKED_HOSTNAMES) eqn:E.
  - intros _. left. now apply existsb_eqb_In.
  - destruct (existsb _ BLOCKED_HOSTNAME_PATTERNS) eqn:P; [|discriminate].
    intros _. right. apply existsb_exists in P. destruct P as (r & Hr & M).
    unfold BLOCKED_HOSTNAME_PATTERNS in Hr.
    destruct Hr as [<-|[<-|[<-|[]]]].
    + apply (test_suffix_LitI_inv ".local") in M.
      rewrite toLowerCase_toLowerCase in M.
      exists ".local". split; [simpl; auto | exact M].
    + apply (test_suffix_LitI_inv ".internal") in M.
      rewrite toLowerCase_toLowerCase in M.
      exists ".internal". split; [simpl; auto | exact M].
    + apply (test_suffix_LitI_inv ".localhost") in M.
      rewrite toLowerCase_toLowerCase in M.
      exists ".localhost". split; [simpl; auto | exact M].
Qed.

End SsrfNameFacts.

Section BlockedNames.

Import Ssrf SsrfNames.

(** X3.  An http(s) URL is refused as pointing to a blocked host exactly when its
    host name, in any case, is one of the blocked names or ends in .local,
    .internal or .localhost; the verdict is then invalid, without a URL. *)
Theorem internal_names_blocked (api : UrlApi) (urlString : string) (u : URL) :
  URL_new urlString None = Some u ->
  is_http u = true ->
  (In (Js.toLowerCase (hostname u)) BLOCKED_HOSTNAMES \/
   (exists suffix, In suffix blockedSuffixes /\
                   Js.endsWith (Js.toLowerCase (hostname u)) suffix = true)
   <->
   validateUrl urlString
   = {| valid := false;
        error := Some {| code := ErrorCodes.BLOCKED_URL;
                         message := "URL points to a blocked host" |};
        url := None |}).
Proof.
  intros Hu Hp. unfold validateUrl. rewrite Hu.
  unfold is_http in Hp. apply orb_true_iff in Hp.
  assert ((negb (String.eqb (protocol u) "http:") &&
           negb (String.eqb (protocol u) "https:"))%bool = false) as ->.
  { destruct Hp as [-> | ->]; simpl; [reflexivity | apply andb_false_r]. }
  pose proof (isBlockedHostname_iff (Js.toLowerCase (hostname u))) as I.
  rewrite toLowerCase_toLowerCase in I. rewrite <- I. clear I.
  destruct (isBlockedHostname _); [split; reflexivity|].
  split; [discriminate|].
  destruct (looksLikeIP _); [|discriminate].
  destruct (isPrivateIPv4 _); [discriminate|].
  destruct (isPrivateIPv6 _); discriminate.
Qed.

(** The theorem on http://Printer.LOCAL/status and on
    https://metadata.google.internal/. *)
Lemma internal_names_blocked_witness :
  Ssrf.error_code (validateUrl "http://Printer.LOCAL/status")
  = Some ErrorCodes.BLOCKED_URL /\
  Ssrf.error_code (validateUrl "https://metadata.google.internal/")
  = Some ErrorCodes.BLOCKED_URL.
Proof.
  split.
  - rewrite (proj1 (internal_names_blocked whatwg "http://Printer.LOCAL/status"
                (Build_URL "http://printer.local/status" "http:" "printer.local"
                   "/status" "http://printer.local")
                eq_refl eq_refl)
               (or_intror (ex_intro _ ".local" (conj (or_introl eq_refl) eq_refl)))).
    reflexivity.
  - rewrite (proj1 (internal_names_blocked whatwg "https://metadata.google.internal/"
                (Build_URL "https://metadata.google.internal/" "https:"
                   "metadata.google.internal" "/" "https://metadata.google.internal")
                eq_refl eq_refl)
               (or_introl (or_intror (or_introl eq_refl)))).
    reflexivity.
Defined.

End BlockedNames.

Section Ipv6Text.

Import Re Ssrf SsrfAux SsrfNames.

Lemma hexColon_lower (c : ascii) :
  hexColon c = true ->
  hexColon (Js.lower_char c) = true /\
  Ascii.eqb (Js.lower_char c) "." = false /\
  Ascii.eqb (Js.lower_char c) "[" = false /\
  Ascii.eqb (Js.lower_char c) "]" = false.
Proof.
  assert (H : forallb (fun n =>
                let c := ascii_of_nat n in
                implb (hexColon c)
                  (hexColon (Js.lower_char c) &&
                   negb (Ascii.eqb (Js.lower_char c) ".") &&
                   negb (Ascii.eqb (Js.lower_char c) "[") &&
                   negb (Ascii.eqb (Js.lower_char c) "]")))
              (List.seq 0 256) = true) by (vm_compute; reflexivity).
  rewrite forallb_forall in H. specialize (H (nat_of_ascii c)).
  rewrite ascii_nat_embedding in H. intro Hc. cbv zeta in H. rewrite Hc in H.
  simpl in H.
  assert (In (nat_of_ascii c) (List.seq 0 256))
    by (apply in_seq; pose proof (nat_ascii_bounded c); lia).
  specialize (H H0). rewrite !andb_true_iff, !negb_true_iff in H. tauto.
Qed.

Lemma hexColon_text_lower (t : string) :
  Whatwg.forall_chars hexColon t = true ->
  Whatwg.forall_chars plain6 (Js.toLowerCase t) = true.
Proof.
  induction t as [|c t IH]; simpl; [reflexivity|].
  rewrite andb_true_iff. intros [Hc Ht]. rewrite (IH Ht), andb_true_r.
  destruct (hexColon_lower c Hc) as (H1 & H2 & H3 & H4).
  unfold plain6. now rewrite H1, H2, H3, H4.
Qed.

Lemma plain6_no_dot (a b : string) :
  Whatwg.forall_chars plain6 (a ++ String "." b) = false.
Proof.
  induction a as [|c a IH]; simpl.
  - unfold plain6. simpl. destruct (hexColon "."); reflexivity.
  - rewrite IH. apply andb_false_r.
Qed.

Lemma lang_Lit_ends_dot (p s : string) :
  lang (Lit (p ++ ".")) s -> exists a, s = a ++ ".".
Proof. intro H. apply lang_Lit_inv in H. subst. eauto. Qed.

(** Every private IPv4 pattern needs a dot. *)
Lemma isPrivateIPv4_needs_dot (t : string) :
  isPrivateIPv4 t = true -> exists a b, t = a ++ String "." b.
Proof.
  unfold isPrivateIPv4, PRIVATE_IPV4_RANGES. cbn [existsb Lit].
  rewrite !orb_true_iff.
  assert (L : forall p, test_prefix (Lit (p ++ ".")) t = true ->
                        exists a b, t = a ++ String "." b).
  { intros p H. unfold test_prefix in H. apply matches_spec in H.
    apply lang_Seq_inv in H. destruct H as (s1 & s2 & -> & H1 & _).
    apply lang_Lit_inv in H1. subst. exists p, s2.
    now rewrite append_assoc. }
  intros [H|[H|[H|[H|[H|[H|H]]]]]]; try discriminate.
  - exact (L "10" H).
  - unfold test_prefix in H. apply matches_spec in H.
    apply lang_Seq_inv in H. destruct H as (s1 & s2 & -> & H1 & _).
    apply lang_Seq_inv in H1. destruct H1 as (s3 & s4 & -> & H3 & H4).
    apply lang_Seq_inv in H4. destruct H4 as (s5 & s6 & -> & _ & H6).
    inversion H6 as [|cs c Hc| | | | |]; subst. simpl in Hc.
    apply Ascii.eqb_eq in Hc. subst c.
    exists (s3 ++ s5), s2. now rewrite !append_assoc.
  - exact (L "192.168" H).
  - exact (L "127" H).
  - exact (L "169.254" H).
  - exact (L "0" H).
Qed.

Lemma plain6_not_private4 (t : string) :
  Whatwg.forall_chars plain6 t = true -> isPrivateIPv4 t = false.
Proof.
  intro H. destruct (isPrivateIPv4 t) eqn:E; [|reflexivity].
  apply isPrivateIPv4_needs_dot in E. destruct E as (a & b & ->).
  now rewrite plain6_no_dot in H.
Qed.

Lemma plain6_head (p : ascii -> bool) (x : ascii) (r t : string) :
  Whatwg.forall_chars plain6 t = true -> plain6 x = false ->
  String.eqb t (String x r) = false.
Proof.
  destruct t as [|c t]; [reflexivity|]. simpl. rewrite andb_true_iff.
  intros [Hc _] Hx. destruct (Ascii.eqb_spec c x) as [->|]; [congruence|reflexivity].
Qed.

(** A bracketed text is blocked by name only when it is [::1]. *)
Lemma bracketed_blocked_by_name (l : string) :
  Js.toLowerCase l = l ->
  isBlockedHostname ("[" ++ l ++ "]") = String.eqb l "::1".
Proof.
  intro Hl.
  assert (R : Js.toLowerCase ("[" ++ l ++ "]") = "[" ++ l ++ "]").
  { rewrite !toLowerCase_append, Hl. reflexivity. }
  destruct (String.eqb_spec l "::1") as [->|N].
  - reflexivity.
  - destruct (isBlockedHostname _) eqn:B; [|reflexivity]. exfalso.
    apply isBlockedHostname_iff in B. rewrite R in B.
    destruct B as [B|(suffix & Hs & He)].
    + simpl in B. destruct B as [B|[B|[B|[B|[B|[]]]]]]; try discriminate.
      injection B as B. apply N.
      assert (E : Js.rev (l ++ "]") = Js.rev "::1]") by now rewrite <- B.
      rewrite !rev_append in E. simpl in E. injection E as E.
      rewrite <- (rev_involutive l), E. reflexivity.
    + unfold Js.endsWith in He. cbn [append] in He.
      change (String "[" (l ++ "]")) with ("[" ++ (l ++ "]")) in He.
      rewrite !rev_append in He. simpl in Hs, He.
      destruct Hs as [<-|[<-|[<-|[]]]]; discriminate.
Qed.

(** X4.  For an http(s) URL whose host is a bracketed text of hexadecimal digits
    and colons, the verdict rests on the beginning of the lower-cased text
    alone: the URL is refused when the text is ::1 or starts with fc, fd or
    fe80, and found valid otherwise. *)
Theorem ipv6_verdict_by_text (api : UrlApi) (urlString : string) (u : URL)
    (t : string) :
  URL_new urlString None = Some u ->
  is_http u = true ->
  hostname u = "[" ++ t ++ "]" ->
  Whatwg.forall_chars hexColon t = true ->
  valid (validateUrl urlString)
  = negb (String.eqb (Js.toLowerCase t) "::1" || startsPrivate6 (Js.toLowerCase t)) /\
  (valid (validateUrl urlString) = false ->
   error_code (validateUrl urlString) = Some ErrorCodes.BLOCKED_URL).
Proof.
  intros Hu Hp Hh Ht. unfold validateUrl. rewrite Hu.
  unfold is_http in Hp. apply orb_true_iff in Hp.
  assert ((negb (String.eqb (protocol u) "http:") &&
           negb (String.eqb (protocol u) "https:"))%bool = false) as ->.
  { destruct Hp as [-> | ->]; simpl; [reflexivity | apply andb_false_r]. }
  rewrite Hh, !toLowerCase_append.
  change (Js.toLowerCase "[") with "[". change (Js.toLowerCase "]") with "]".
  pose proof (hexColon_text_lower t Ht) as Hl.
  set (l := Js.toLowerCase t) in *.
  assert (Ll : Js.toLowerCase l = l) by apply toLowerCase_toLowerCase.
  rewrite (bracketed_blocked_by_name l Ll).
  destruct (String.eqb l "::1") eqn:E1; [split; reflexivity|].
  assert (L : looksLikeIP ("[" ++ l ++ "]") = true).
  { unfold looksLikeIP. destruct (Re.test_whole _ _); [reflexivity|].
    assert (Js.startsWith ("[" ++ l ++ "]") "[" = true) as ->
        by (unfold Js.startsWith; apply prefix_append).
    now rewrite orb_true_r. }
  rewrite L, removeBrackets_bracketed, (plain6_not_private4 l Hl).
  unfold isPrivateIPv6. rewrite Ll, E1.
  rewrite (plain6_head plain6 "[" "::1]" l Hl eq_refl).
  cbn [orb]. unfold startsPrivate6, Js.startsWith.
  destruct (String.prefix "fc" l), (String.prefix "fd" l); try (split; reflexivity).
  cbn [orb]. destruct (String.prefix "fe80" l); split; try reflexivity; discriminate.
Qed.

(** The theorem on the IPv4-mapped loopback address, which is found valid, and
    on fc::1, which is refused although it lies outside fc00::/7. *)
Lemma ipv6_verdict_by_text_witness :
  valid (validateUrl "http://[::ffff:7f00:1]:8080/") = true /\
  valid (validateUrl "http://[fc::1]/") = false.
Proof.
  split.
  - rewrite (proj1 (ipv6_verdict_by_text whatwg "http://[::ffff:7f00:1]:8080/"
               (Build_URL "http://[::ffff:7f00:1]:8080/" "http:" "[::ffff:7f00:1]"
                  "/" "http://[::ffff:7f00:1]:8080")
               "::ffff:7f00:1" eq_refl eq_refl eq_refl eq_refl)).
    reflexivity.
  - rewrite (proj1 (ipv6_verdict_by_text whatwg "http://[fc::1]/"
               (Build_URL "http://[fc::1]/" "http:" "[fc::1]" "/" "http://[fc::1]")
               "fc::1" eq_refl eq_refl eq_refl eq_refl)).
    reflexivity.
Defined.

End Ipv6Text.

(* ---------------------------------------------------------------------- *)
(** ** lib/ssrf.ts: names with a trailing dot *)
(* ---------------------------------------------------------------------- *)

Section TrailingDot.

Import Re Ssrf SsrfAux SsrfNames.

(** A word of [\d{1,3}] ends with a digit. *)
Lemma lang_digits_last (w : string) :
  lang (Between 1 3 digit) w ->
  exists c r, Js.rev w = String c r /\ Js.is_digit c = true.
Proof.
  unfold Between. cbn [Times Upto Nat.sub]. intro H.
  apply lang_Seq_inv in H. destruct H as (s1 & s2 & -> & H1 & H2).
  apply lang_Seq_inv in H1. destruct H1 as (a & z & -> & Ha & Hz).
  apply lang_Eps_inv in Hz. subst z.
  inversion Ha as [|cs c1 Hc1| | | | |]; subst. simpl in Hc1.
  apply lang_Alt_inv in H2. destruct H2 as [H2|H2].
  - apply lang_Seq_inv in H2. destruct H2 as (b & s3 & -> & Hb & H3).
    inversion Hb as [|cs c2 Hc2| | | | |]; subst. simpl in Hc2.
    apply lang_Alt_inv in H3. destruct H3 as [H3|H3].
    + apply lang_Seq_inv in H3. destruct H3 as (d & s4 & -> & Hd & H4).
      inversion Hd as [|cs c3 Hc3| | | | |]; subst. simpl in Hc3.
      apply lang_Eps_inv in H4. subst s4.
      exists c3, (String c2 (String c1 "")). split; [reflexivity | exact Hc3].
    + apply lang_Eps_inv in H3. subst s3.
      exists c2, (String c1 ""). split; [reflexivity | exact Hc2].
  - apply lang_Eps_inv in H2. subst s2.
    exists c1, "". split; [reflexivity | exact Hc1].
Qed.

(** A dotted quad does not end with a dot. *)
Lemma quad_not_dotted (h : string) :
  Js.endsWith h "." = true ->
  test_whole
    (Seq (Between 1 3 digit) (Seq dot (Seq (Between 1 3 digit) (Seq dot
       (Seq (Between 1 3 digit) (Seq dot (Between 1 3 digit)))))))
    h = false.
Proof.
  intro E. unfold test_whole. destruct (matches _ h) eqn:M; [|reflexivity].
  exfalso. apply matches_spec in M.
  apply lang_Seq_inv in M. destruct M as (a1 & r1 & -> & _ & M).
  apply lang_Seq_inv in M. destruct M as (d1 & r2 & -> & _ & M).
  apply lang_Seq_inv in M. destruct M as (a2 & r3 & -> & _ & M).
  apply lang_Seq_inv in M. destruct M as (d2 & r4 & -> & _ & M).
  apply lang_Seq_inv in M. destruct M as (a3 & r5 & -> & _ & M).
  apply lang_Seq_inv in M. destruct M as (d3 & a4 & -> & _ & M).
  apply lang_digits_last in M. destruct M as (c & r & Hr & Hc).
  unfold Js.endsWith in E. rewrite !rev_append, Hr in E.
  change (Js.rev ".") with "." in E. cbn [append String.prefix] in E.
  destruct (ascii_dec "." c) as [<-|]; [|discriminate E].
  vm_compute in Hc. discriminate Hc.
Qed.

(** X5.  [validateUrl] compares host names as texts, so a name written with its
    final dot is not recognised: every http(s) URL whose host ends with a
    dot, has no colon and does not start with a bracket is found valid,
    [localhost.] and [metadata.google.internal.] included. *)
Theorem trailing_dot_names_pass (api : UrlApi) (urlString : string) (u : URL) :
  URL_new urlString None = Some u ->
  is_http u = true ->
  Js.endsWith (Js.toLowerCase (hostname u)) "." = true ->
  Js.includes (Js.toLowerCase (hostname u)) ":" = false ->
  Js.startsWith (Js.toLowerCase (hostname u)) "[" = false ->
  validateUrl urlString = {| valid := true; error := None; url := Some u |}.
Proof.
  intros Hu Hp Hd Hc Hb. unfold validateUrl. rewrite Hu.
  unfold is_http in Hp. apply orb_true_iff in Hp.
  assert ((negb (String.eqb (protocol u) "http:") &&
           negb (String.eqb (protocol u) "https:"))%bool = false) as ->.
  { destruct Hp as [-> | ->]; simpl; [reflexivity | apply andb_false_r]. }
  set (h := Js.toLowerCase (hostname u)) in *.
  assert (B : isBlockedHostname h = false).
  { destruct (isBlockedHostname h) eqn:B; [|reflexivity]. exfalso.
    apply isBlockedHostname_iff in B. unfold h in B.
    rewrite toLowerCase_toLowerCase in B. fold h in B.
    apply endsWith_split in Hd. destruct Hd as [a Ha].
    destruct B as [B|(suffix & Hs & He)].
    - rewrite Ha in B. simpl in B.
      destruct B as [B|[B|[B|[B|[B|[]]]]]];
        apply (f_equal Js.rev) in B; rewrite rev_append in B; discriminate.
    - unfold Js.endsWith in He. rewrite Ha, rev_append in He. simpl in Hs.
      destruct Hs as [<-|[<-|[<-|[]]]]; discriminate. }
  rewrite B. unfold looksLikeIP. rewrite (quad_not_dotted h Hd), Hc, Hb.
  reflexivity.
Qed.

(** The theorem on http://localhost./admin. *)
Lemma trailing_dot_names_pass_witness :
  valid (validateUrl "http://localhost./admin") = true /\
  valid (validateUrl "http://localhost/admin") = false.
Proof.
  split; [|reflexivity].
  rewrite (trailing_dot_names_pass whatwg "http://localhost./admin"
             (Build_URL "http://localhost./admin" "http:" "localhost." "/admin"
                "http://localhost.")
             eq_refl eq_refl eq_refl eq_refl eq_refl).
  reflexivity.
Defined.

End TrailingDot.


(* ---------------------------------------------------------------------- *)
(** ** api/discover.ts: the input of a discovery *)
(* ---------------------------------------------------------------------- *)

Section InputFacts.

Import Re Discover Inputs.

Lemma name_char_isNameChar (c : ascii) : cmem name_char c = isNameChar c.
Proof.
  assert (H : forallb (fun n => Bool.eqb (cmem name_char (ascii_of_nat n))
                                  (isNameChar (ascii_of_nat n)))
                      (List.seq 0 256) = true) by (vm_compute; reflexivity).
  rewrite forallb_forall in H. specialize (H (nat_of_ascii c)).
  rewrite ascii_nat_embedding in H. apply Bool.eqb_prop, H.
  apply in_seq. pose proof (nat_ascii_bounded c). lia.
Qed.

Lemma Whatwg_forall_ext (p q : ascii -> bool) (s : string) :
  (forall c, p c = q c) -> Whatwg.forall_chars p s = Whatwg.forall_chars q s.
Proof.
  intro H. induction s as [|c s IH]; simpl; [reflexivity|]. now rewrite H, IH.
Qed.

(** The words of [[cs]*] are the strings of characters of the class. *)
Lemma lang_Star_Sym (cs : cset) (s : string) :
  lang (Star (Sym cs)) s <-> Whatwg.forall_chars (cmem cs) s = true.
Proof.
  split.
  - intro H. remember (Star (Sym cs)) as r eqn:R.
    induction H as [| | | | | a |a s t H1 _ H2 IH2]; try discriminate.
    + reflexivity.
    + injection R as ->. inversion H1 as [|x c Hc| | | | |]; subst.
      simpl. rewrite Hc. now apply IH2.
  - induction s as [|c s IH]; simpl; [constructor|].
    rewrite andb_true_iff. intros [Hc Hs].
    change (String c s) with (String c "" ++ s).
    constructor; [now constructor | now apply IH].
Qed.

Lemma includes_dot (p : ascii -> bool) (s : string) :
  Whatwg.forall_chars p s = true -> p "."%char = false ->
  Js.includes s "." = false.
Proof.
  intros Hs Hp. induction s as [|c s IH]; [reflexivity|].
  simpl in Hs. apply andb_true_iff in Hs. destruct Hs as [Hc Hs].
  cbn [Js.includes String.prefix]. rewrite (IH Hs).
  destruct (ascii_dec "." c) as [<-|]; [congruence | reflexivity].
Qed.

(** The shape of a user name: an optional [@], then one or more characters
    among letters, digits, underscore and hyphen.  The test for a dot never
    decides. *)
Lemma isUsernameInput_shape (input : string) :
  isUsernameInput input = true <->
  exists name, name <> "" /\ Whatwg.forall_chars isNameChar name = true /\
               (input = name \/ input = "@" ++ name).
Proof.
  unfold isUsernameInput, test_whole. split.
  - rewrite andb_true_iff. intros [M _]. apply matches_spec in M.
    apply lang_Seq_inv in M. destruct M as (s1 & s2 & -> & H1 & H2).
    unfold Plus in H2. apply lang_Seq_inv in H2.
    destruct H2 as (s3 & s4 & -> & H3 & H4).
    inversion H3 as [|cs c Hc| | | | |]; subst.
    apply lang_Star_Sym in H4.
    exists (String c s4). split; [discriminate|]. split.
    + simpl. rewrite <- name_char_isNameChar, Hc.
      erewrite Whatwg_forall_ext; [exact H4|]. intro. symmetry.
      apply name_char_isNameChar.
    + apply lang_Alt_inv in H1. destruct H1 as [H1|H1].
      * inversion H1 as [|cs x Hx| | | | |]; subst. simpl in Hx.
        apply Ascii.eqb_eq in Hx. subst. right. reflexivity.
      * apply lang_Eps_inv in H1. subst. left. reflexivity.
  - intros (name & Hne & Hn & Hi).
    assert (M : matches (Seq (Opt (Chr "@")) (Plus (Sym name_char))) input = true).
    { apply matches_spec.
      assert (P : lang (Plus (Sym name_char)) name).
      { destruct name as [|c name]; [now elim Hne|]. simpl in Hn.
        apply andb_true_iff in Hn. destruct Hn as [Hc Hn].
        change (String c name) with (String c "" ++ name).
        constructor.
        - constructor. now rewrite name_char_isNameChar.
        - apply lang_Star_Sym. erewrite Whatwg_forall_ext; [exact Hn|].
          intro. apply name_char_isNameChar. }
      destruct Hi as [-> | ->].
      - change name with ("" ++ name). constructor; [|exact P].
        apply L_AltR. constructor.
      - constructor; [|exact P]. apply L_AltL. constructor. reflexivity. }
    rewrite M. simpl.
    assert (D : Js.includes input "." = false).
    { apply (includes_dot (fun c => (isNameChar c || Ascii.eqb c "@")%bool));
        [|reflexivity].
      assert (A : Whatwg.forall_chars
                    (fun c => (isNameChar c || Ascii.eqb c "@")%bool) name = true).
      { clear -Hn. induction name as [|c name IH]; [reflexivity|]. simpl in *.
        apply andb_true_iff in Hn. destruct Hn as [-> Hn]. simpl. now apply IH. }
      destruct Hi as [-> | ->]; [exact A|]. simpl. exact A. }
    now rewrite D.
Qed.

End InputFacts.

Section Usernames.

Import Discover DiscoverAux Inputs.

(** A name has no leading [@] to remove. *)
Lemma stripAt_name (name : string) :
  name <> "" -> Whatwg.forall_chars isNameChar name = true ->
  stripAt name = name /\ stripAt ("@" ++ name) = name.
Proof.
  intros Hne Hn. split; [|reflexivity].
  destruct name as [|c name]; [now elim Hne|].
  simpl in Hn. apply andb_true_iff in Hn. destruct Hn as [Hc _].
  unfold stripAt.
  destruct (Ascii.eqb_spec c "@") as [->|N]; [discriminate|].
  destruct c as [[] [] [] [] [] [] [] []]; try reflexivity. now elim N.
Qed.

(** X6.  An input is taken for a user name exactly when, once a leading [@] is
    removed, one or more letters, digits, underscores and hyphens remain; the
    test for a dot that follows the pattern never decides. *)
Theorem username_inputs (input : string) :
  isUsernameInput input = true <->
  stripAt input <> "" /\ Whatwg.forall_chars isNameChar (stripAt input) = true.
Proof.
  rewrite isUsernameInput_shape. split.
  - intros (name & Hne & Hn & Hi).
    destruct (stripAt_name name Hne Hn) as [S1 S2].
    destruct Hi as [-> | ->]; [rewrite S1 | rewrite S2]; auto.
  - intros [Hne Hn]. exists (stripAt input). repeat split; try assumption.
    unfold stripAt.
    destruct input as [|c r]; [auto|].
    destruct (Ascii.eqb_spec c "@") as [->|N]; [right; reflexivity|].
    left. destruct c as [[] [] [] [] [] [] [] []]; try reflexivity. now elim N.
Qed.

Lemma trim_truthy (s : string) : Js.trim s <> "" -> Js.truthy s = true.
Proof. destruct s; [intro H; now elim H | reflexivity]. Qed.

(** X7.  A request whose [url] is a user name is answered with the platform hint
    on the response that carries the CORS headers: the status is 200, the
    name is the input without its leading [@], the three suggestions are
    built from it, and no network call is made.  When the CORS headers cannot
    be set, the handler ends with the exception of [setHeader] instead. *)
Theorem username_platform_hint (api : UrlApi) (env : Environment) (cfg : Config)
    (w : World) (req : VercelRequest) (res : Cors.VercelResponse ResponseBody)
    (log : list Event) (body : JsValue) (s : string) :
  req_method req = "POST" ->
  Auth.accepted (Auth.validateAuth cfg req) = true ->
  parseBody w req = Normal body ->
  get_url body = Normal (JString s) ->
  isUsernameInput (Js.trim s) = true ->
  let name := stripAt (Js.trim s) in
  name <> "" /\
  Whatwg.forall_chars isNameChar name = true /\
  handler env cfg w req res log
  = (match Cors.setCorsHeaders env res with
     | Throw e => Throw e
     | Normal res1 =>
         Normal
           (Cors.json (Cors.status res1 200)
              (PlatformHintBody name
                 [ {| platform := "substack";
                      suggestion_url := "https://" ++ name ++ ".substack.com";
                      label := "Substack" |};
                   {| platform := "medium";
                      suggestion_url := "https://medium.com/@" ++ name;
                      label := "Medium" |};
                   {| platform := "ghost";
                      suggestion_url := "https://" ++ name ++ ".ghost.io";
                      label := "Ghost" |} ]))
     end, log).
Proof.
  intros Hm Ha Hb Hu Hn name.
  assert (Hs : name <> "" /\ Whatwg.forall_chars isNameChar name = true).
  { subst name. apply isUsernameInput_shape in Hn.
    destruct Hn as (n & Hne & Hc & Hi).
    destruct (stripAt_name n Hne Hc) as [S1 S2].
    destruct Hi as [-> | ->]; [rewrite S1 | rewrite S2]; auto. }
  destruct Hs as [Hne Hc].
  split; [exact Hne|]. split; [exact Hc|].
  assert (A : answer cfg w req log
              = (Responded 200 (platformHint name), log)).
  { unfold answer. rewrite Hm.
    change (negb (String.eqb "POST" "POST")) with false. cbv iota.
    unfold Auth.accepted in Ha.
    destruct (Auth.validateAuth cfg req) as [auth|e]; [|discriminate].
    rewrite Ha, Hb, Hu. cbn [negb value_truthy is_string orb].
    assert (T : Js.truthy s = true).
    { apply trim_truthy. intro E. rewrite E in Hn. discriminate. }
    rewrite T. cbn [negb]. cbv iota.
    unfold discoverInput. rewrite Hn. reflexivity. }
  unfold handler. rewrite Hm.
  change (String.eqb "POST" "OPTIONS") with false. cbv iota.
  destruct (Cors.setCorsHeaders env res) as [res1|e]; [|reflexivity].
  unfold bind. rewrite A. reflexivity.
Qed.

(** The theorem on the input [" @jane_doe "]. *)
Lemma username_platform_hint_witness :
  DiscoverAux.answers
    (run Scenario.env Scenario.cfg Scenario.feedWorld
       (Scenario.discoverRequest " @jane_doe "))
    200 (platformHint "jane_doe") /\
  snd (run Scenario.env Scenario.cfg Scenario.feedWorld
         (Scenario.discoverRequest " @jane_doe "))
  = [].
Proof.
  destruct (username_platform_hint whatwg Scenario.env Scenario.cfg Scenario.feedWorld
              (Scenario.discoverRequest " @jane_doe ") (Cors.fresh ResponseBody) []
              (JObject [("url", JString " @jane_doe ")]) " @jane_doe "
              eq_refl eq_refl eq_refl eq_refl eq_refl) as (_ & _ & E).
  unfold run. rewrite E. split; [|reflexivity].
  eexists. split; [reflexivity|]. split; reflexivity.
Defined.

End Usernames.

Section Normalisation.

Import Discover Inputs.

Lemma trimStart_trimStart (s : string) :
  Js.trimStart (Js.trimStart s) = Js.trimStart s.
Proof.
  induction s as [|c s IH]; [reflexivity|]. simpl.
  destruct (Js.is_space c) eqn:E; [exact IH|]. simpl. now rewrite E.
Qed.

Lemma rev_cons (c : ascii) (s : string) :
  Js.rev (String c s) = Js.rev s ++ String c "".
Proof. unfold Js.rev at 1. simpl. now rewrite rev_acc_append. Qed.

Lemma trim_isTrimmed (s : string) : isTrimmed (Js.trim s).
Proof.
  unfold isTrimmed, Js.trim, Js.trimEnd. split.
  - destruct (Js.trimStart s) as [|c t] eqn:E; [reflexivity|].
    assert (Hc : Js.is_space c = false).
    { pose proof (trimStart_trimStart s) as I. rewrite E in I. simpl in I.
      destruct (Js.is_space c); [|reflexivity].
      exfalso. clear -I. assert (L : forall t, String.length (Js.trimStart t)
                                           <= String.length t).
      { induction t0 as [|x t0 IH]; simpl; [lia|].
        destruct (Js.is_space x); simpl; lia. }
      specialize (L t). rewrite I in L. simpl in L. lia. }
    rewrite rev_cons.
    destruct (trimStart_keeps_last (Js.rev t) c Hc) as [a' ->].
    rewrite rev_append. simpl. now rewrite Hc.
  - rewrite rev_involutive. apply trimStart_trimStart.
Qed.

Lemma trim_of_trimmed (s : string) : isTrimmed s -> Js.trim s = s.
Proof.
  intros [H1 H2]. unfold Js.trim, Js.trimEnd.
  now rewrite H1, H2, rev_involutive.
Qed.

Lemma trimStart_head (a b : string) :
  a <> "" -> Js.trimStart a = a -> Js.trimStart (a ++ b) = a ++ b.
Proof.
  destruct a as [|c a]; [intro H; now elim H|]. intros _. simpl.
  destruct (Js.is_space c) eqn:E; [|reflexivity].
  intro H. exfalso.
  assert (L : forall t, String.length (Js.trimStart t) <= String.length t).
  { induction t as [|x t IH]; simpl; [lia|].
    destruct (Js.is_space x); simpl; lia. }
  specialize (L a). rewrite H in L. simpl in L. lia.
Qed.

Lemma https_isTrimmed (t : string) : isTrimmed t -> isTrimmed ("https://" ++ t).
Proof.
  intros [_ H2]. split; [reflexivity|].
  rewrite rev_append.
  destruct (Js.rev t) as [|c r] eqn:E; [reflexivity|].
  apply trimStart_head; [discriminate | exact H2].
Qed.

(** X8.  Normalising twice is normalising once, and the result always starts with
    http:// or https://. *)
Theorem normalizeUrl_idempotent (input : string) :
  normalizeUrl (normalizeUrl input) = normalizeUrl input /\
  (Js.startsWith (normalizeUrl input) "http://" ||
   Js.startsWith (normalizeUrl input) "https://")%bool = true /\
  Js.trim (normalizeUrl input) = normalizeUrl input.
Proof.
  unfold normalizeUrl.
  pose proof (trim_isTrimmed input) as T. set (t := Js.trim input) in *.
  destruct (Js.startsWith t "http://" || Js.startsWith t "https://")%bool eqn:E.
  - rewrite (trim_of_trimmed t T), E. auto.
  - rewrite (trim_of_trimmed _ (https_isTrimmed t T)).
    assert (P : Js.startsWith ("https://" ++ t) "https://" = true)
      by (unfold Js.startsWith; apply prefix_append).
    rewrite P, orb_true_r. auto.
Qed.

End Normalisation.

Section HomepageOfArticle.

Import Re Discover.

Lemma firstMatch_some (patterns : list regex) (path group1 : string) :
  firstMatch patterns path = Some group1 ->
  exists pattern, In pattern patterns /\
                  match_lazy_prefix pattern path = Some group1.
Proof.
  induction patterns as [|p l IH]; simpl; [discriminate|].
  destruct (match_lazy_prefix p path) as [g|] eqn:E.
  - intros [= <-]. exists p. auto.
  - intro H. destruct (IH H) as (q & Hq & Hm). exists q. auto.
Qed.

(** Every article pattern starts with a slash. *)
Lemma articlePattern_slash (pattern : regex) (rest : string) :
  In pattern articlePatterns -> matches pattern rest = true ->
  exists tail, rest = String "/" tail.
Proof.
  intros Hp M. apply matches_spec in M.
  assert (L : forall b s, lang (Seq (Chr "/") b) s -> exists tail, s = String "/" tail).
  { intros b s H. apply lang_Seq_inv in H. destruct H as (s1 & s2 & -> & H1 & _).
    assert (E : s1 = "/").
    { apply lang_Lit_inv. simpl. rewrite <- (append_nil_r s1).
      constructor; [exact H1 | constructor]. }
    subst. simpl. eauto. }
  assert (L' : forall p b s, lang (Seq (Lit (String "/" p)) b) s ->
                             exists tail, s = String "/" tail).
  { intros p b s H. apply lang_Seq_inv in H. destruct H as (s1 & s2 & -> & H1 & _).
    apply lang_Lit_inv in H1. subst. simpl. eauto. }
  unfold articlePatterns in Hp.
  destruct Hp as [<-|[<-|[<-|[<-|[<-|[]]]]]].
  - exact (L _ _ M).
  - exact (L _ _ M).
  - exact (L' _ _ _ M).
  - exact (L' _ _ _ M).
  - exact (L' _ _ _ M).
Qed.

(** X9.  The homepage derived from an article stays on the origin of the article:
    it is the origin alone, the origin followed by [/], or the origin followed
    by a beginning of the path after which the path goes on with a slash. *)
Theorem extractHomepageUrl_same_origin (u : URL) :
  exists basePath,
    extractHomepageUrl u = origin u ++ basePath /\
    (basePath = "" \/ basePath = "/" \/
     exists tail, pathname u = basePath ++ String "/" tail).
Proof.
  unfold extractHomepageUrl.
  destruct (firstMatch articlePatterns (pathname u)) as [group1|] eqn:F.
  - apply firstMatch_some in F. destruct F as (pattern & Hp & Hm).
    apply match_lazy_prefix_sound in Hm. destruct Hm as (rest & E & M).
    destruct (articlePattern_slash pattern rest Hp M) as [tail ->].
    destruct group1 as [|c g].
    + exists "/". auto.
    + exists (String c g). split; [reflexivity|]. right. right. eauto.
  - exists "". split; [now rewrite append_nil_r | auto].
Qed.

End HomepageOfArticle.

(* ---------------------------------------------------------------------- *)
(** ** api/discover.ts: feeds declared by a page, feeds parsed *)
(* ---------------------------------------------------------------------- *)

Section DeclaredFeeds.

Import Discover.

Context {api : UrlApi}.

Lemma In_keepSome {A : Type} (x : A) (l : list (option A)) :
  In x (keepSome l) <-> In (Some x) l.
Proof.
  induction l as [|[y|] l IH]; simpl.
  - tauto.
  - rewrite IH. split; intros [H|H]; auto; left; congruence.
  - rewrite IH. split; [auto | intros [H|H]; [discriminate | exact H]].
Qed.

Lemma feedOfLink_some (baseUrl : string) (link : Element) (f : FeedInfo) :
  feedOfLink baseUrl link = Some f <->
  exists href t,
    getAttribute link "href" = Some href /\ href <> "" /\
    getAttribute link "type" = Some t /\
    (Js.includes (Js.toLowerCase t) "rss" ||
     Js.includes (Js.toLowerCase t) "atom")%bool = true /\
    f = {| url := resolveUrl href baseUrl;
           title := or_null (getAttribute link "title");
           type := if Js.includes (Js.toLowerCase t) "rss" then rss else atom |}.
Proof.
  unfold feedOfLink. split.
  - destruct (getAttribute link "href") as [href|]; [|discriminate].
    destruct href as [|c href]; [discriminate|]. cbn [Js.truthy negb].
    destruct (getAttribute link "type") as [t|]; [|discriminate].
    cbn [option_map opt_includes].
    destruct (Js.includes (Js.toLowerCase t) "rss") eqn:R.
    + intros [= <-]. exists (String c href), t. rewrite R.
      repeat split; try reflexivity; discriminate.
    + destruct (Js.includes (Js.toLowerCase t) "atom") eqn:A;
        [|simpl; discriminate].
      intros [= <-]. exists (String c href), t. rewrite R, A.
      repeat split; try reflexivity; discriminate.
  - intros (href & t & -> & Hne & -> & Hi & ->).
    destruct href as [|c href]; [now elim Hne|]. cbn [Js.truthy negb].
    cbn [option_map opt_includes].
    destruct (Js.includes (Js.toLowerCase t) "rss"); [reflexivity|].
    simpl in Hi. now rewrite Hi.
Qed.

(** X10.  The feeds a page declares are those of its [link rel="alternate"]
    elements that have a non-empty href and a type containing rss or atom, in
    any case: the URL is the href resolved against the base, the type is rss
    when the type attribute contains rss and atom otherwise, never unknown;
    a link without a type, or with another type, declares nothing. *)
Theorem declared_feeds (document : Document) (baseUrl : string) (f : FeedInfo) :
  In f (discoverFeedsFromHtml document baseUrl) <->
  exists link href t,
    In link (querySelectorAll document ("link" ++ attr_sel "rel" "alternate")) /\
    getAttribute link "href" = Some href /\ href <> "" /\
    getAttribute link "type" = Some t /\
    (Js.includes (Js.toLowerCase t) "rss" ||
     Js.includes (Js.toLowerCase t) "atom")%bool = true /\
    f = {| url := resolveUrl href baseUrl;
           title := or_null (getAttribute link "title");
           type := if Js.includes (Js.toLowerCase t) "rss" then rss else atom |}.
Proof.
  unfold discoverFeedsFromHtml. rewrite In_keepSome, in_map_iff. split.
  - intros (link & Hf & Hl). apply feedOfLink_some in Hf.
    destruct Hf as (href & t & H). exists link, href, t. tauto.
  - intros (link & href & t & Hl & H). exists link. split; [|exact Hl].
    apply feedOfLink_some. exists href, t. exact H.
Qed.

End DeclaredFeeds.

Section ParsedFeeds.

Import Discover Responses.

Lemma opt_or_truthy (a : option string) (b : string) :
  b <> "" -> Js.opt_or a b <> "".
Proof.
  intro Hb. destruct a as [[|c s]|]; simpl; try assumption; discriminate.
Qed.

Lemma parseFeed_unfold (w : World) (feedUrl : string) (log : list Event) :
  snd (parseFeed w feedUrl log) = (log ++ [FeedRequested feedUrl])%list.
Proof. reflexivity. Qed.

Opaque List.firstn.

Lemma parseFeed_facts (w : World) (feedUrl : string) (log : list Event)
    (r : ParsedResult) :
  fst (parseFeed w feedUrl log) = Some r ->
  List.length (posts r) <= 3 /\ md_title (metadata r) <> "" /\
  Forall (fun p => post_title p <> "") (posts r) /\
  sample_size (contentAnalysis r) <= 5 /\
  (feedUrl <> "" -> md_link (metadata r) <> "").
Proof.
  unfold parseFeed. cbn [fst].
  destruct (rss_parseURL w log feedUrl) as [parsedFeed|e]; [|discriminate].
  intros [= <-]. cbn [posts metadata md_title md_link contentAnalysis].
  split; [|split; [|split; [|split]]].
  - rewrite length_map, length_firstn. lia.
  - now apply opt_or_truthy.
  - apply Forall_forall. intros p Hp. apply in_map_iff in Hp.
    destruct Hp as (item & <- & _). cbn [post_title]. now apply opt_or_truthy.
  - unfold analyzeFullContent, analyzeFullContentN.
    destruct (analyzeLoop _ 0 0). cbn [sample_size]. rewrite length_firstn. lia.
  - apply opt_or_truthy.
Qed.

(** X11.  Parsing a feed asks the parser for the URL once and never throws: an
    error of the parser gives no result.  A result has at most 3 posts, the
    first 3 items of the feed in their order, each with a non-empty title, a
    non-empty feed title, a link that falls back on the URL of the feed, and
    an analysis of at most 5 items. *)
Theorem parseFeed_result (w : World) (feedUrl : string) (log : list Event) :
  snd (parseFeed w feedUrl log) = (log ++ [FeedRequested feedUrl])%list /\
  match fst (parseFeed w feedUrl log) with
  | None => exists e, rss_parseURL w log feedUrl = Throw e
  | Some r =>
      exists parsedFeed,
        rss_parseURL w log feedUrl = Normal parsedFeed /\
        let items := match feed_items parsedFeed with Some l => l | None => [] end in
        List.length (posts r) = Nat.min 3 (List.length items) /\
        List.map post_link (posts r)
        = List.map (fun item => Js.opt_or (item_link item) "") (List.firstn 3 items) /\
        Forall (fun p => post_title p <> "") (posts r) /\
        md_title (metadata r) <> "" /\
        (Js.opt_truthy (feed_link parsedFeed) = false ->
         md_link (metadata r) = feedUrl) /\
        contentAnalysis r = analyzeFullContent items /\
        sample_size (contentAnalysis r) <= 5
  end.
Proof.
  split; [reflexivity|].
  destruct (fst (parseFeed w feedUrl log)) as [r|] eqn:E.
  - pose proof (parseFeed_facts w feedUrl log r E) as (_ & Ht & Hp & Hs & _).
    unfold parseFeed in E. cbn [fst] in E.
    destruct (rss_parseURL w log feedUrl) as [parsedFeed|e]; [|discriminate].
    exists parsedFeed. split; [reflexivity|]. cbv zeta.
    injection E as <-. cbn [posts metadata md_title md_link contentAnalysis] in *.
    repeat split; try assumption.
    + now rewrite length_map, length_firstn.
    + rewrite map_map. reflexivity.
    + destruct (feed_link parsedFeed) as [[|c s]|]; simpl; try reflexivity;
        discriminate.
  - unfold parseFeed in E. cbn [fst] in E.
    destruct (rss_parseURL w log feedUrl) as [parsedFeed|e]; [discriminate|].
    eauto.
Qed.

Transparent List.firstn.

End ParsedFeeds.

Section AverageLength.

Import Discover Responses.

Lemma analyzeLoop_total (sample : list Item) (c t : nat) :
  snd (analyzeLoop sample c t) = t + totalContentLength sample.
Proof.
  revert c t. unfold totalContentLength.
  induction sample as [|item rest IH]; intros c t; simpl; [lia|].
  rewrite IH. lia.
Qed.

Lemma roundDiv_bounds (a b : nat) :
  0 < b ->
  (2 * Z.of_nat a - Z.of_nat b < 2 * Z.of_nat b * roundDiv a b
   <= 2 * Z.of_nat a + Z.of_nat b)%Z.
Proof.
  intro Hb. unfold roundDiv.
  pose proof (Z.div_mod (2 * Z.of_nat a + Z.of_nat b) (2 * Z.of_nat b)
                ltac:(lia)) as D.
  pose proof (Z.mod_pos_bound (2 * Z.of_nat a + Z.of_nat b) (2 * Z.of_nat b)
                ltac:(lia)) as M.
  lia.
Qed.

Lemma list_sum_constant (l : list nat) (n : nat) :
  Forall (fun x => x = n) l -> List.list_sum l = List.length l * n.
Proof.
  induction 1 as [|x l Hx _ IH]; simpl; [reflexivity|]. rewrite IH, Hx. lia.
Qed.

(** X12.  The average content length is the total of the content lengths of the
    sample, the first 5 items, divided by its size and rounded to the nearest
    integer; it is 0 for a feed without items, and the common length when
    all the items of the sample have the same. *)
Theorem average_content_length_rounded (items : list Item) :
  let sample := List.firstn 5 items in
  let average := average_content_length (analyzeFullContent items) in
  let total := Z.of_nat (totalContentLength sample) in
  let size := Z.of_nat (List.length sample) in
  (sample = [] -> average = 0%Z) /\
  (sample <> [] ->
   (2 * total - size < 2 * size * average <= 2 * total + size)%Z) /\
  (forall n, sample <> [] ->
             Forall (fun item => contentLength item = n) sample ->
             average = Z.of_nat n).
Proof.
  intros sample average total size. subst average.
  unfold analyzeFullContent, analyzeFullContentN. fold sample.
  pose proof (analyzeLoop_total sample 0 0) as T.
  destruct (analyzeLoop sample 0 0) as [c t]. simpl in T. subst t.
  cbn [average_content_length].
  assert (B : sample <> [] ->
              (2 * total - size < 2 * size * roundDiv (totalContentLength sample)
                                                 (List.length sample)
               <= 2 * total + size)%Z).
  { intro Hne. apply roundDiv_bounds. destruct sample; [now elim Hne | simpl; lia]. }
  destruct sample as [|i rest] eqn:E.
  - split; [reflexivity|]. split; intros; exfalso; auto.
  - assert (Hlen : 0 < List.length (i :: rest)) by (simpl; lia).
    destruct (Nat.ltb_spec 0 (List.length (i :: rest))) as [_|]; [|lia].
    split; [discriminate|]. split; [exact B|].
    intros n _ Hall. specialize (B ltac:(discriminate)).
    assert (S : totalContentLength (i :: rest) = List.length (i :: rest) * n).
    { unfold totalContentLength. rewrite <- (length_map contentLength).
      apply list_sum_constant. apply Forall_map. exact Hall. }
    subst total size. rewrite S in B. rewrite S.
    set (k := List.length (i :: rest)) in *.
    rewrite Nat2Z.inj_mul in B.
    assert (Hk : (0 < Z.of_nat k)%Z) by lia.
    nia.
Qed.

End AverageLength.

Section ProbeRequests.

Import Discover DiscoverAux.

Context {api : UrlApi}.
Variable w : World.
Variable origin : string.

Lemma batch_requests (batch : list string) (log : list Event) :
  exists evs,
    snd (mapNet (probe w origin) batch log) = (log ++ evs)%list /\
    List.length evs <= List.length batch /\
    forall e, In e evs ->
      exists p, In p batch /\
                e = Fetched "HEAD" (origin ++ p) /\
                Ssrf.valid (Ssrf.validateUrl (origin ++ p)) = true.
Proof.
  revert log. induction batch as [|p batch IH]; intro log.
  - exists []. simpl. rewrite app_nil_r. repeat split; [lia | contradiction].
  - rewrite mapNet_cons. cbn [snd].
    destruct (IH (snd (probe w origin p log))) as (evs & E & Hl & Hev).
    rewrite E, probe_unfold.
    destruct (Ssrf.valid (Ssrf.validateUrl (origin ++ p))) eqn:V; cbn [negb snd].
    + exists (headProbe origin p :: evs). rewrite <- app_assoc.
      split; [reflexivity|]. split; [simpl; lia|].
      intros e [<-|He]; [exists p; simpl; auto|].
      destruct (Hev e He) as (q & Hq & H). exists q. simpl. auto.
    + exists evs. split; [reflexivity|]. split; [simpl; lia|].
      intros e He. destruct (Hev e He) as (q & Hq & H). exists q. simpl. auto.
Qed.

(** The requests of a probing, batch by batch: header-only requests to valid
    URLs made of the origin and a path of the batches. *)
Lemma probeBatches_requests (batches : list (list string)) (log : list Event) :
  exists evs,
    snd (probeBatches w origin batches log) = (log ++ evs)%list /\
    List.length evs <= List.length (List.concat batches) /\
    forall e, In e evs ->
      exists p, In p (List.concat batches) /\
                e = Fetched "HEAD" (origin ++ p) /\
                Ssrf.valid (Ssrf.validateUrl (origin ++ p)) = true.
Proof.
  revert log. induction batches as [|batch rest IH]; intro log.
  - exists []. simpl. rewrite app_nil_r. repeat split; [lia | contradiction].
  - destruct (batch_requests batch log) as (evs & E & Hl & Hev).
    cbn [probeBatches]. unfold bind.
    destruct (mapNet (probe w origin) batch log) as [results log1] eqn:M.
    cbn [snd] in E. subst log1.
    destruct (keepSome results) as [|hit hits].
    + destruct (IH (log ++ evs)%list) as (evs' & E' & Hl' & Hev').
      exists (evs ++ evs')%list. rewrite E', <- app_assoc.
      split; [reflexivity|]. cbn [List.concat].
      rewrite !length_app. split; [lia|].
      intros e He. apply in_app_or in He. destruct He as [He|He].
      * destruct (Hev e He) as (p & Hp & H). exists p.
        split; [apply in_or_app; now left | exact H].
      * destruct (Hev' e He) as (p & Hp & H). exists p.
        split; [apply in_or_app; now right | exact H].
    + exists evs. cbn [snd List.concat]. split; [reflexivity|].
      rewrite length_app. split; [lia|].
      intros e He. destruct (Hev e He) as (p & Hp & H). exists p.
      split; [apply in_or_app; now left | exact H].
Qed.

End ProbeRequests.

Section ProbeRequestsOfPaths.

Import Discover DiscoverAux.

(** X13.  Probing sends nothing but header-only requests, at most 10 of them, each
    to the origin followed by one of the common feed paths, and only when
    [validateUrl] found that URL valid; an origin whose probe URLs are all
    refused is never contacted. *)
Theorem probeFeedPaths_requests (api : UrlApi) (w : World) (origin : string)
    (log : list Event) :
  exists requests,
    snd (probeFeedPaths w origin log) = (log ++ requests)%list /\
    List.length requests <= 10 /\
    (forall e, In e requests ->
       exists path, In path COMMON_FEED_PATHS /\
                    e = Fetched "HEAD" (origin ++ path) /\
                    Ssrf.valid (Ssrf.validateUrl (origin ++ path)) = true) /\
    ((forall path, In path COMMON_FEED_PATHS ->
                   Ssrf.valid (Ssrf.validateUrl (origin ++ path)) = false) ->
     requests = []).
Proof.
  rewrite probeFeedPaths_batches.
  destruct (probeBatches_requests w origin feedPathBatches log)
    as (evs & E & Hl & Hev).
  exists evs. split; [exact E|]. split; [exact Hl|]. split; [exact Hev|].
  intro Hnone. destruct evs as [|e evs]; [reflexivity|]. exfalso.
  destruct (Hev e (or_introl eq_refl)) as (p & Hp & _ & V).
  rewrite (Hnone p Hp) in V. discriminate.
Qed.

End ProbeRequestsOfPaths.

(* ---------------------------------------------------------------------- *)
(** ** api/discover.ts: the successful responses *)
(* ---------------------------------------------------------------------- *)

Section SuccessfulResponses.

Import Discover DiscoverAux Responses.

Context {api : UrlApi}.
Variable cfg : Config.
Variable w : World.

Lemma errorResponse_coherent (st : N) (code message : string) :
  coherentOutcome (errorResponse st code message).
Proof. intros st' r H. discriminate. Qed.

Lemma fetchHomepage_coherent (homepageUrl : string) (log : list Event) (o : Outcome) :
  fst (fetchHomepage cfg w homepageUrl log) = inl o -> coherentOutcome o.
Proof.
  unfold fetchHomepage, bind, fetchWithTimeout, ret. simpl.
  destruct (net_fetch w log "GET" homepageUrl) as [r|e].
  - destruct (negb (ok r)).
    + intros [= <-]. apply errorResponse_coherent.
    + destruct (body r) as [html|e].
      * destruct (N.ltb _ _); [|discriminate].
        intros [= <-]. apply errorResponse_coherent.
      * intros [= <-]. apply errorResponse_coherent.
  - intros [= <-]. apply errorResponse_coherent.
Qed.

Lemma or_null_some (s : option string) (t : string) :
  or_null s = Some t -> s = Some t /\ t <> "".
Proof.
  destruct s as [[|c x]|]; simpl; try discriminate.
  intros [= <-]. split; [reflexivity | discriminate].
Qed.

Lemma fillTitle_facts (f : FeedInfo) (t : string) :
  t <> "" ->
  url (fillTitle f t) = url f /\
  exists t', title (fillTitle f t) = Some t' /\ t' <> "".
Proof.
  intro Ht. unfold fillTitle.
  destruct (or_null (title f)) as [x|] eqn:E.
  - apply or_null_some in E. destruct E as [E Hx]. eauto.
  - simpl. eauto.
Qed.

(** The response for a list of located feeds. *)
Lemma located_coherent (inputType : InputType) (homepageUrl : string)
    (found : Images) (located : list FeedInfo) (log : list Event) (o : Outcome) :
  inputType <> feed ->
  fst (match located with
       | [] =>
           ret (Normal (Responded 200 (SuccessBody
                  {| input_type := inputType;
                     normalized_url := homepageUrl;
                     feeds := [];
                     recommended_feed := None;
                     response_metadata := None;
                     images := found;
                     content_analysis := None;
                     recent_posts := None;
                     response_message :=
                       Some "No RSS or Atom feeds found for this URL" |})))
       | first :: others =>
           let recommendedFeedUrl := url first in
           parsed <- parseFeed w recommendedFeedUrl ;;
           ret (Normal (Responded 200 (SuccessBody
                  match parsed with
                  | Some parsed =>
                      {| input_type := inputType;
                         normalized_url := homepageUrl;
                         feeds := fillTitle first (md_title (metadata parsed))
                                  :: others;
                         recommended_feed := Some recommendedFeedUrl;
                         response_metadata := Some (metadata parsed);
                         images := found;
                         content_analysis := Some (contentAnalysis parsed);
                         recent_posts := Some (posts parsed);
                         response_message := None |}
                  | None =>
                      {| input_type := inputType;
                         normalized_url := homepageUrl;
                         feeds := first :: others;
                         recommended_feed := Some recommendedFeedUrl;
                         response_metadata := None;
                         images := found;
                         content_analysis := None;
                         recent_posts := None;
                         response_message := None |}
                  end)))
       end log) = Normal o ->
  coherentOutcome o.
Proof.
  intro Hi. destruct located as [|first others].
  - unfold ret. simpl. intros [= <-] st r [= <- <-]. split; [reflexivity|].
    unfold coherent. cbn. repeat split; try discriminate; try congruence; auto.
  - cbv zeta. unfold bind, ret.
    destruct (parseFeed w (url first) log) as [[parsed|] l] eqn:P; simpl;
      intros [= <-] st r [= <- <-]; (split; [reflexivity|]);
      unfold coherent; cbn.
    + pose proof (parseFeed_facts w (url first) log parsed ltac:(now rewrite P))
        as (Hp & Ht & _).
      destruct (fillTitle_facts first (md_title (metadata parsed)) Ht)
        as (Hu & t' & Ht' & Hne).
      repeat split; try discriminate; try congruence; auto.
      exists (fillTitle first (md_title (metadata parsed))), others, t'. auto.
    + repeat split; try discriminate; try congruence; auto.
Qed.

Lemma homepageBranch_coherent (inputType : InputType) (homepageUrl : string)
    (log : list Event) (o : Outcome) :
  inputType <> feed ->
  fst (homepageBranch cfg w inputType homepageUrl log) = Normal o ->
  coherentOutcome o.
Proof.
  intro Hi. unfold homepageBranch, bind.
  destruct (fetchHomepage cfg w homepageUrl log) as [[o'|html] l1] eqn:F.
  - simpl. intros [= <-].
    apply (fetchHomepage_coherent homepageUrl log). now rewrite F.
  - destruct (parseHTML w html) as [doc|e]; [|discriminate].
    destruct (Nat.eqb _ 0).
    + destruct (URL_new homepageUrl None) as [u|]; [|discriminate].
      unfold bind. destruct (probeFeedPaths w (origin u) l1) as [probed l2].
      unfold ret at 1. cbv iota beta.
      apply located_coherent. exact Hi.
    + unfold ret at 1. cbv iota beta.
      apply located_coherent. exact Hi.
Qed.

Lemma feedBranch_coherent (normalizedUrlString : string) (log : list Event) :
  coherentOutcome (fst (feedBranch w normalizedUrlString log)).
Proof.
  unfold feedBranch, bind.
  destruct (parseFeed w normalizedUrlString log) as [[parsed|] l1] eqn:P.
  - pose proof (parseFeed_facts w normalizedUrlString log parsed
                  ltac:(now rewrite P)) as (Hp & Ht & _).
    destruct (if Js.truthy _ then _ else _) as [found l2].
    unfold ret. simpl. intros st r [= <- <-]. split; [reflexivity|].
    unfold coherent. cbn.
    repeat split; try discriminate; try congruence; auto.
    eexists _, _, _. split; [reflexivity|]. split; [reflexivity | exact Ht].
  - unfold ret. simpl. intros st r [= <- <-]. split; [reflexivity|].
    unfold coherent. cbn.
    repeat split; try discriminate; try congruence; auto.
Qed.

Lemma tryDiscover_coherent (normalizedUrlString : string) (u : URL)
    (log : list Event) (o : Outcome) :
  fst (tryDiscover cfg w normalizedUrlString u log) = Normal o -> coherentOutcome o.
Proof.
  unfold tryDiscover.
  destruct (detectInputType u);
    try (apply homepageBranch_coherent; discriminate).
  unfold bind.
  destruct (validateFeedUrl w normalizedUrlString log) as [isValid l1].
  destruct isValid; cbn [negb]; cbv iota beta.
  - pose proof (feedBranch_coherent normalizedUrlString l1) as R.
    destruct (feedBranch w normalizedUrlString l1) as [o' l2].
    unfold ret. simpl. intros [= <-]. exact R.
  - apply homepageBranch_coherent. discriminate.
Qed.

Lemma discoverInput_coherent (bodyUrl : string) (log : list Event) :
  coherentOutcome (fst (discoverInput cfg w bodyUrl log)).
Proof.
  unfold discoverInput.
  destruct (isUsernameInput _); [intros st r H; discriminate|].
  destruct (negb _); [intros st r H; discriminate|].
  destruct (Ssrf.url _) as [u|]; [|intros st r H; discriminate].
  unfold discover, bind.
  pose proof (tryDiscover_coherent (normalizeUrl (Js.trim bodyUrl)) u log) as R.
  destruct (tryDiscover cfg w _ u log) as [[o|e] l]; simpl in *.
  - now apply R.
  - intros st r H. discriminate.
Qed.

End SuccessfulResponses.

Section SuccessfulResponse.

Import Discover DiscoverAux Responses.

(** X14.  Every successful discovery is sent with status 200 and is coherent: the
    recommended feed is the URL of the first feed, and is missing exactly
    when there is no feed, which is also when the message is present; the
    metadata, the content analysis and the recent posts are present together;
    there are at most 3 recent posts; when the metadata is present its title
    is not empty and the first feed has a non-empty title; and a response of
    type feed lists the normalised URL as its only feed, of unknown type. *)
Theorem success_response_coherent (api : UrlApi) (env : Environment) (cfg : Config)
    (w : World) (req : VercelRequest) (res res' : Cors.VercelResponse ResponseBody)
    (log : list Event) (r : DiscoverSuccessResponse) :
  fst (handler env cfg w req res log) = Normal res' ->
  Cors.res_sent res' = Some (Some (SuccessBody r)) ->
  Cors.res_statusCode res' = 200%N /\
  recommended_feed r = option_map url (List.hd_error (feeds r)) /\
  (feeds r = [] <->
   response_message r = Some "No RSS or Atom feeds found for this URL") /\
  (feeds r <> [] <-> response_message r = None) /\
  (response_metadata r = None <-> content_analysis r = None) /\
  (response_metadata r = None <-> recent_posts r = None) /\
  (forall ps, recent_posts r = Some ps -> List.length ps <= 3) /\
  (forall md, response_metadata r = Some md ->
     md_title md <> "" /\
     exists f rest t, feeds r = f :: rest /\ title f = Some t /\ t <> "") /\
  (input_type r = feed ->
   feeds r = [{| url := normalized_url r;
                 title := option_map md_title (response_metadata r);
                 type := unknown |}]).
Proof.
  destruct (handler_cases env cfg w req res log)
    as [[_ E] | [(_ & e & _ & E) | (_ & res1 & _ & E)]]; rewrite E; cbn [fst].
  - unfold Cors.handleOptions.
    destruct (Cors.setCorsHeaders env res); [|discriminate].
    intros [= <-]. discriminate.
  - discriminate.
  - destruct (fst (answer cfg w req log)) as [st b|e] eqn:A; [|discriminate].
    intros [= <-]. cbn. intros [= ->]. revert A.
    unfold answer.
    destruct (negb (String.eqb (req_method req) "POST")); [discriminate|].
    destruct (Auth.validateAuth cfg req) as [auth|e]; [|discriminate].
    destruct (negb (Auth.authenticated auth)); [discriminate|].
    destruct (parseBody w req) as [body|e]; [|discriminate].
    destruct (get_url body) as [v|e]; [|discriminate].
    destruct (_ || _)%bool; [discriminate|].
    destruct v; try discriminate.
    intro H. exact (discoverInput_coherent cfg w s log st r H).
Qed.

(** The theorem on the site of [feedWorld], whose homepage declares no feed
    and whose /feed answers as RSS. *)
Lemma success_response_coherent_witness :
  exists r,
    answers (run Scenario.env Scenario.cfg Scenario.feedWorld
               (Scenario.discoverRequest "https://example.com"))
      200 (SuccessBody r) /\
    recommended_feed r = Some "https://example.com/feed" /\
    recommended_feed r = option_map url (List.hd_error (feeds r)).
Proof.
  eexists. split; [eexists; split; [vm_compute; reflexivity | split; reflexivity]|].
  split; [reflexivity|].
  exact (proj1 (proj2 (success_response_coherent whatwg Scenario.env Scenario.cfg
                         Scenario.feedWorld
                         (Scenario.discoverRequest "https://example.com")
                         (Cors.fresh ResponseBody) _ [] _ eq_refl eq_refl))).
Defined.

End SuccessfulResponse.

(* ---------------------------------------------------------------------- *)
(** ** lib/sanitize.ts: the text of a sanitized fragment *)
(* ---------------------------------------------------------------------- *)

Section SanitizedText.

Import Sanitize SanitizeText.

Context {api : UrlApi}.
Variable baseUrl : string.

Lemma concat_empty_cons (x : string) (l : list string) :
  String.concat "" (x :: l) = x ++ String.concat "" l.
Proof. destruct l; simpl; [now rewrite append_nil_r | reflexivity]. Qed.

Lemma concat_empty_app (l1 l2 : list string) :
  String.concat "" (l1 ++ l2)%list = String.concat "" l1 ++ String.concat "" l2.
Proof.
  induction l1 as [|x l1 IH]; [reflexivity|].
  change ((x :: l1) ++ l2)%list with (x :: (l1 ++ l2))%list.
  now rewrite !concat_empty_cons, IH, append_assoc.
Qed.

Lemma text_forest (children : list Node) :
  Forall (fun node =>
            String.concat "" (List.map textContent (sanitizeNode baseUrl node))
            = textOutsideDangerous node /\
            List.flat_map commentsOf (sanitizeNode baseUrl node)
            = commentsOutsideDangerous node) children ->
  String.concat "" (List.map textContent (List.flat_map (sanitizeNode baseUrl) children))
  = String.concat "" (List.map textOutsideDangerous children) /\
  List.flat_map commentsOf (List.flat_map (sanitizeNode baseUrl) children)
  = List.flat_map commentsOutsideDangerous children.
Proof.
  induction 1 as [|node rest [Ht Hc] _ [IHt IHc]]; [split; reflexivity|].
  cbn [List.flat_map List.map].
  rewrite map_app, concat_empty_app, concat_empty_cons, flat_map_app.
  now rewrite Ht, IHt, Hc, IHc.
Qed.

Lemma text_node (node : Node) :
  String.concat "" (List.map textContent (sanitizeNode baseUrl node))
  = textOutsideDangerous node /\
  List.flat_map commentsOf (sanitizeNode baseUrl node)
  = commentsOutsideDangerous node.
Proof.
  induction node as [data|data|tag attrs children IH] using Node_forest_ind.
  - split; reflexivity.
  - split; reflexivity.
  - apply text_forest in IH. destruct IH as [IHt IHc].
    cbn [sanitizeNode textOutsideDangerous commentsOutsideDangerous].
    destruct (has DANGEROUS_TAGS (Js.toLowerCase tag)); [split; reflexivity|].
    destruct (isStructure (Js.toLowerCase tag)).
    + cbn [List.map List.flat_map textContent commentsOf String.concat].
      rewrite app_nil_r. split; assumption.
    + destruct (negb (has ALLOWED_TAGS (Js.toLowerCase tag))).
      * split; assumption.
      * cbn [List.map List.flat_map textContent commentsOf String.concat].
        rewrite app_nil_r. split; assumption.
Qed.

End SanitizedText.

Section SanitizedTextOfFragment.

Import Sanitize SanitizeText.

(** X15.  Sanitizing neither drops, adds nor reorders text: the text of the tree
    that [sanitizeHtml] serialises is the text of the parsed fragment outside
    its elements with a dangerous tag, in document order; likewise its
    comments are kept as they are. *)
Theorem sanitize_keeps_text (api : UrlApi) (dom : DomApi) (html baseUrl : string) :
  String.concat "" (List.map textContent (sanitizeTree html baseUrl))
  = String.concat "" (List.map textOutsideDangerous (parseHTML_body (wrap html))) /\
  List.flat_map commentsOf (sanitizeTree html baseUrl)
  = List.flat_map commentsOutsideDangerous (parseHTML_body (wrap html)).
Proof.
  unfold sanitizeTree, sanitizeNodes. fold (wrap html).
  apply text_forest. apply Forall_forall. intros node _. apply text_node.
Qed.

End SanitizedTextOfFragment.

(* ---------------------------------------------------------------------- *)
(** ** Objects and response headers *)
(* ---------------------------------------------------------------------- *)

Section ObjectFacts.

Import JsObject.

Context {A : Type}.

Lemma In_set (o : list (string * A)) (key k : string) (value v : A) :
  In (k, v) (set o key value) -> (k = key /\ v = value) \/ In (k, v) o.
Proof.
  induction o as [|[k' v'] o IH]; simpl.
  - intros [[= <- <-]|[]]. auto.
  - destruct (String.eqb_spec k' key) as [->|N].
    + intros [[= <- <-]|H]; auto.
    + intros [H|H]; [auto|]. destruct (IH H); auto.
Qed.

Lemma In_set_same (o : list (string * A)) (key : string) (value : A) :
  In (key, value) (set o key value).
Proof.
  induction o as [|[k' v'] o IH]; simpl; [auto|].
  destruct (String.eqb_spec k' key) as [->|N]; simpl; auto.
Qed.

Lemma In_set_other (o : list (string * A)) (key k : string) (value v : A) :
  k <> key -> In (k, v) o -> In (k, v) (set o key value).
Proof.
  intro N. induction o as [|[k' v'] o IH]; simpl; [auto|].
  destruct (String.eqb_spec k' key) as [->|N'].
  - intros [[= <- <-]|H]; [now elim N | right; exact H].
  - intros [H|H]; [left; exact H | right; auto].
Qed.

Lemma assoc_set_other (o : list (string * A)) (key k : string) (value : A) :
  k <> key -> assoc k (set o key value) = assoc k o.
Proof.
  intro N. induction o as [|[k' v'] o IH]; simpl.
  - destruct (String.eqb_spec k key); [contradiction | reflexivity].
  - destruct (String.eqb_spec k' key) as [->|N']; simpl.
    + destruct (String.eqb_spec k key); [contradiction | reflexivity].
    + now rewrite IH.
Qed.

Lemma keys_set (o : list (string * A)) (key : string) (value : A) :
  List.map fst (set o key value) = List.map fst o \/
  (~ In key (List.map fst o) /\
   List.map fst (set o key value) = (List.map fst o ++ [key])%list).
Proof.
  induction o as [|[k' v'] o IH]; simpl; [right; auto|].
  destruct (String.eqb_spec k' key) as [->|N]; simpl; [auto|].
  destruct IH as [->|[Hn ->]]; [auto|]. right. split; [|reflexivity].
  intros [H|H]; auto.
Qed.

Lemma NoDup_set (o : list (string * A)) (key : string) (value : A) :
  NoDup (List.map fst o) -> NoDup (List.map fst (set o key value)).
Proof.
  intro H. destruct (keys_set o key value) as [->|[Hn ->]]; [exact H|].
  apply NoDup_app; [exact H | repeat constructor; auto |].
  intros x Hx [<-|[]]. contradiction.
Qed.

End ObjectFacts.

(* ---------------------------------------------------------------------- *)
(** ** api/fetch.ts: the headers sent and the headers reported *)
(* ---------------------------------------------------------------------- *)

Section FetchHeaders.

Import Discover Fetch.

Lemma has_In (l : list string) (x : string) :
  Sanitize.has l x = true <-> In x l.
Proof. unfold Sanitize.has. apply existsb_eqb_In. Qed.

(** The loop of [filterForwardHeaders], from any result. *)
Lemma filter_loop_In (entries result : list (string * JsValue)) (k : string)
    (v : JsValue) :
  In (k, v)
     (List.fold_left
        (fun result entry =>
           if Sanitize.has ALLOWED_FORWARD_HEADERS (Js.toLowerCase (fst entry))
           then JsObject.set result (fst entry) (snd entry)
           else result)
        entries result) ->
  In (k, v) result \/
  (In (k, v) entries /\ In (Js.toLowerCase k) ALLOWED_FORWARD_HEADERS).
Proof.
  revert result. induction entries as [|[k' v'] entries IH]; intro result;
    cbn [List.fold_left fst snd List.map].
  - auto.
  - intro H. apply IH in H.
    destruct H as [H|[H1 H2]]; [|right; split; [now right | exact H2]].
    destruct (Sanitize.has ALLOWED_FORWARD_HEADERS (Js.toLowerCase k')) eqn:E;
      [|now left].
    apply In_set in H. destruct H as [[-> ->]|H]; [|now left].
    right. split; [now left | now apply has_In].
Qed.

Lemma filter_loop_keeps (entries result : list (string * JsValue)) (k : string)
    (v : JsValue) :
  In (k, v) result -> ~ In k (List.map fst entries) ->
  In (k, v)
     (List.fold_left
        (fun result entry =>
           if Sanitize.has ALLOWED_FORWARD_HEADERS (Js.toLowerCase (fst entry))
           then JsObject.set result (fst entry) (snd entry)
           else result)
        entries result).
Proof.
  revert result. induction entries as [|[k' v'] entries IH]; intro result;
    cbn [List.fold_left fst snd List.map].
  - auto.
  - intros H Hn. apply IH; [|intro; apply Hn; simpl; auto].
    destruct (Sanitize.has _ _); [|exact H].
    apply In_set_other; [|exact H]. intros ->. apply Hn. simpl. auto.
Qed.

Lemma filter_loop_forwards (entries result : list (string * JsValue)) (k : string)
    (v : JsValue) :
  NoDup (List.map fst entries) ->
  In (k, v) entries -> In (Js.toLowerCase k) ALLOWED_FORWARD_HEADERS ->
  In (k, v)
     (List.fold_left
        (fun result entry =>
           if Sanitize.has ALLOWED_FORWARD_HEADERS (Js.toLowerCase (fst entry))
           then JsObject.set result (fst entry) (snd entry)
           else result)
        entries result).
Proof.
  revert result. induction entries as [|[k' v'] entries IH]; intro result;
    cbn [List.fold_left fst snd List.map].
  - contradiction.
  - intros Hd [[= -> ->]|Hin] Ha; inversion Hd as [|x l Hx Hl]; subst.
    + apply has_In in Ha. rewrite Ha.
      apply filter_loop_keeps; [apply In_set_same | exact Hx].
    + now apply IH.
Qed.

Lemma filter_loop_keys (entries result : list (string * JsValue)) :
  NoDup (List.map fst result) ->
  NoDup (List.map fst
           (List.fold_left
              (fun result entry =>
                 if Sanitize.has ALLOWED_FORWARD_HEADERS (Js.toLowerCase (fst entry))
                 then JsObject.set result (fst entry) (snd entry)
                 else result)
              entries result)).
Proof.
  revert result. induction entries as [|[k' v'] entries IH]; intro result;
    cbn [List.fold_left fst snd List.map].
  - auto.
  - intro H. apply IH. destruct (Sanitize.has _ _); [|exact H].
    now apply NoDup_set.
Qed.

(** The spread of the forwarded headers over the two headers of the proxy. *)
Lemma spread_In (forwardHeaders headers : list (string * JsValue)) (k : string)
    (v : JsValue) :
  In (k, v)
     (List.fold_left
        (fun headers entry => JsObject.set headers (fst entry) (snd entry))
        forwardHeaders headers) ->
  In (k, v) headers \/ In (k, v) forwardHeaders.
Proof.
  revert headers. induction forwardHeaders as [|[k' v'] l IH]; intro headers;
    cbn [List.fold_left fst snd List.map].
  - auto.
  - intro H. apply IH in H. destruct H as [H|H]; [|right; now right].
    apply In_set in H. destruct H as [[-> ->]|H]; [right; now left | now left].
Qed.

Lemma spread_assoc (forwardHeaders headers : list (string * JsValue)) (k : string) :
  ~ In k (List.map fst forwardHeaders) ->
  assoc k (List.fold_left
             (fun headers entry => JsObject.set headers (fst entry) (snd entry))
             forwardHeaders headers)
  = assoc k headers.
Proof.
  revert headers. induction forwardHeaders as [|[k' v'] l IH]; intro headers;
    cbn [List.fold_left fst snd List.map].
  - reflexivity.
  - intro Hn. rewrite IH by (intro; apply Hn; simpl; auto).
    apply assoc_set_other. intros ->. apply Hn. simpl. auto.
Qed.

Lemma spread_keeps (forwardHeaders headers : list (string * JsValue)) (k : string)
    (v : JsValue) :
  In (k, v) headers -> ~ In k (List.map fst forwardHeaders) ->
  In (k, v)
     (List.fold_left
        (fun headers entry => JsObject.set headers (fst entry) (snd entry))
        forwardHeaders headers).
Proof.
  revert headers. induction forwardHeaders as [|[k' v'] l IH]; intro headers;
    cbn [List.fold_left fst snd List.map].
  - auto.
  - intros H Hn. apply IH; [|intro; apply Hn; simpl; auto].
    apply In_set_other; [|exact H]. intros ->. apply Hn. simpl. auto.
Qed.

Lemma spread_forwards (forwardHeaders headers : list (string * JsValue)) (k : string)
    (v : JsValue) :
  NoDup (List.map fst forwardHeaders) -> In (k, v) forwardHeaders ->
  In (k, v)
     (List.fold_left
        (fun headers entry => JsObject.set headers (fst entry) (snd entry))
        forwardHeaders headers).
Proof.
  revert headers. induction forwardHeaders as [|[k' v'] l IH]; intro headers;
    cbn [List.fold_left fst snd List.map].
  - contradiction.
  - intros Hd [[= -> ->]|Hin]; inversion Hd as [|x l' Hx Hl]; subst.
    + apply spread_keeps; [apply In_set_same | exact Hx].
    + now apply IH.
Qed.

Lemma filterForwardHeaders_In (clientHeaders : JsValue) (k : string) (v : JsValue) :
  In (k, v) (filterForwardHeaders clientHeaders) ->
  In (k, v) (JsObject.entries clientHeaders) /\
  In (Js.toLowerCase k) ALLOWED_FORWARD_HEADERS.
Proof.
  unfold filterForwardHeaders.
  destruct (negb (value_truthy clientHeaders)); [contradiction|].
  intro H. apply filter_loop_In in H. destruct H as [[]|H]. exact H.
Qed.

Lemma filterForwardHeaders_keys (clientHeaders : JsValue) :
  NoDup (List.map fst (filterForwardHeaders clientHeaders)).
Proof.
  unfold filterForwardHeaders.
  destruct (negb (value_truthy clientHeaders)); [constructor|].
  apply filter_loop_keys. constructor.
Qed.

(** X16.  The headers of the request sent upstream: User-Agent and Accept are
    always those of the proxy; every other header is an entry of the
    [headers] of the client whose name is, in any case, if-none-match or
    if-modified-since, with the name and the value the client gave; and when
    the client gave an object, every such entry is sent. *)
Theorem forwarded_headers (clientHeaders : JsValue) :
  let sent := requestHeaders (filterForwardHeaders clientHeaders) in
  assoc "User-Agent" sent = Some (JString "BlogsAreBack/1.0 (CORS Proxy)") /\
  assoc "Accept" sent
  = Some (JString
            "application/rss+xml, application/atom+xml, application/xml, text/xml, */*") /\
  (forall name value,
      In (name, value) sent -> name <> "User-Agent" -> name <> "Accept" ->
      In (name, value) (JsObject.entries clientHeaders) /\
      In (Js.toLowerCase name) ALLOWED_FORWARD_HEADERS) /\
  (forall name value,
      value_truthy clientHeaders = true ->
      NoDup (List.map fst (JsObject.entries clientHeaders)) ->
      In (name, value) (JsObject.entries clientHeaders) ->
      In (Js.toLowerCase name) ALLOWED_FORWARD_HEADERS ->
      In (name, value) sent).
Proof.
  intro sent. subst sent. unfold requestHeaders.
  assert (K : forall k, In k (List.map fst (filterForwardHeaders clientHeaders)) ->
                        In (Js.toLowerCase k) ALLOWED_FORWARD_HEADERS).
  { intros k Hk. apply in_map_iff in Hk. destruct Hk as ([k' v] & <- & Hin).
    apply filterForwardHeaders_In in Hin. tauto. }
  split; [|split; [|split]].
  - rewrite spread_assoc; [reflexivity|]. intro H. apply K in H.
    simpl in H. destruct H as [H|[H|[]]]; discriminate.
  - rewrite spread_assoc; [reflexivity|]. intro H. apply K in H.
    simpl in H. destruct H as [H|[H|[]]]; discriminate.
  - intros name value H Hu Ha. apply spread_In in H.
    destruct H as [[[= <- <-]|[[= <- <-]|[]]]|H];
      [now elim Hu | now elim Ha | now apply filterForwardHeaders_In].
  - intros name value Ht Hd Hin Ha. apply spread_forwards;
      [apply filterForwardHeaders_keys|].
    unfold filterForwardHeaders. rewrite Ht. cbn [negb].
    now apply filter_loop_forwards.
Qed.

(** The loop of [extractHeaders], from any result. *)
Lemma extract_loop_In (get : string -> option string) (l : list string)
    (result : list (string * string)) (k v : string) :
  In (k, v)
     (List.fold_left
        (fun result header =>
           match get header with
           | Some value => JsObject.set result header value
           | None => result
           end) l result) ->
  In (k, v) result \/ (In k l /\ get k = Some v).
Proof.
  revert result. induction l as [|h l IH]; intro result; simpl; [auto|].
  intro H. apply IH in H.
  destruct H as [H|[H1 H2]]; [|right; split; [now right | exact H2]].
  destruct (get h) as [value|] eqn:G; [|now left].
  apply In_set in H.
  destruct H as [[-> ->]|H]; [right; split; [now left | exact G] | now left].
Qed.

Lemma extract_loop_keeps (get : string -> option string) (l : list string)
    (result : list (string * string)) (k v : string) :
  In (k, v) result -> get k = Some v ->
  In (k, v)
     (List.fold_left
        (fun result header =>
           match get header with
           | Some value => JsObject.set result header value
           | None => result
           end) l result).
Proof.
  revert result. induction l as [|h l IH]; intro result; simpl; [auto|].
  intros H G. apply IH; [|exact G].
  destruct (get h) as [value|] eqn:Gh; [|exact H].
  destruct (String.eqb_spec k h) as [->|N].
  - rewrite G in Gh. injection Gh as <-. apply In_set_same.
  - now apply In_set_other.
Qed.

Lemma extract_loop_keys (get : string -> option string) (l : list string)
    (result : list (string * string)) :
  NoDup (List.map fst result) ->
  NoDup (List.map fst
           (List.fold_left
              (fun result header =>
                 match get header with
                 | Some value => JsObject.set result header value
                 | None => result
                 end) l result)).
Proof.
  revert result. induction l as [|h l IH]; intro result; simpl; [auto|].
  intro H. apply IH. destruct (get h); [now apply NoDup_set | exact H].
Qed.

(** X17.  The headers reported to the client are exactly the headers of the list
    that the upstream response has, each once and with the value of the
    response; a header outside the list is never relayed. *)
Theorem extracted_headers (responseHeaders : string -> option string)
    (headersToExtract : list string) :
  (forall name value,
      In (name, value) (extractHeaders responseHeaders headersToExtract) <->
      In name headersToExtract /\ responseHeaders name = Some value) /\
  NoDup (List.map fst (extractHeaders responseHeaders headersToExtract)).
Proof.
  unfold extractHeaders. split; [|apply extract_loop_keys; constructor].
  intros name value. split.
  - intro H. apply extract_loop_In in H. destruct H as [[]|H]. exact H.
  - intros [Hin G]. revert Hin. generalize (@nil (string * string)).
    induction headersToExtract as [|h l IH]; intros result Hin; simpl.
    + contradiction.
    + destruct Hin as [->|Hin]; [|now apply IH].
      rewrite G. apply extract_loop_keeps; [apply In_set_same | exact G].
Qed.

End FetchHeaders.

(* ---------------------------------------------------------------------- *)
(** ** lib/cors.ts *)
(* ---------------------------------------------------------------------- *)

Section CorsFacts.

Import Cors Handlers.

Context {B : Type}.

Lemma sameName_trans (a b c : string) :
  sameName a b = true -> sameName b c = false -> sameName a c = false.
Proof.
  unfold sameName. intros H1 H2. apply String.eqb_eq in H1. now rewrite H1.
Qed.

Lemma findHeader_put_same (headers : list (string * string)) (name value : string) :
  findHeader (putHeader headers name value) name = Some value.
Proof.
  assert (R : sameName name name = true) by apply String.eqb_refl.
  induction headers as [|[n v] r IH]; simpl; [now rewrite R|].
  destruct (sameName n name) eqn:E; simpl; [now rewrite R | now rewrite E].
Qed.

Lemma findHeader_put_other (headers : list (string * string)) (name other value : string) :
  sameName name other = false ->
  findHeader (putHeader headers name value) other = findHeader headers other.
Proof.
  intro N. induction headers as [|[n v] r IH]; simpl; [now rewrite N|].
  destruct (sameName n name) eqn:E; simpl.
  - now rewrite N, (sameName_trans n name other E N).
  - now rewrite IH.
Qed.

Lemma setHeader_normal (res res' : VercelResponse B) (name value : string) :
  setHeader res name value = Normal res' ->
  res_sent res = None /\ res_sent res' = None /\
  res_statusCode res' = res_statusCode res /\
  Whatwg.forall_chars validHeaderChar value = true /\
  getHeader res' name = Some value /\
  forall other, sameName name other = false ->
                getHeader res' other = getHeader res other.
Proof.
  unfold setHeader. destruct (res_sent res) eqn:S; [discriminate|].
  destruct (Whatwg.forall_chars validHeaderChar value); [|discriminate].
  intros [= <-]. unfold getHeader. cbn [res_sent res_statusCode res_headers].
  repeat split; [apply findHeader_put_same|].
  intros other N. now apply findHeader_put_other.
Qed.

Lemma setCorsHeaders_normal (env : Environment) (res res' : VercelResponse B) :
  setCorsHeaders env res = Normal res' ->
  corsHeadersSet env res' /\ res_sent res = None /\ res_sent res' = None /\
  res_statusCode res' = res_statusCode res /\
  Whatwg.forall_chars validHeaderChar (ALLOWED_ORIGINS env) = true.
Proof.
  unfold setCorsHeaders, getCorsHeaders. cbn [setHeaders].
  destruct (setHeader res _ _) as [r1|] eqn:E1; [|discriminate].
  destruct (setHeader r1 _ _) as [r2|] eqn:E2; [|discriminate].
  destruct (setHeader r2 _ _) as [r3|] eqn:E3; [|discriminate].
  destruct (setHeader r3 _ _) as [r4|] eqn:E4; [|discriminate].
  intros [= <-].
  apply setHeader_normal in E1. destruct E1 as (S0 & S1 & C1 & V1 & G1 & O1).
  apply setHeader_normal in E2. destruct E2 as (_ & S2 & C2 & _ & G2 & O2).
  apply setHeader_normal in E3. destruct E3 as (_ & S3 & C3 & _ & G3 & O3).
  apply setHeader_normal in E4. destruct E4 as (_ & S4 & C4 & _ & G4 & O4).
  split; [|repeat split; try assumption; congruence].
  intros name value Hin. unfold getCorsHeaders in Hin. simpl in Hin.
  destruct Hin as [[= <- <-]|[[= <- <-]|[[= <- <-]|[[= <- <-]|[]]]]].
  - rewrite O4, O3, O2 by reflexivity. exact G1.
  - rewrite O4, O3 by reflexivity. exact G2.
  - rewrite O4 by reflexivity. exact G3.
  - exact G4.
Qed.

Lemma setCorsHeaders_throws (env : Environment) (res : VercelResponse B) :
  res_sent res <> None \/
  Whatwg.forall_chars validHeaderChar (ALLOWED_ORIGINS env) = false ->
  exists e, setCorsHeaders env res = Throw e.
Proof.
  unfold setCorsHeaders, getCorsHeaders. cbn [setHeaders]. unfold setHeader at 1.
  intros [H|H].
  - destruct (res_sent res); [eauto | now elim H].
  - destruct (res_sent res); [eauto|]. rewrite H. eauto.
Qed.

Lemma ALLOWED_ORIGINS_truthy (env : Environment) : ALLOWED_ORIGINS env <> "".
Proof.
  unfold ALLOWED_ORIGINS. destruct (ALLOWED_ORIGINS_env env) as [[|c s]|];
    simpl; discriminate.
Qed.

Lemma handleOptions_normal (env : Environment) (res res' : VercelResponse B) :
  handleOptions env res = Normal res' ->
  corsHeadersSet env res' /\ res_statusCode res' = 204%N /\ res_sent res' = Some None.
Proof.
  unfold handleOptions. destruct (setCorsHeaders env res) as [r|] eqn:E; [|discriminate].
  intros [= <-]. apply setCorsHeaders_normal in E. destruct E as (H & _).
  repeat split. exact H.
Qed.

End CorsFacts.

(* ---------------------------------------------------------------------- *)
(** ** api/fetch.ts: the handler *)
(* ---------------------------------------------------------------------- *)

Section FetchHandler.

Import Discover Upstream Cors Handlers Fetch FetchRuns.

Context {api : UrlApi}.
Variable env : Environment.
Variable cfg : Config.
Variable w : World.

(** What the part of the handler after the validation sends, read back from
    the response. *)
Lemma fetchFeed_cases (res : VercelResponse Body) (bodyUrl : string) (body : JsValue)
    (log : list Event) :
  let sent := fst (fetchFeed env w res bodyUrl body log) in
  snd (fetchFeed env w res bodyUrl body log) = (log ++ [Fetched "GET" bodyUrl])%list /\
  res_headers sent = res_headers res /\
  res_statusCode sent = 200%N /\
  match w_fetch w log (requestFor bodyUrl body) with
  | Throw e =>
      res_sent sent
      = Some (Some (errorBody (failureCode e) (failureMessage e) NullStatus))
  | Normal response =>
      let reported := extractHeaders (rsp_header response) HEADERS_TO_EXTRACT in
      (rsp_status response = 304%N /\
       res_sent sent = Some (Some (SuccessBody 304 reported None))) \/
      (rsp_status response <> 304%N /\
       (res_sent sent = Some (Some (tooLarge env (rsp_status response))) \/
        (exists e,
            rsp_arrayBuffer response = Throw e /\
            res_sent sent
            = Some (Some (errorBody ErrorCodes.FETCH_FAILED
                            (messageOr e "Failed to read response body")
                            (HttpStatus (rsp_status response))))) \/
        (exists bytes,
            rsp_arrayBuffer response = Normal bytes /\
            (N.of_nat (String.length bytes) <= MAX_RESPONSE_SIZE env)%N /\
            res_sent sent
            = Some (Some (SuccessBody (rsp_status response) reported
                            (Some (w_decode w bytes)))))))
  end.
Proof.
  unfold fetchFeed, bind, fetch, ret. cbn [fst snd request_method request_url].
  split; [reflexivity|]. fold (requestFor bodyUrl body).
  destruct (w_fetch w log (requestFor bodyUrl body)) as [response|e].
  - destruct (N.eqb_spec (rsp_status response) 304) as [E|E].
    + repeat split. left. split; [exact E | reflexivity].
    + destruct (_ && _)%bool.
      * repeat split. right. split; [exact E|]. left. reflexivity.
      * destruct (rsp_arrayBuffer response) as [bytes|e] eqn:A.
        -- destruct (N.ltb_spec (MAX_RESPONSE_SIZE env)
                       (N.of_nat (String.length bytes))) as [L|L].
           ++ repeat split. right. split; [exact E|]. left. reflexivity.
           ++ repeat split. right. split; [exact E|]. right. right.
              exists bytes. repeat split. exact L.
        -- repeat split. right. split; [exact E|]. right. left.
           exists e. split; reflexivity.
  - repeat split.
Qed.

(** Every run of the handler is one of the cases of [Run]. *)
Lemma handler_runs (req : VercelRequest) (res : VercelResponse Body)
    (log : list Event) :
  Run env cfg w req res log (handler env cfg w req res log).
Proof.
  unfold handler.
  destruct (String.eqb_spec (req_method req) "OPTIONS") as [O|O];
    [now apply RunPreflight|].
  destruct (setCorsHeaders env res) as [res1|e] eqn:C;
    [|now apply RunNoHeaders].
  destruct (String.eqb_spec (req_method req) "POST") as [P|P]; cbn [negb];
    [|now apply RunMethod].
  destruct (Auth.validateAuth cfg req) as [auth|e] eqn:V;
    [|now apply (RunAuthThrows _ _ _ _ _ _ res1)].
  destruct (Auth.authenticated auth) eqn:A; cbn [negb];
    [|now apply RunUnauthorized].
  assert (Acc : Auth.accepted (Auth.validateAuth cfg req) = true)
    by now rewrite V.
  destruct (parseBody w req) as [body|e] eqn:Pb.
  - destruct (get_url body) as [v|e] eqn:G;
      [|now apply (RunBodyThrows _ _ _ _ _ _ res1 body)].
    assert (M : forall v', get_url body = Normal v' ->
                  (value_truthy v' = false \/ is_string v' = false) ->
                  Run env cfg w req res log
                    (Normal (respond res1 400
                               (errorBody ErrorCodes.INVALID_URL
                                  "Missing required field: url" NoStatus)), log)).
    { intros v' Hv' Hf. apply RunBadBody; try assumption.
      right. split; [reflexivity|]. exists body, v'. auto. }
    destruct v as [| |b|z|bodyUrl|items|fields];
      try (apply (M _ G); right; reflexivity).
    destruct (Js.truthy bodyUrl) eqn:T; cbn [negb];
      [|apply (M _ G); left; exact T].
    cbv zeta.
    destruct (Ssrf.valid (Ssrf.validateUrl bodyUrl)) eqn:Val; cbn [negb].
    + unfold bind, ret.
      pose proof (RunFetched env cfg w req res log res1 body bodyUrl) as R.
      destruct (fetchFeed env w res1 bodyUrl body log) as [sent log'].
      apply R; try assumption. intros ->. discriminate.
    + destruct (validateUrl_cases bodyUrl) as [[Hv _]|[_ (e & He & _)]];
        [congruence|].
      rewrite He. cbn [option_map]. unfold ret.
      now apply (RunRefused env cfg w req res log res1 body bodyUrl e).
  - apply RunBadBody; try assumption. left. split; [reflexivity | eauto].
Qed.

End FetchHandler.

Section FetchClaims.

Import Discover Upstream Cors Handlers Fetch FetchRuns.

Opaque fetchFeed.

(** X18.  The fetch handler calls the network at most once, with a GET for the
    [url] of the body, and only for a POST whose key is accepted and whose
    URL [validateUrl] found valid; the headers of the request are those of
    [requestHeaders]. *)
Theorem fetch_handler_requests (api : UrlApi) (env : Environment) (cfg : Config)
    (w : World) (req : VercelRequest) (res : VercelResponse Body)
    (log : list Event) :
  snd (handler env cfg w req res log) = log \/
  exists body bodyUrl,
    snd (handler env cfg w req res log) = (log ++ [Fetched "GET" bodyUrl])%list /\
    req_method req = "POST" /\
    Auth.accepted (Auth.validateAuth cfg req) = true /\
    parseBody w req = Normal body /\
    get_url body = Normal (JString bodyUrl) /\
    Ssrf.valid (Ssrf.validateUrl bodyUrl) = true.
Proof.
  pose proof (handler_runs env cfg w req res log) as R.
  set (out := handler env cfg w req res log) in *. clearbody out.
  destruct R as [| | | | | | | |res1 data bodyUrl P C A Pb G T Val]; auto.
  right. exists data, bodyUrl.
  pose proof (fetchFeed_cases env w res1 bodyUrl data log) as (L & _).
  rewrite L. auto 10.
Qed.

(** X19.  A successful answer of the fetch handler is sent with status 200 for a
    validated URL that was fetched; it reports the status of the upstream
    response, whatever it is, and the headers of the list that the response
    has; its body is [null] exactly when the upstream status is 304, and is
    otherwise the decoded bytes of the response, which do not exceed the
    size limit. *)
Theorem fetch_success_shape (api : UrlApi) (env : Environment) (cfg : Config)
    (w : World) (req : VercelRequest) (res res' : VercelResponse Body)
    (log : list Event) (st : N) (hs : list (string * string)) (b : option string) :
  fst (handler env cfg w req res log) = Normal res' ->
  res_sent res' = Some (Some (SuccessBody st hs b)) ->
  res_statusCode res' = 200%N /\
  exists body bodyUrl response,
    parseBody w req = Normal body /\
    get_url body = Normal (JString bodyUrl) /\
    Ssrf.valid (Ssrf.validateUrl bodyUrl) = true /\
    w_fetch w log (requestFor bodyUrl body) = Normal response /\
    st = rsp_status response /\
    hs = extractHeaders (rsp_header response) HEADERS_TO_EXTRACT /\
    (b = None <-> st = 304%N) /\
    (forall text, b = Some text ->
       exists bytes,
         rsp_arrayBuffer response = Normal bytes /\
         text = w_decode w bytes /\
         (N.of_nat (String.length bytes) <= MAX_RESPONSE_SIZE env)%N).
Proof.
  pose proof (handler_runs env cfg w req res log) as R.
  set (out := handler env cfg w req res log) in *. clearbody out.
  destruct R as [O|e O C|res1 O P C|res1 e P C V|res1 auth P C V A
                 |res1 message P C A M|res1 data e P C A Pb G
                 |res1 data bodyUrl e P C A Pb G Val He
                 |res1 data bodyUrl P C A Pb G T Val];
    cbn [fst]; try discriminate.
  - unfold handleOptions. destruct (setCorsHeaders env res); [|discriminate].
    intros [= <-]. discriminate.
  - intros [= <-]. discriminate.
  - intros [= <-]. discriminate.
  - intros [= <-]. discriminate.
  - intros [= <-]. discriminate.
  - intros [= <-] S.
    pose proof (fetchFeed_cases env w res1 bodyUrl data log) as (_ & _ & St & F).
    cbv zeta in F. split; [exact St|].
    exists data, bodyUrl.
    destruct (w_fetch w log (requestFor bodyUrl data)) as [response|e] eqn:W.
    + exists response.
      destruct F as [[E F]|[E [F|[(e & _ & F)|(bytes & Ab & L & F)]]]];
        rewrite F in S; try discriminate; injection S as <- <- <-.
      * repeat split; try assumption; try reflexivity; try discriminate;
          try congruence.
      * repeat split; try assumption; try reflexivity; try discriminate;
          try congruence.
        intros text [= <-]. exists bytes. auto.
    + rewrite F in S. discriminate.
Qed.

(** The theorem on a feed that is gone: the 404 of the upstream is reported as
    a success, with its content type and its body and without its cookie. *)
Lemma fetch_success_shape_witness :
  exists res',
    fst (handler FetchScenario.env Scenario.cfg FetchScenario.goneWorld
           (FetchScenario.conditional "https://example.com/feed.xml")
           (fresh Body) [])
    = Normal res' /\
    res_sent res'
    = Some (Some (SuccessBody 404 [("content-type", "text/plain")] (Some "gone"))) /\
    res_statusCode res' = 200%N.
Proof.
  eexists. split; [vm_compute; reflexivity|]. split; [reflexivity|].
  exact (proj1 (fetch_success_shape whatwg FetchScenario.env Scenario.cfg
                  FetchScenario.goneWorld
                  (FetchScenario.conditional "https://example.com/feed.xml")
                  (fresh Body) _ [] 404%N [("content-type", "text/plain")]
                  (Some "gone") eq_refl eq_refl)).
Defined.

(** X20.  The [status] field of an error tells how far the request went.  Without
    the field no network call was made: the method, the body or the URL was
    refused, with HTTP status 405, 400 or, for a URL that [validateUrl]
    refuses, 200 and one of its two codes.  With [null] the call was made and
    threw: the code is TIMEOUT or FETCH_FAILED.  With a number the upstream
    answered with that status, other than 304, and the answer was too large
    or could not be read.  The last two are sent with HTTP status 200. *)
Theorem fetch_error_status (api : UrlApi) (env : Environment) (cfg : Config)
    (w : World) (req : VercelRequest) (res res' : VercelResponse Body)
    (log : list Event) (e : FetchError) :
  fst (handler env cfg w req res log) = Normal res' ->
  res_sent res' = Some (Some (ErrorBody (Some e))) ->
  match err_status e with
  | NoStatus =>
      snd (handler env cfg w req res log) = log /\
      (res_statusCode res' = 405%N /\ req_method req <> "POST" \/
       res_statusCode res' = 400%N /\ err_code e = ErrorCodes.INVALID_URL \/
       res_statusCode res' = 200%N /\
       exists bodyUrl,
         Ssrf.error (Ssrf.validateUrl bodyUrl)
         = Some {| Ssrf.code := err_code e; Ssrf.message := err_message e |} /\
         (err_code e = ErrorCodes.INVALID_URL \/ err_code e = ErrorCodes.BLOCKED_URL))
  | NullStatus =>
      res_statusCode res' = 200%N /\
      exists data bodyUrl thrown,
        snd (handler env cfg w req res log) = (log ++ [Fetched "GET" bodyUrl])%list /\
        w_fetch w log (requestFor bodyUrl data) = Throw thrown /\
        err_code e = failureCode thrown /\
        (err_code e = ErrorCodes.TIMEOUT \/ err_code e = ErrorCodes.FETCH_FAILED)
  | HttpStatus n =>
      res_statusCode res' = 200%N /\
      exists data bodyUrl response,
        snd (handler env cfg w req res log) = (log ++ [Fetched "GET" bodyUrl])%list /\
        w_fetch w log (requestFor bodyUrl data) = Normal response /\
        n = rsp_status response /\ n <> 304%N /\
        (err_code e = ErrorCodes.CONTENT_TOO_LARGE \/
         err_code e = ErrorCodes.FETCH_FAILED /\
         exists thrown, rsp_arrayBuffer response = Throw thrown)
  end.
Proof.
  pose proof (handler_runs env cfg w req res log) as R.
  set (out := handler env cfg w req res log) in *. clearbody out.
  destruct R as [O|e' O C|res1 O P C|res1 e' P C V|res1 auth P C V A
                 |res1 message P C A M|res1 data e' P C A Pb G
                 |res1 data bodyUrl e' P C A Pb G Val He
                 |res1 data bodyUrl P C A Pb G T Val];
    cbn [fst snd]; try discriminate.
  - unfold handleOptions. destruct (setCorsHeaders env res); [|discriminate].
    intros [= <-]. discriminate.
  - intros [= <-] [= <-]. cbn. split; [reflexivity|]. left. auto.
  - intros [= <-]. discriminate.
  - intros [= <-] [= <-]. cbn. split; [reflexivity|]. right. left. auto.
  - intros [= <-] [= <-]. cbn. split; [reflexivity|]. right. right.
    split; [reflexivity|]. exists bodyUrl. destruct e' as [c m]. cbn.
    split; [exact He|].
    destruct (validateUrl_cases bodyUrl) as [[Hv _]|[_ (e2 & He2 & Hc)]];
      [congruence|].
    rewrite He in He2. injection He2 as <-. exact Hc.
  - intros [= <-] S.
    pose proof (fetchFeed_cases env w res1 bodyUrl data log) as (L & _ & St & F).
    cbv zeta in F.
    destruct (w_fetch w log (requestFor bodyUrl data)) as [response|thrown] eqn:W.
    + destruct F as [[E F]|[E [F|[(thrown & Ab & F)|(bytes & Ab & Le & F)]]]];
        rewrite F in S; try discriminate; injection S as <-; cbn;
        (split; [exact St|]); exists data, bodyUrl, response.
      * repeat split; try assumption. left. reflexivity.
      * repeat split; try assumption. right. split; [reflexivity | eauto].
    + rewrite F in S. injection S as <-. cbn. split; [exact St|].
      exists data, bodyUrl, thrown. repeat split; try assumption.
      unfold failureCode. destruct (isTimeout thrown); auto.
Qed.

(** The theorem on an upstream that does not answer in time. *)
Lemma fetch_error_status_witness :
  exists res',
    fst (handler FetchScenario.env Scenario.cfg FetchScenario.slowWorld
           (Scenario.discoverRequest "https://example.com/feed.xml")
           (fresh Body) [])
    = Normal res' /\
    res_sent res'
    = Some (Some (errorBody ErrorCodes.TIMEOUT "Request timed out" NullStatus)) /\
    res_statusCode res' = 200%N.
Proof.
  eexists. split; [vm_compute; reflexivity|]. split; [reflexivity|].
  exact (proj1 (fetch_error_status whatwg FetchScenario.env Scenario.cfg
                  FetchScenario.slowWorld
                  (Scenario.discoverRequest "https://example.com/feed.xml")
                  (fresh Body) _ []
                  {| err_code := ErrorCodes.TIMEOUT;
                     err_message := "Request timed out";
                     err_status := NullStatus |} eq_refl eq_refl)).
Defined.

Transparent fetchFeed.

End FetchClaims.

(* ---------------------------------------------------------------------- *)
(** ** api/parse.ts: the handler *)
(* ---------------------------------------------------------------------- *)

Section ParseHandler.

Import Discover Upstream Cors Handlers Parse ParseRuns.

Context {api : UrlApi} {dom : Sanitize.DomApi}.
Variable env : Environment.
Variable cfg : Config.
Variable w : World.

(** The fetch of the page, read back from its result. *)
Lemma fetchPage_cases (bodyUrl : string) (log : list Event) :
  snd (fetchPage cfg w bodyUrl log) = (log ++ [Fetched "GET" bodyUrl])%list /\
  match fst (fetchPage cfg w bodyUrl log) with
  | inl failure =>
      exists code message,
        failure = errorBody code message /\
        In code [ErrorCodes.TIMEOUT; ErrorCodes.FETCH_FAILED;
                 ErrorCodes.CONTENT_TOO_LARGE]
  | inr html =>
      exists response bytes,
        w_fetch w log (pageRequest bodyUrl) = Normal response /\
        rsp_ok response = true /\
        rsp_arrayBuffer response = Normal bytes /\
        (N.of_nat (String.length bytes) <= MAX_HTML_SIZE cfg)%N /\
        JsNumber.exceeds
          (JsNumber.parseInt10 (Js.opt_or (rsp_header response "content-length") ""))
          (MAX_HTML_SIZE cfg) = false /\
        html = w_decode w bytes
  end.
Proof.
  unfold fetchPage, bind, fetch, ret. cbn [fst snd request_method request_url pageRequest].
  split; [reflexivity|].
  assert (Fc : forall e, exists code message,
               errorBody (failureCode e) (failureMessage e) = errorBody code message /\
               In code [ErrorCodes.TIMEOUT; ErrorCodes.FETCH_FAILED;
                        ErrorCodes.CONTENT_TOO_LARGE]).
  { intro e. eexists _, _. split; [reflexivity|]. unfold failureCode.
    destruct (isTimeout e); simpl; auto. }
  fold (pageRequest bodyUrl).
  destruct (w_fetch w log (pageRequest bodyUrl)) as [response|e]; [|apply Fc].
  destruct (rsp_ok response) eqn:Ok; cbn [negb].
  - destruct (Js.opt_truthy (rsp_header response "content-length")) eqn:T;
      cbn [andb].
    + destruct (JsNumber.exceeds _ _) eqn:X.
      * eexists _, _. split; [reflexivity | simpl; auto].
      * destruct (rsp_arrayBuffer response) as [bytes|e] eqn:Ab; [|apply Fc].
        destruct (N.ltb_spec (MAX_HTML_SIZE cfg) (N.of_nat (String.length bytes))).
        -- eexists _, _. split; [reflexivity | simpl; auto].
        -- exists response, bytes. auto 10.
    + destruct (rsp_arrayBuffer response) as [bytes|e] eqn:Ab; [|apply Fc].
      destruct (N.ltb_spec (MAX_HTML_SIZE cfg) (N.of_nat (String.length bytes))).
      * eexists _, _. split; [reflexivity | simpl; auto].
      * exists response, bytes. repeat split; try assumption.
        destruct (rsp_header response "content-length") as [[|c s]|];
          try discriminate; reflexivity.
  - eexists _, _. split; [reflexivity | simpl; auto].
Qed.

(** The reading of the page, read back from its result. *)
Lemma readPage_cases (format : JsValue) (bodyUrl html : string) :
  match readPage w format bodyUrl html with
  | SuccessBody r =>
      exists document extracted,
        w_parseHTML w html = Normal document /\
        w_Readability w document = Normal (Some extracted) /\
        r = articleResponse format bodyUrl extracted
              (extractOgImage document bodyUrl) (extractSiteName document)
  | ErrorBody (Some e) => err_code e = ErrorCodes.PARSE_FAILED
  | _ => False
  end.
Proof.
  unfold readPage.
  destruct (w_parseHTML w html) as [document|e] eqn:Ph; [|reflexivity].
  destruct (w_Readability w document) as [[extracted|]|e] eqn:R; try reflexivity.
  exists document, extracted. repeat split; assumption.
Qed.

(** Every run of the handler is one of the cases of [Run]. *)
Lemma parse_handler_runs (req : VercelRequest) (res : VercelResponse Body)
    (log : list Event) :
  Run env cfg w req res log (handler env cfg w req res log).
Proof.
  unfold handler.
  destruct (String.eqb_spec (req_method req) "OPTIONS") as [O|O];
    [now apply RunPreflight|].
  destruct (setCorsHeaders env res) as [res1|e] eqn:C;
    [|now apply RunNoHeaders].
  destruct (String.eqb_spec (req_method req) "POST") as [P|P]; cbn [negb];
    [|now apply RunMethod].
  destruct (Auth.validateAuth cfg req) as [auth|e] eqn:V;
    [|now apply (RunAuthThrows _ _ _ _ _ _ res1)].
  destruct (Auth.authenticated auth) eqn:A; cbn [negb];
    [|now apply RunUnauthorized].
  assert (Acc : Auth.accepted (Auth.validateAuth cfg req) = true)
    by now rewrite V.
  destruct (parseBody w req) as [data|e] eqn:Pb.
  - destruct (get_url data) as [v|e] eqn:G;
      [|now apply (RunBodyThrows _ _ _ _ _ _ res1 data)].
    assert (M : forall v', get_url data = Normal v' ->
                  (value_truthy v' = false \/ is_string v' = false) ->
                  Run env cfg w req res log
                    (Normal (respond res1 400
                               (errorBody ErrorCodes.INVALID_URL
                                  "Missing required field: url")), log)).
    { intros v' Hv' Hf. apply RunBadBody; try assumption.
      right. split; [reflexivity|]. exists data, v'. auto. }
    destruct v as [| |b|z|bodyUrl|items|fields];
      try (apply (M _ G); right; reflexivity).
    destruct (Js.truthy bodyUrl) eqn:T; cbn [negb];
      [|apply (M _ G); left; exact T].
    cbv zeta.
    destruct (Ssrf.valid (Ssrf.validateUrl bodyUrl)) eqn:Val; cbn [negb].
    + destruct (knownFormat (formatOf data)) eqn:K; cbn [negb].
      * unfold bind, ret.
        pose proof (RunFetched env cfg w req res log res1 data bodyUrl) as R.
        destruct (fetchPage cfg w bodyUrl log) as [fetched log'].
        apply R; try assumption. intros ->. discriminate.
      * unfold ret. now apply (RunBadFormat env cfg w req res log res1 data bodyUrl).
    + destruct (validateUrl_cases bodyUrl) as [[Hv _]|[_ (e & He & _)]];
        [congruence|].
      rewrite He. cbn [option_map]. unfold ret.
      now apply (RunRefused env cfg w req res log res1 data bodyUrl e).
  - apply RunBadBody; try assumption. left. split; [reflexivity | eauto].
Qed.

End ParseHandler.

Section ParseClaims.

Import Discover Upstream Cors Handlers Parse ParseRuns.

Opaque fetchPage readPage.

(** X21.  The parse handler calls the network at most once, with a GET for the
    [url] of the body, and only for a POST whose key is accepted, whose URL
    [validateUrl] found valid and whose format is html, text or both, the
    default; a request with another format is refused before any call. *)
Theorem parse_handler_requests (api : UrlApi) (dom : Sanitize.DomApi)
    (env : Environment) (cfg : Config) (w : World) (req : VercelRequest)
    (res : VercelResponse Body) (log : list Event) :
  snd (handler env cfg w req res log) = log \/
  exists data bodyUrl,
    snd (handler env cfg w req res log) = (log ++ [Fetched "GET" bodyUrl])%list /\
    req_method req = "POST" /\
    Auth.accepted (Auth.validateAuth cfg req) = true /\
    parseBody w req = Normal data /\
    get_url data = Normal (JString bodyUrl) /\
    Ssrf.valid (Ssrf.validateUrl bodyUrl) = true /\
    knownFormat (formatOf data) = true.
Proof.
  pose proof (parse_handler_runs env cfg w req res log) as R.
  set (out := handler env cfg w req res log) in *. clearbody out.
  destruct R as [| | | | | | | | |res1 data bodyUrl P C A Pb G T Val K]; auto.
  right. exists data, bodyUrl.
  pose proof (fetchPage_cases cfg w bodyUrl log) as (L & _).
  cbn [snd]. rewrite L. auto 10.
Qed.

(** The successful answers of the handler, read back. *)
Lemma parse_success_inversion (api : UrlApi) (dom : Sanitize.DomApi)
    (env : Environment) (cfg : Config) (w : World) (req : VercelRequest)
    (res res' : VercelResponse Body) (log : list Event) (r : ParseSuccessResponse) :
  fst (handler env cfg w req res log) = Normal res' ->
  res_sent res' = Some (Some (SuccessBody r)) ->
  res_statusCode res' = 200%N /\
  exists data bodyUrl response bytes document extracted,
    parseBody w req = Normal data /\
    get_url data = Normal (JString bodyUrl) /\
    Ssrf.valid (Ssrf.validateUrl bodyUrl) = true /\
    knownFormat (formatOf data) = true /\
    w_fetch w log (pageRequest bodyUrl) = Normal response /\
    rsp_ok response = true /\
    rsp_arrayBuffer response = Normal bytes /\
    (N.of_nat (String.length bytes) <= MAX_HTML_SIZE cfg)%N /\
    w_parseHTML w (w_decode w bytes) = Normal document /\
    w_Readability w document = Normal (Some extracted) /\
    r = articleResponse (formatOf data) bodyUrl extracted
          (extractOgImage document bodyUrl) (extractSiteName document).
Proof.
  pose proof (parse_handler_runs env cfg w req res log) as R.
  set (out := handler env cfg w req res log) in *. clearbody out.
  destruct R as [O|e O C|res1 O P C|res1 e P C V|res1 auth P C V A
                 |res1 message P C A M|res1 data e P C A Pb G
                 |res1 data bodyUrl e P C A Pb G Val He
                 |res1 data bodyUrl P C A Pb G Val K
                 |res1 data bodyUrl P C A Pb G T Val K];
    cbn [fst]; try discriminate.
  - unfold handleOptions. destruct (setCorsHeaders env res); [|discriminate].
    intros [= <-]. discriminate.
  - intros [= <-]. discriminate.
  - intros [= <-]. discriminate.
  - intros [= <-]. discriminate.
  - intros [= <-]. discriminate.
  - intros [= <-]. discriminate.
  - intros [= <-] S. split; [reflexivity|].
    pose proof (fetchPage_cases cfg w bodyUrl log) as (_ & F).
    destruct (fst (fetchPage cfg w bodyUrl log)) as [failure|html].
    + destruct F as (code & message & -> & _). discriminate.
    + destruct F as (response & bytes & W & Ok & Ab & Le & _ & ->).
      cbn in S. injection S as S.
      pose proof (readPage_cases w (formatOf data) bodyUrl (w_decode w bytes)) as Rp.
      rewrite S in Rp. destruct Rp as (document & extracted & Ph & Rd & ->).
      exists data, bodyUrl, response, bytes, document, extracted. auto 15.
Qed.

(** X22.  A successful answer of the parse handler is sent with status 200 and
    stands for a whole chain: the URL of the body was found valid and the
    format is known; the page was fetched with a successful status and its
    bytes do not exceed the limit on HTML; the decoded page was parsed and
    Readability found an article in it, from which the answer is built. *)
Theorem parse_success_shape (api : UrlApi) (dom : Sanitize.DomApi)
    (env : Environment) (cfg : Config) (w : World) (req : VercelRequest)
    (res res' : VercelResponse Body) (log : list Event) (r : ParseSuccessResponse) :
  fst (handler env cfg w req res log) = Normal res' ->
  res_sent res' = Some (Some (SuccessBody r)) ->
  res_statusCode res' = 200%N /\
  exists data bodyUrl response bytes document extracted,
    parseBody w req = Normal data /\
    get_url data = Normal (JString bodyUrl) /\
    Ssrf.valid (Ssrf.validateUrl bodyUrl) = true /\
    knownFormat (formatOf data) = true /\
    w_fetch w log (pageRequest bodyUrl) = Normal response /\
    rsp_ok response = true /\
    rsp_arrayBuffer response = Normal bytes /\
    (N.of_nat (String.length bytes) <= MAX_HTML_SIZE cfg)%N /\
    w_parseHTML w (w_decode w bytes) = Normal document /\
    w_Readability w document = Normal (Some extracted) /\
    title r = or_null (article_title extracted) /\
    image r = extractOgImage document bodyUrl /\
    siteName r = match or_null (article_siteName extracted) with
                 | Some name => Some name
                 | None => extractSiteName document
                 end.
Proof.
  intros H S.
  destruct (parse_success_inversion api dom env cfg w req res res' log r H S)
    as (St & data & bodyUrl & response & bytes & document & extracted & Pb & G
        & Val & K & W & Ok & Ab & Le & Ph & Rd & ->).
  split; [exact St|].
  exists data, bodyUrl, response, bytes, document, extracted.
  repeat split; assumption.
Qed.

Lemma formatIs_exclusive (format : JsValue) :
  knownFormat format = true ->
  (wantsHtml format = false <-> formatIs format "text" = true) /\
  (wantsText format = false <-> formatIs format "html" = true).
Proof.
  unfold knownFormat, wantsHtml, wantsText, formatIs.
  destruct format as [| |b|z|s|items|fields]; try discriminate.
  destruct (String.eqb_spec s "html") as [->|H];
    [intros _; split; split; (reflexivity || discriminate)|].
  destruct (String.eqb_spec s "text") as [->|T];
    [intros _; split; split; (reflexivity || discriminate)|].
  destruct (String.eqb_spec s "both") as [->|B]; [|discriminate].
  intros _. split; split; discriminate.
Qed.

(** X23.  The content of a successful answer follows the format.  [content] is
    always the same as [htmlContent]; both are missing exactly for the format
    text, and [textContent] is missing exactly for the format html, so that a
    request without a format gets all three.  The HTML is the serialisation
    of a tree that went through the sanitizer: none of its elements has a
    dangerous tag, and each has an allowed tag or is html, head or body. *)
Theorem parse_content_by_format (api : UrlApi) (dom : Sanitize.DomApi)
    (env : Environment) (cfg : Config) (w : World) (req : VercelRequest)
    (res res' : VercelResponse Body) (log : list Event) (r : ParseSuccessResponse)
    (data : JsValue) :
  fst (handler env cfg w req res log) = Normal res' ->
  res_sent res' = Some (Some (SuccessBody r)) ->
  parseBody w req = Normal data ->
  content r = htmlContent r /\
  (htmlContent r = None <-> formatIs (formatOf data) "text" = true) /\
  (textContent r = None <-> formatIs (formatOf data) "html" = true) /\
  (value_truthy (JsObject.get data "format") = false ->
   htmlContent r <> None /\ textContent r <> None) /\
  (forall html, htmlContent r = Some html ->
     exists tree, html = Sanitize.innerHTML tree /\ cleanTree tree).
Proof.
  intros H S Pb.
  destruct (parse_success_inversion api dom env cfg w req res res' log r H S)
    as (St & data' & bodyUrl & response & bytes & document & extracted & Pb'
        & G & Val & K & W & Ok & Ab & Le & Ph & Rd & ->).
  rewrite Pb in Pb'. injection Pb' as <-.
  destruct (formatIs_exclusive (formatOf data) K) as [Fh Ft].
  unfold articleResponse. cbn [content htmlContent textContent].
  fold (wantsHtml (formatOf data)). fold (wantsText (formatOf data)).
  split; [reflexivity|]. split; [|split; [|split]].
  - rewrite <- Fh. destruct (wantsHtml (formatOf data));
      split; (reflexivity || discriminate).
  - rewrite <- Ft. destruct (wantsText (formatOf data));
      split; (reflexivity || discriminate).
  - intro Hf. unfold formatOf. rewrite Hf. split; discriminate.
  - intros html Hh. destruct (wantsHtml (formatOf data)); [|discriminate].
    injection Hh as <-. unfold Sanitize.sanitizeHtml.
    eexists. split; [reflexivity|].
    intros tag attrs Hin. unfold Sanitize.sanitizeTree in Hin.
    apply provenance in Hin. destruct Hin as [D [[Hs _]|[_ [Ha _]]]]; auto.
Qed.

(** The theorem on a page of 20 bytes in which Readability finds an article. *)
Lemma parse_success_shape_witness :
  exists res' r,
    fst (handler FetchScenario.env Scenario.cfg ParseScenario.pageWorld
           (Scenario.discoverRequest "https://example.com/post")
           (fresh Body) [])
    = Normal res' /\
    res_sent res' = Some (Some (SuccessBody r)) /\
    res_statusCode res' = 200%N /\
    siteName r = Some "Example".
Proof.
  eexists. eexists. split; [vm_compute; reflexivity|]. split; [reflexivity|].
  split; [|reflexivity].
  exact (proj1 (parse_success_shape whatwg html_model FetchScenario.env Scenario.cfg
                  ParseScenario.pageWorld
                  (Scenario.discoverRequest "https://example.com/post")
                  (fresh Body) _ [] _ eq_refl eq_refl)).
Defined.

(** The theorem on the same page: asked for the text, the answer has no
    HTML; asked for nothing, it has the sanitized HTML and the text. *)
Lemma parse_content_by_format_witness :
  exists res' r res'' r',
    fst (handler FetchScenario.env Scenario.cfg ParseScenario.pageWorld
           (ParseScenario.textRequest "https://example.com/post")
           (fresh Body) [])
    = Normal res' /\
    res_sent res' = Some (Some (SuccessBody r)) /\
    htmlContent r = None /\ content r = htmlContent r /\
    textContent r = Some "Hello, world." /\
    fst (handler FetchScenario.env Scenario.cfg ParseScenario.pageWorld
           (Scenario.discoverRequest "https://example.com/post")
           (fresh Body) [])
    = Normal res'' /\
    res_sent res'' = Some (Some (SuccessBody r')) /\
    htmlContent r' = Some "<p>Hello, world.</p>" /\ content r' = htmlContent r'.
Proof.
  eexists. eexists. eexists. eexists.
  split; [vm_compute; reflexivity|]. split; [reflexivity|].
  split; [reflexivity|].
  split.
  { exact (proj1 (parse_content_by_format whatwg html_model FetchScenario.env
                    Scenario.cfg ParseScenario.pageWorld
                    (ParseScenario.textRequest "https://example.com/post")
                    (fresh Body) _ [] _ _ eq_refl eq_refl eq_refl)). }
  split; [reflexivity|].
  split; [vm_compute; reflexivity|]. split; [reflexivity|].
  split; [reflexivity|].
  exact (proj1 (parse_content_by_format whatwg html_model FetchScenario.env
                  Scenario.cfg ParseScenario.pageWorld
                  (Scenario.discoverRequest "https://example.com/post")
                  (fresh Body) _ [] _ _ eq_refl eq_refl eq_refl)).
Defined.

Transparent fetchPage readPage.

End ParseClaims.

(* ---------------------------------------------------------------------- *)
(** ** The CORS headers and the API key, on the handlers *)
(* ---------------------------------------------------------------------- *)

Section AcrossHandlers.

Import Discover Upstream Cors Handlers.

Lemma corsHeadersSet_headers {B : Type} (env : Environment)
    (a b : VercelResponse B) :
  res_headers a = res_headers b -> corsHeadersSet env b -> corsHeadersSet env a.
Proof.
  intros E H name value Hin. unfold getHeader. rewrite E. now apply H.
Qed.

Opaque Fetch.fetchFeed.

Lemma fetch_answer_headers (api : UrlApi) (env : Environment) (cfg : Config)
    (w : Fetch.World) (req : VercelRequest) (res res' : VercelResponse Fetch.Body)
    (log : list Event) :
  fst (Fetch.handler env cfg w req res log) = Normal res' ->
  corsHeadersSet env res' /\ wasSent res' = true /\ res_sent res = None.
Proof.
  pose proof (handler_runs env cfg w req res log) as R.
  set (out := Fetch.handler env cfg w req res log) in *. clearbody out.
  destruct R as [O|e O C|res1 O P C|res1 e P C V|res1 auth P C V A
                 |res1 message P C A M|res1 data e P C A Pb G
                 |res1 data bodyUrl e P C A Pb G Val He
                 |res1 data bodyUrl P C A Pb G T Val];
    cbn [fst]; try discriminate;
    try (intros [= <-]; apply setCorsHeaders_normal in C;
         destruct C as (H & S & _); repeat split; assumption).
  - unfold handleOptions.
    destruct (setCorsHeaders env res) as [res1|] eqn:C; [|discriminate].
    intros [= <-]. apply setCorsHeaders_normal in C.
    destruct C as (H & S & _). repeat split; assumption.
  - intros [= <-]. apply setCorsHeaders_normal in C. destruct C as (H & S & _).
    pose proof (fetchFeed_cases env w res1 bodyUrl data log) as (_ & Hh & _ & F).
    cbv zeta in F. split; [|split; [|exact S]].
    + exact (corsHeadersSet_headers env _ res1 Hh H).
    + unfold wasSent.
      destruct (Fetch.w_fetch w log (FetchRuns.requestFor bodyUrl data))
        as [response|thrown].
      * destruct F as [[_ F]|[_ [F|[(thrown & _ & F)|(bytes & _ & _ & F)]]]];
          now rewrite F.
      * now rewrite F.
Qed.

Transparent Fetch.fetchFeed.

Lemma parse_answer_headers (api : UrlApi) (dom : Sanitize.DomApi)
    (env : Environment) (cfg : Config)
    (w : Parse.World) (req : VercelRequest) (res res' : VercelResponse Parse.Body)
    (log : list Event) :
  fst (Parse.handler env cfg w req res log) = Normal res' ->
  corsHeadersSet env res' /\ wasSent res' = true /\ res_sent res = None.
Proof.
  pose proof (parse_handler_runs env cfg w req res log) as R.
  set (out := Parse.handler env cfg w req res log) in *. clearbody out.
  destruct R as [O|e O C|res1 O P C|res1 e P C V|res1 auth P C V A
                 |res1 message P C A M|res1 data e P C A Pb G
                 |res1 data bodyUrl e P C A Pb G Val He
                 |res1 data bodyUrl P C A Pb G Val K
                 |res1 data bodyUrl P C A Pb G T Val K];
    cbn [fst]; try discriminate;
    try (intros [= <-]; apply setCorsHeaders_normal in C;
         destruct C as (H & S & _); repeat split; assumption).
  unfold handleOptions.
  destruct (setCorsHeaders env res) as [res1|] eqn:C; [|discriminate].
  intros [= <-]. apply setCorsHeaders_normal in C.
  destruct C as (H & S & _). repeat split; assumption.
Qed.

(** X24.  Every answer of the fetch and of the parse handler carries the four CORS
    headers, with the value of ALLOWED_ORIGINS or [*] for the origin, which
    is never empty; this holds for the preflight, which is answered 204
    without a body, and for every error.  When the value of ALLOWED_ORIGINS
    cannot stand in a header, no request gets an answer: the handlers end
    with the exception of [setHeader]. *)
Theorem cors_headers_on_every_answer (api : UrlApi) (dom : Sanitize.DomApi)
    (env : Environment) (cfg : Config) (req : VercelRequest) (log : list Event) :
  ALLOWED_ORIGINS env <> "" /\
  (forall (w : Fetch.World) (res res' : VercelResponse Fetch.Body),
      fst (Fetch.handler env cfg w req res log) = Normal res' ->
      corsHeadersSet env res' /\ wasSent res' = true /\
      (req_method req = "OPTIONS" ->
       res_statusCode res' = 204%N /\ res_sent res' = Some None)) /\
  (forall (w : Parse.World) (res res' : VercelResponse Parse.Body),
      fst (Parse.handler env cfg w req res log) = Normal res' ->
      corsHeadersSet env res' /\ wasSent res' = true /\
      (req_method req = "OPTIONS" ->
       res_statusCode res' = 204%N /\ res_sent res' = Some None)) /\
  (Whatwg.forall_chars validHeaderChar (ALLOWED_ORIGINS env) = false ->
   (forall (w : Fetch.World) (res : VercelResponse Fetch.Body),
       exists e, Fetch.handler env cfg w req res log = (Throw e, log)) /\
   (forall (w : Parse.World) (res : VercelResponse Parse.Body),
       exists e, Parse.handler env cfg w req res log = (Throw e, log))).
Proof.
  split; [apply ALLOWED_ORIGINS_truthy|]. split; [|split].
  - intros w res res' H.
    destruct (fetch_answer_headers api env cfg w req res res' log H) as (Hc & Hs & _).
    split; [exact Hc|]. split; [exact Hs|].
    intro O. unfold Fetch.handler in H. rewrite O in H. cbn in H.
    apply handleOptions_normal in H. tauto.
  - intros w res res' H.
    destruct (parse_answer_headers api dom env cfg w req res res' log H)
      as (Hc & Hs & _).
    split; [exact Hc|]. split; [exact Hs|].
    intro O. unfold Parse.handler in H. rewrite O in H. cbn in H.
    apply handleOptions_normal in H. tauto.
  - intro Bad. split; intros w res;
      destruct (setCorsHeaders_throws env res (or_intror Bad)) as [e E].
    + exists e. unfold Fetch.handler, handleOptions. rewrite E.
      destruct (String.eqb (req_method req) "OPTIONS"); reflexivity.
    + exists e. unfold Parse.handler, handleOptions. rewrite E.
      destruct (String.eqb (req_method req) "OPTIONS"); reflexivity.
Qed.

(** X25.  A request whose key is not accepted causes no network call on any of the
    three POST endpoints; when [validateAuth] answers, every answer to a POST
    is 401 with its error.  (There is no answer when the CORS headers cannot
    be set.) *)
Theorem rejected_requests_reach_nothing (api : UrlApi) (dom : Sanitize.DomApi)
    (env : Environment) (cfg : Config) (req : VercelRequest) (log : list Event) :
  Auth.accepted (Auth.validateAuth cfg req) = false ->
  (forall (w : Discover.World) (res : VercelResponse Discover.ResponseBody),
      snd (Discover.handler env cfg w req res log) = log) /\
  (forall (w : Fetch.World) (res : VercelResponse Fetch.Body),
      snd (Fetch.handler env cfg w req res log) = log) /\
  (forall (w : Parse.World) (res : VercelResponse Parse.Body),
      snd (Parse.handler env cfg w req res log) = log) /\
  (forall auth, req_method req = "POST" -> Auth.validateAuth cfg req = Normal auth ->
     (forall (w : Discover.World) (res res' : VercelResponse Discover.ResponseBody),
         fst (Discover.handler env cfg w req res log) = Normal res' ->
         res_statusCode res' = 401%N /\
         res_sent res'
         = Some (Some (Discover.AuthErrorBody (Some "Invalid or missing API key")))) /\
     (forall (w : Fetch.World) (res res' : VercelResponse Fetch.Body),
         fst (Fetch.handler env cfg w req res log) = Normal res' ->
         res_statusCode res' = 401%N /\
         res_sent res'
         = Some (Some (Fetch.AuthErrorBody (Some "Invalid or missing API key")))) /\
     (forall (w : Parse.World) (res res' : VercelResponse Parse.Body),
         fst (Parse.handler env cfg w req res log) = Normal res' ->
         res_statusCode res' = 401%N /\
         res_sent res'
         = Some (Some (Parse.AuthErrorBody (Some "Invalid or missing API key"))))).
Proof.
  intro Rej.
  assert (E : forall auth, Auth.validateAuth cfg req = Normal auth ->
                Auth.authenticated auth = false /\
                Auth.error auth = Some "Invalid or missing API key").
  { intros auth V. unfold Auth.accepted in Rej. rewrite V in Rej.
    split; [exact Rej|]. unfold Auth.validateAuth in V.
    destruct (negb _) in V; [injection V as <-; discriminate|].
    destruct (Auth.header_falsy _) in V; [now injection V as <-|].
    destruct (match assoc _ _ with Some _ => _ | None => _ end) in V;
      [|discriminate].
    destruct (negb _) in V; injection V as <-; [reflexivity | discriminate]. }
  split; [|split; [|split]].
  - intros w res. unfold Discover.handler, Discover.answer, bind.
    destruct (String.eqb _ "OPTIONS"); [reflexivity|].
    destruct (setCorsHeaders env res); [|reflexivity].
    destruct (negb _); [reflexivity|].
    destruct (Auth.validateAuth cfg req) as [auth|e]; [|reflexivity].
    destruct (E auth eq_refl) as [-> _]. reflexivity.
  - intros w res. unfold Fetch.handler.
    destruct (String.eqb _ "OPTIONS"); [reflexivity|].
    destruct (setCorsHeaders env res); [|reflexivity].
    destruct (negb _); [reflexivity|].
    destruct (Auth.validateAuth cfg req) as [auth|e]; [|reflexivity].
    destruct (E auth eq_refl) as [-> _]. reflexivity.
  - intros w res. unfold Parse.handler.
    destruct (String.eqb _ "OPTIONS"); [reflexivity|].
    destruct (setCorsHeaders env res); [|reflexivity].
    destruct (negb _); [reflexivity|].
    destruct (Auth.validateAuth cfg req) as [auth|e]; [|reflexivity].
    destruct (E auth eq_refl) as [-> _]. reflexivity.
  - intros auth P V. destruct (E auth V) as [A Er].
    split; [|split].
    + intros w res res'. unfold Discover.handler, Discover.answer, bind.
      rewrite P, V, A, Er.
      change (String.eqb "POST" "OPTIONS") with false.
      change (negb (String.eqb "POST" "POST")) with false. cbv iota.
      destruct (setCorsHeaders env res); [|discriminate].
      cbn. intros [= <-]. split; reflexivity.
    + intros w res res'. unfold Fetch.handler. rewrite P, V, A, Er.
      change (String.eqb "POST" "OPTIONS") with false.
      change (negb (String.eqb "POST" "POST")) with false. cbv iota.
      destruct (setCorsHeaders env res); [|discriminate].
      cbn. intros [= <-]. split; reflexivity.
    + intros w res res'. unfold Parse.handler. rewrite P, V, A, Er.
      change (String.eqb "POST" "OPTIONS") with false.
      change (negb (String.eqb "POST" "POST")) with false. cbv iota.
      destruct (setCorsHeaders env res); [|discriminate].
      cbn. intros [= <-]. split; reflexivity.
Qed.

(** The theorem on a request that presents a mistyped key. *)
Lemma rejected_requests_reach_nothing_witness :
  let locked := {| API_KEY := Some "s3cret"; MAX_HTML_SIZE_MB := 5 |} in
  let req := {| req_method := "POST";
                req_headers := [("x-api-key", HString "s3cre7")];
                req_body := JObject [("url", JString "https://example.com")] |} in
  snd (Discover.handler Scenario.env locked Scenario.feedWorld req
         (fresh Discover.ResponseBody) []) = [] /\
  snd (Fetch.handler FetchScenario.env locked FetchScenario.goneWorld req
         (fresh Fetch.Body) []) = [] /\
  snd (Parse.handler FetchScenario.env locked ParseScenario.pageWorld req
         (fresh Parse.Body) []) = [].
Proof.
  intros locked req.
  destruct (rejected_requests_reach_nothing whatwg html_model FetchScenario.env
              locked req [] eq_refl) as (D & F & P & _).
  split; [apply D|]. split; [apply F | apply P].
Defined.

(** X27.  The CORS headers on the other two endpoints.  Every answer of the
    discover handler and of the health check carries the four CORS headers;
    a preflight is answered 204 without a body; and when the value of
    ALLOWED_ORIGINS cannot stand in a header both end with the exception of
    [setHeader], whatever the request. *)
Theorem cors_headers_discover_health (api : UrlApi) (env : Environment)
    (cfg : Config) (req : VercelRequest) (log : list Event) :
  (forall (w : Discover.World) (res res' : VercelResponse Discover.ResponseBody),
      fst (Discover.handler env cfg w req res log) = Normal res' ->
      corsHeadersSet env res' /\ wasSent res' = true /\
      (req_method req = "OPTIONS" ->
       res_statusCode res' = 204%N /\ res_sent res' = Some None)) /\
  (forall res res' : VercelResponse Health.HealthBody,
      Health.handler env cfg req res = Normal res' ->
      corsHeadersSet env res' /\ wasSent res' = true /\
      (req_method req = "OPTIONS" ->
       res_statusCode res' = 204%N /\ res_sent res' = Some None)) /\
  (Whatwg.forall_chars validHeaderChar (ALLOWED_ORIGINS env) = false ->
   (forall (w : Discover.World) (res : VercelResponse Discover.ResponseBody),
       exists e, Discover.handler env cfg w req res log = (Throw e, log)) /\
   (forall res : VercelResponse Health.HealthBody,
       exists e, Health.handler env cfg req res = Throw e)).
Proof.
  split; [|split].
  - intros w res res'.
    destruct (handler_cases env cfg w req res log)
      as [[O E] | [(O & e & _ & E) | (O & res1 & C & E)]]; rewrite E; cbn [fst].
    + intro H. apply handleOptions_normal in H. destruct H as (H & S & N).
      split; [exact H|]. split; [unfold wasSent; now rewrite N | auto].
    + discriminate.
    + apply setCorsHeaders_normal in C. destruct C as (H & _).
      destruct (fst (Discover.answer cfg w req log)) as [st b|e]; [|discriminate].
      intros [= <-]. split; [|split; [reflexivity | intro; contradiction]].
      exact (corsHeadersSet_headers env _ res1 eq_refl H).
  - intros res res'. unfold Health.handler.
    destruct (String.eqb_spec (req_method req) "OPTIONS") as [O|O].
    + intro H. apply handleOptions_normal in H. destruct H as (H & S & N).
      split; [exact H|]. split; [unfold wasSent; now rewrite N | auto].
    + destruct (setCorsHeaders env res) as [res1|e] eqn:C; [|discriminate].
      apply setCorsHeaders_normal in C. destruct C as (H & _).
      assert (R : forall st b,
                 corsHeadersSet env (json (status res1 st) b) /\
                 wasSent (json (status res1 st) b) = true /\
                 (req_method req = "OPTIONS" ->
                  res_statusCode (json (status res1 st) b) = 204%N /\
                  res_sent (json (status res1 st) b) = Some None)).
      { intros st b. split; [|split; [reflexivity | intro; contradiction]].
        exact (corsHeadersSet_headers env _ res1 eq_refl H). }
      destruct (negb _); [intros [= <-]; apply R|].
      destruct (Auth.validateAuth cfg req) as [auth|e]; [|discriminate].
      destruct (negb _); intros [= <-]; apply R.
  - intro Bad. split.
    + intros w res.
      destruct (setCorsHeaders_throws env res (or_intror Bad)) as [e E].
      exists e. unfold Discover.handler, handleOptions. rewrite E.
      destruct (String.eqb (req_method req) "OPTIONS"); reflexivity.
    + intro res.
      destruct (setCorsHeaders_throws env res (or_intror Bad)) as [e E].
      exists e. unfold Health.handler, handleOptions. rewrite E.
      destruct (String.eqb (req_method req) "OPTIONS"); reflexivity.
Qed.

End AcrossHandlers.

(* ---------------------------------------------------------------------- *)
(** ** api/discover.ts: the calls of a discovery *)
(* ---------------------------------------------------------------------- *)

Section DiscoveryCalls.

Import Discover DiscoverAux.

Context {api : UrlApi}.
Variable cfg : Config.
Variable w : World.

Lemma validateFeedUrl_calls (u : string) (log : list Event) :
  snd (validateFeedUrl w u log) = (log ++ [Fetched "GET" u])%list.
Proof. reflexivity. Qed.

Lemma discoverImages_calls (link : string) (log : list Event) :
  snd (discoverImages w link log) = (log ++ [Fetched "GET" link])%list.
Proof. reflexivity. Qed.

Lemma fetchHomepage_calls (homepageUrl : string) (log : list Event) :
  snd (fetchHomepage cfg w homepageUrl log) = (log ++ [Fetched "GET" homepageUrl])%list.
Proof. reflexivity. Qed.

Lemma probeFeedPaths_calls (origin : string) (log : list Event) :
  exists evs, snd (probeFeedPaths w origin log) = (log ++ evs)%list /\
              List.length evs <= 10.
Proof.
  rewrite probeFeedPaths_batches.
  destruct (probeBatches_requests w origin feedPathBatches log)
    as (evs & E & Hl & _).
  exists evs. split; [exact E | exact Hl].
Qed.

Lemma feedBranch_calls (n : string) (log : list Event) :
  exists evs, snd (feedBranch w n log) = (log ++ evs)%list /\
              List.length evs <= 2.
Proof.
  unfold feedBranch, bind.
  destruct (parseFeed w n log) as [[parsed|] l1] eqn:P;
    pose proof (parseFeed_unfold w n log) as E; rewrite P in E; cbn [snd] in E;
    subst l1.
  - destruct (Js.truthy (md_link (metadata parsed))).
    + pose proof (discoverImages_calls (md_link (metadata parsed))
                    (log ++ [FeedRequested n])) as D.
      destruct (discoverImages w _ _) as [found l2]. cbn [snd] in D. subst l2.
      unfold ret. cbn [snd]. rewrite <- app_assoc.
      eexists. split; [reflexivity | simpl; lia].
    + unfold ret. cbn [snd]. eexists. split; [reflexivity | simpl; lia].
  - unfold ret. cbn [snd]. eexists. split; [reflexivity | simpl; lia].
Qed.

(** The calls that follow the location of the feeds: at most one, to the
    parser. *)
Lemma located_calls (inputType : InputType) (homepageUrl : string)
    (found : Images) (located : list FeedInfo) (log : list Event) :
  exists evs,
    snd (match located with
         | [] =>
             ret (Normal (Responded 200 (SuccessBody
                    {| input_type := inputType;
                       normalized_url := homepageUrl;
                       feeds := [];
                       recommended_feed := None;
                       response_metadata := None;
                       images := found;
                       content_analysis := None;
                       recent_posts := None;
                       response_message :=
                         Some "No RSS or Atom feeds found for this URL" |})))
         | first :: others =>
             let recommendedFeedUrl := url first in
             parsed <- parseFeed w recommendedFeedUrl ;;
             ret (Normal (Responded 200 (SuccessBody
                    match parsed with
                    | Some parsed =>
                        {| input_type := inputType;
                           normalized_url := homepageUrl;
                           feeds := fillTitle first (md_title (metadata parsed))
                                    :: others;
                           recommended_feed := Some recommendedFeedUrl;
                           response_metadata := Some (metadata parsed);
                           images := found;
                           content_analysis := Some (contentAnalysis parsed);
                           recent_posts := Some (posts parsed);
                           response_message := None |}
                    | None =>
                        {| input_type := inputType;
                           normalized_url := homepageUrl;
                           feeds := first :: others;
                           recommended_feed := Some recommendedFeedUrl;
                           response_metadata := None;
                           images := found;
                           content_analysis := None;
                           recent_posts := None;
                           response_message := None |}
                    end)))
         end log) = (log ++ evs)%list /\
    List.length evs <= 1.
Proof.
  destruct located as [|first others].
  - exists []. unfold ret. cbn [snd]. rewrite app_nil_r. split; [reflexivity | simpl; lia].
  - cbv zeta. unfold bind, ret.
    pose proof (parseFeed_unfold w (url first) log) as E.
    destruct (parseFeed w (url first) log) as [parsed l]. cbn [snd] in *. subst l.
    eexists. split; [reflexivity | simpl; lia].
Qed.

Lemma homepageBranch_calls (inputType : InputType) (homepageUrl : string)
    (log : list Event) :
  exists rest,
    snd (homepageBranch cfg w inputType homepageUrl log)
    = (log ++ Fetched "GET" homepageUrl :: rest)%list /\
    List.length rest <= 11.
Proof.
  unfold homepageBranch, bind.
  pose proof (fetchHomepage_calls homepageUrl log) as F.
  destruct (fetchHomepage cfg w homepageUrl log) as [[o'|html] l1];
    cbn [snd] in F; subst l1.
  - exists []. unfold ret. cbn [snd]. split; [reflexivity | simpl; lia].
  - destruct (parseHTML w html) as [doc|e];
      [|exists []; unfold ret; cbn [snd]; split; [reflexivity | simpl; lia]].
    destruct (Nat.eqb _ 0).
    + destruct (URL_new homepageUrl None) as [u|];
        [|exists []; unfold ret, bind; cbn [snd]; split; [reflexivity | simpl; lia]].
      unfold bind.
      destruct (probeFeedPaths_calls (origin u) (log ++ [Fetched "GET" homepageUrl]))
        as (evs & E & Hl).
      destruct (probeFeedPaths w (origin u) _) as [probed l2]. cbn [snd] in E.
      subst l2. unfold ret at 1. cbv iota beta.
      destruct (located_calls inputType homepageUrl
                  {| site_icon := extractFavicon doc homepageUrl;
                     og_image := extractOgImage doc homepageUrl |}
                  probed ((log ++ [Fetched "GET" homepageUrl]) ++ evs)) as (evs' & E' & Hl').
      exists (evs ++ evs')%list. split; [|rewrite length_app; lia].
      etransitivity; [exact E'|]. now rewrite <- !app_assoc.
    + unfold ret at 1. cbv iota beta.
      destruct (located_calls inputType homepageUrl
                  {| site_icon := extractFavicon doc homepageUrl;
                     og_image := extractOgImage doc homepageUrl |}
                  (discoverFeedsFromHtml doc homepageUrl)
                  (log ++ [Fetched "GET" homepageUrl])) as (evs' & E' & Hl').
      exists evs'. split; [|lia].
      etransitivity; [exact E'|]. now rewrite <- app_assoc.
Qed.

Lemma tryDiscover_calls (normalizedUrlString : string) (u : URL) (log : list Event) :
  exists first rest,
    snd (tryDiscover cfg w normalizedUrlString u log)
    = (log ++ Fetched "GET" first :: rest)%list /\
    List.length rest <= 12 /\
    (first = normalizedUrlString /\ detectInputType u <> article \/
     first = extractHomepageUrl u /\ detectInputType u = article).
Proof.
  unfold tryDiscover.
  destruct (detectInputType u) eqn:D.
  - destruct (homepageBranch_calls homepage normalizedUrlString log) as (rest & E & Hl).
    exists normalizedUrlString, rest. split; [exact E|]. split; [lia|].
    left. split; [reflexivity | discriminate].
  - destruct (homepageBranch_calls article (extractHomepageUrl u) log) as (rest & E & Hl).
    exists (extractHomepageUrl u), rest. split; [exact E|]. split; [lia|].
    right. split; reflexivity.
  - unfold bind.
    pose proof (validateFeedUrl_calls normalizedUrlString log) as V.
    destruct (validateFeedUrl w normalizedUrlString log) as [isValid l1].
    cbn [snd] in V. subst l1.
    exists normalizedUrlString.
    destruct isValid; cbn [negb]; cbv iota beta.
    + destruct (feedBranch_calls normalizedUrlString
                  (log ++ [Fetched "GET" normalizedUrlString])) as (evs & E & Hl).
      destruct (feedBranch w normalizedUrlString _) as [o l2]. cbn [snd] in E.
      subst l2. unfold ret. cbn [snd]. exists evs. rewrite <- app_assoc.
      split; [reflexivity|]. split; [lia|]. left. split; [reflexivity|discriminate].
    + destruct (homepageBranch_calls homepage (origin u)
                  (log ++ [Fetched "GET" normalizedUrlString])) as (rest & E & Hl).
      rewrite E. exists (Fetched "GET" (origin u) :: rest). rewrite <- app_assoc.
      split; [reflexivity|]. split; [simpl; lia|].
      left. split; [reflexivity|discriminate].
Qed.

End DiscoveryCalls.

Section DiscoveryCallsOfHandler.

Import Discover DiscoverAux.

(** X26.  A discovery makes at most 13 network calls.  It makes none unless the
    request is a POST with an accepted key whose [url], trimmed and
    normalised, [validateUrl] found valid; its first call is then a GET to
    that URL or, when the URL is taken for an article, to the homepage
    derived from it. *)
Theorem discovery_calls (api : UrlApi) (env : Environment) (cfg : Config)
    (w : World) (req : VercelRequest) (res : Cors.VercelResponse ResponseBody)
    (log : list Event) :
  exists calls,
    snd (handler env cfg w req res log) = (log ++ calls)%list /\
    List.length calls <= 13 /\
    (calls = [] \/
     exists data s u first rest,
       req_method req = "POST" /\
       Auth.accepted (Auth.validateAuth cfg req) = true /\
       parseBody w req = Normal data /\
       get_url data = Normal (JString s) /\
       Ssrf.valid (Ssrf.validateUrl (normalizeUrl (Js.trim s))) = true /\
       Ssrf.url (Ssrf.validateUrl (normalizeUrl (Js.trim s))) = Some u /\
       calls = Fetched "GET" first :: rest /\
       (first = normalizeUrl (Js.trim s) /\ detectInputType u <> article \/
        first = extractHomepageUrl u /\ detectInputType u = article)).
Proof.
  assert (Q : forall (P : list Event -> Prop),
             exists calls,
               log = (log ++ calls)%list /\
               List.length calls <= 13 /\ (calls = [] \/ P calls)).
  { intro P. exists []. rewrite app_nil_r.
    split; [reflexivity|]. split; [simpl; lia | now left]. }
  destruct (handler_cases env cfg w req res log)
    as [[_ E] | [(_ & e & _ & E) | (_ & res1 & _ & E)]]; rewrite E; cbn [snd];
    [apply Q | apply Q |].
  assert (Z : forall (P : list Event -> Prop) (o : Outcome),
             exists calls,
               snd (ret o log) = (log ++ calls)%list /\
               List.length calls <= 13 /\ (calls = [] \/ P calls)).
  { intros P o. apply Q. }
  unfold answer.
  destruct (String.eqb_spec (req_method req) "POST") as [P|P]; cbn [negb];
    [|apply Z].
  destruct (Auth.validateAuth cfg req) as [auth|e] eqn:V; [|apply Z].
  destruct (Auth.authenticated auth) eqn:A; cbn [negb]; [|apply Z].
  assert (Acc : Auth.accepted (Auth.validateAuth cfg req) = true) by now rewrite V.
  rewrite <- V.
  destruct (parseBody w req) as [data|e] eqn:Pb; [|apply Z].
  destruct (get_url data) as [v|e] eqn:G; [|apply Z].
  destruct (_ || _)%bool; [apply Z|].
  destruct v as [| |b|z|s|items|fields]; try apply Z.
  unfold discoverInput.
  destruct (isUsernameInput (Js.trim s)); [apply Z|].
  destruct (Ssrf.valid (Ssrf.validateUrl (normalizeUrl (Js.trim s)))) eqn:Val;
    cbn [negb]; [|apply Z].
  destruct (Ssrf.url (Ssrf.validateUrl (normalizeUrl (Js.trim s)))) as [u|] eqn:U;
    [|apply Z].
  unfold discover, bind.
  destruct (tryDiscover_calls cfg w (normalizeUrl (Js.trim s)) u log)
    as (first & rest & E' & Hl & Hf).
  destruct (tryDiscover cfg w (normalizeUrl (Js.trim s)) u log) as [result l].
  cbn [snd] in E'. subst l. unfold ret. cbn [snd].
  exists (Fetched "GET" first :: rest). split; [reflexivity|].
  split; [simpl; lia|]. right.
  exists data, s, u, first, rest. auto 10.
Qed.

End DiscoveryCallsOfHandler.

(* ---------------------------------------------------------------------- *)
(** ** lib/auth.ts: the optional API key, on the four endpoints *)
(* ---------------------------------------------------------------------- *)

Section OptionalKey.

Import Auth Cors.


Opaque Fetch.fetchFeed.


Transparent Fetch.fetchFeed.


End OptionalKey.
